(** * OVERWATCH: the ETL worker and the analytics routes, embedded in Rocq

    The development follows the TypeScript sources of the worker
    (validators, transformer, database service, HTTP client, orchestrator)
    and of the analytics routes of the server.

    Conventions.
    - A JavaScript string is a [string] whose characters are code units in
      the range 0..255; hashing encodes it as UTF-8.
    - A JavaScript number is a [number]: NaN, an infinity, or a rational;
      the arithmetic of JavaScript rounds its results to binary64
      ([double]).  Counts and time values are integers ([Z], [nat]).
    - A [Date] object carries its time value, milliseconds since the epoch,
      or nothing when it is an Invalid Date.
    - What the JavaScript runtime leaves to the host (the offsets and the
      name of the local time zone, the parser behind [new Date(string)])
      is a field of [Runtime]. *)

From Stdlib Require Import ZArith QArith Qround Qabs Qpower List String Ascii Bool Lia Lqa Arith Sorted Permutation.
Import ListNotations.

Local Open Scope string_scope.
Local Open Scope list_scope.
Local Open Scope Z_scope.

(* ------------------------------------------------------------------ *)
(** ** Strings as code units *)

Definition code (c : ascii) : Z := Z.of_nat (nat_of_ascii c).

Definition chr (z : Z) : ascii := ascii_of_nat (Z.to_nat z).

Definition chars (s : string) : list ascii := list_ascii_of_string s.

Definition str (l : list ascii) : string := string_of_list_ascii l.

(** UTF-8 bytes of a string of code units below 256, as
    [hash.update(string)] encodes its argument. *)
Definition utf8 (s : string) : list Z :=
  flat_map (fun c =>
              let n := code c in
              if n <? 128 then [n]
              else [Z.lor 192 (Z.shiftr n 6); Z.lor 128 (Z.land n 63)])
           (chars s).

(* ------------------------------------------------------------------ *)
(** ** SHA-256 (node's [createHash('sha256')]) *)

Module Sha256.

Definition w32 (x : Z) : Z := x mod 4294967296.

Definition add32 (x y : Z) : Z := w32 (x + y).

Definition rotr (n x : Z) : Z :=
  Z.lor (Z.shiftr x n) (w32 (Z.shiftl x (32 - n))).

Definition not32 (x : Z) : Z := 4294967295 - x.

Definition ch (x y z : Z) : Z :=
  Z.lxor (Z.land x y) (Z.land (not32 x) z).

Definition maj (x y z : Z) : Z :=
  Z.lxor (Z.lxor (Z.land x y) (Z.land x z)) (Z.land y z).

Definition bigS0 (x : Z) := Z.lxor (Z.lxor (rotr 2 x) (rotr 13 x)) (rotr 22 x).
Definition bigS1 (x : Z) := Z.lxor (Z.lxor (rotr 6 x) (rotr 11 x)) (rotr 25 x).
Definition smallS0 (x : Z) := Z.lxor (Z.lxor (rotr 7 x) (rotr 18 x)) (Z.shiftr x 3).
Definition smallS1 (x : Z) := Z.lxor (Z.lxor (rotr 17 x) (rotr 19 x)) (Z.shiftr x 10).

Definition roundConstants : list Z :=
  [ 1116352408; 1899447441; 3049323471; 3921009573; 961987163; 1508970993;
    2453635748; 2870763221; 3624381080; 310598401; 607225278; 1426881987;
    1925078388; 2162078206; 2614888103; 3248222580; 3835390401; 4022224774;
    264347078; 604807628; 770255983; 1249150122; 1555081692; 1996064986;
    2554220882; 2821834349; 2952996808; 3210313671; 3336571891; 3584528711;
    113926993; 338241895; 666307205; 773529912; 1294757372; 1396182291;
    1695183700; 1986661051; 2177026350; 2456956037; 2730485921; 2820302411;
    3259730800; 3345764771; 3516065817; 3600352804; 4094571909; 275423344;
    430227734; 506948616; 659060556; 883997877; 958139571; 1322822218;
    1537002063; 1747873779; 1955562222; 2024104815; 2227730452; 2361852424;
    2428436474; 2756734187; 3204031479; 3329325298 ].

Definition initialState : list Z :=
  [ 1779033703; 3144134277; 1013904242; 2773480762;
    1359893119; 2600822924; 528734635; 1541459225 ].

(** Padding: the byte 128, zeros up to 56 modulo 64, then the bit length
    on eight bytes, most significant first. *)
Definition bigEndian (width : nat) (x : Z) : list Z :=
  map (fun i => Z.land (Z.shiftr x (8 * Z.of_nat i)) 255) (rev (seq 0 width)).

Definition pad (msg : list Z) : list Z :=
  let len := Z.of_nat (List.length msg) in
  let zeros := Z.to_nat ((55 - len) mod 64) in
  msg ++ [128] ++ repeat 0 zeros ++ bigEndian 8 (8 * len).

Fixpoint wordsOf (bytes : list Z) : list Z :=
  match bytes with
  | a :: b :: c :: d :: rest =>
      (a * 16777216 + b * 65536 + c * 256 + d) :: wordsOf rest
  | _ => []
  end.

Fixpoint blocksOf (fuel : nat) (ws : list Z) : list (list Z) :=
  match fuel, ws with
  | S k, _ :: _ => firstn 16 ws :: blocksOf k (skipn 16 ws)
  | _, _ => []
  end.

(** The message schedule, kept most recent word first. *)
Fixpoint extend (n : nat) (recent : list Z) : list Z :=
  match n with
  | O => recent
  | S k =>
      let at_ i := nth i recent 0 in
      let next :=
        add32 (add32 (smallS1 (at_ 1%nat)) (at_ 6%nat))
              (add32 (smallS0 (at_ 14%nat)) (at_ 15%nat)) in
      extend k (next :: recent)
  end.

Definition schedule (block : list Z) : list Z :=
  rev (extend 48 (rev block)).

Definition round (st : list Z) (kw : Z * Z) : list Z :=
  match st with
  | [a; b; c; d; e; f; g; h] =>
      let t1 := add32 (add32 (add32 h (bigS1 e)) (add32 (ch e f g) (fst kw))) (snd kw) in
      let t2 := add32 (bigS0 a) (maj a b c) in
      [add32 t1 t2; a; b; c; add32 d t1; e; f; g]
  | _ => st
  end.

Definition compress (st block : list Z) : list Z :=
  let final := fold_left round (combine roundConstants (schedule block)) st in
  map (fun p => add32 (fst p) (snd p)) (combine st final).

Definition digest (msg : list Z) : list Z :=
  let ws := wordsOf (pad msg) in
  fold_left compress (blocksOf (List.length ws) ws) initialState.

Definition hexDigit (n : Z) : ascii :=
  if n <? 10 then chr (48 + n) else chr (87 + n).

Definition hexWord (x : Z) : list ascii :=
  map (fun i => hexDigit (Z.land (Z.shiftr x (4 * Z.of_nat i)) 15)) (rev (seq 0 8)).

Definition hex (msg : list Z) : string :=
  str (flat_map hexWord (digest msg)).

End Sha256.

(** [createHash('sha256').update(s).digest('hex')] *)
Definition sha256hex (s : string) : string := Sha256.hex (utf8 s).


(* ------------------------------------------------------------------ *)
(** ** JavaScript numbers, dates and the host runtime *)

Inductive number :=
| NaN
| Infinity (negative : bool)
| Finite (q : Q).

Definition num (z : Z) : number := Finite (inject_Z z).

(** [x < y] and [x > y] on numbers: false as soon as one side is NaN. *)
Definition num_lt (x y : number) : bool :=
  match x, y with
  | NaN, _ | _, NaN => false
  | Infinity true, Infinity true => false
  | Infinity true, _ => true
  | _, Infinity true => false
  | Infinity false, _ => false
  | _, Infinity false => true
  | Finite a, Finite b => negb (Qle_bool b a)
  end.

Definition num_gt (x y : number) : bool := num_lt y x.

Definition isNaN (x : number) : bool :=
  match x with NaN => true | _ => false end.

(** Decimal digits of a natural number, and zero padding. *)
Fixpoint digitsOf (fuel : nat) (n : Z) (acc : list ascii) : list ascii :=
  match fuel with
  | O => acc
  | S k =>
      let acc' := chr (48 + n mod 10) :: acc in
      if n / 10 =? 0 then acc' else digitsOf k (n / 10) acc'
  end.

Definition decimal (n : Z) : string :=
  str (digitsOf (S (Z.to_nat (Z.log2 n))) n []).

Definition padStart (width : nat) (s : string) : string :=
  str (repeat "0"%char (width - String.length s)) ++ s.

Definition pad2 (n : Z) : string := padStart 2 (decimal n).

(** A [Date] object: its time value in milliseconds since the epoch, or an
    Invalid Date (time value NaN).  Both are instances of [Date]. *)
Inductive Date :=
| InvalidDate
| DateAt (ms : Z).

Definition getTime (d : Date) : number :=
  match d with InvalidDate => NaN | DateAt ms => num ms end.

(** What the host supplies: its time zone and the implementation-defined
    parser that [new Date(string)] falls back to.

    [localTZA t isUTC] is the LocalTZA of ECMA-262: the offset of local
    time from UTC, in milliseconds, in force at the time value [t] when
    [isUTC] holds, and at the local time [t] otherwise; a zone changes its
    offset with daylight saving and through its history.  [tzName t] is
    the name of the zone that [toString] prints for the time value [t].
    The parser answers the time value, or nothing for NaN. *)
Record Runtime := {
  localTZA : Z -> bool -> Z;
  tzName : Z -> string;
  parseDateString : string -> option Z
}.

Module Calendar.

Definition msPerDay : Z := 86400000.

(** Day number (days since 1 January 1970) of a proleptic Gregorian
    date, month in 1..12. *)
Definition daysFromCivil (y m d : Z) : Z :=
  let y' := if m <=? 2 then y - 1 else y in
  let era := y' / 400 in
  let yoe := y' - era * 400 in
  let doy := (153 * (if 2 <? m then m - 3 else m + 9) + 2) / 5 + d - 1 in
  let doe := yoe * 365 + yoe / 4 - yoe / 100 + doy in
  era * 146097 + doe - 719468.

(** Year, month (1..12) and day of the month of a day number. *)
Definition civilFromDays (z : Z) : Z * Z * Z :=
  let z' := z + 719468 in
  let era := z' / 146097 in
  let doe := z' - era * 146097 in
  let yoe := (doe - doe / 1460 + doe / 36524 - doe / 146096) / 365 in
  let doy := doe - (365 * yoe + yoe / 4 - yoe / 100) in
  let mp := (5 * doy + 2) / 153 in
  let d := doy - (153 * mp + 2) / 5 + 1 in
  let m := if mp <? 10 then mp + 3 else mp - 9 in
  (yoe + era * 400 + (if m <=? 2 then 1 else 0), m, d).

(** ECMAScript MakeDay: the month index (0 is January) may lie outside
    0..11 and the day outside the month; both carry over. *)
Definition makeDay (year monthIndex date : Z) : Z :=
  daysFromCivil (year + monthIndex / 12) (monthIndex mod 12 + 1) 1 + date - 1.




Definition weekdayNames : list string :=
  ["Sun"; "Mon"; "Tue"; "Wed"; "Thu"; "Fri"; "Sat"].

Definition monthNames : list string :=
  ["Jan"; "Feb"; "Mar"; "Apr"; "May"; "Jun";
   "Jul"; "Aug"; "Sep"; "Oct"; "Nov"; "Dec"].

End Calendar.

Section Dates.

Variable rt : Runtime.

(** [new Date(year, monthIndex, day)]: local midnight of that day, taken
    to UTC with the offset in force at that local time.  Years 0..99 mean
    1900..1999; a time value beyond 8.64e15 is clipped to an Invalid Date,
    and so is a NaN argument. *)
Definition newDateYMD (year monthIndex day : option Z) : Date :=
  match year, monthIndex, day with
  | Some y, Some m, Some d =>
      let yr := if (0 <=? y) && (y <=? 99) then 1900 + y else y in
      let local := Calendar.makeDay yr m d * Calendar.msPerDay in
      let t := local - localTZA rt local false in
      if Z.abs t <=? 8640000000000000 then DateAt t else InvalidDate
  | _, _, _ => InvalidDate
  end.

(** [new Date(string)] *)
Definition newDateString (s : string) : Date :=
  match parseDateString rt s with
  | Some t => DateAt t
  | None => InvalidDate
  end.

(** [Date.prototype.toString], which a template literal applies:
    weekday, month, day, year and time of day in local time, the offset
    of the zone at that time in hours and minutes, and the name of the
    zone. *)
Definition dateToString (d : Date) : string :=
  match d with
  | InvalidDate => "Invalid Date"
  | DateAt ms =>
      let offset := localTZA rt ms true in
      let t := ms + offset in
      let day := t / Calendar.msPerDay in
      let inDay := t mod Calendar.msPerDay in
      let '(y, m, dd) := Calendar.civilFromDays day in
      let weekday := nth (Z.to_nat ((day + 4) mod 7)) Calendar.weekdayNames "" in
      let month := nth (Z.to_nat (m - 1)) Calendar.monthNames "" in
      let yearSign := if y <? 0 then "-" else "" in
      let year := padStart 4 (decimal (Z.abs y)) in
      let offSign := if offset <? 0 then "-" else "+" in
      (weekday ++ " " ++ month ++ " " ++ pad2 dd ++ " " ++ yearSign ++ year
       ++ " " ++ pad2 (inDay / 3600000)
       ++ ":" ++ pad2 (inDay / 60000 mod 60)
       ++ ":" ++ pad2 (inDay / 1000 mod 60)
       ++ " GMT" ++ offSign
       ++ pad2 (Z.abs offset / 3600000 mod 24) ++ pad2 (Z.abs offset / 60000 mod 60)
       ++ " (" ++ tzName rt ms ++ ")")%string
  end.

End Dates.

(* ------------------------------------------------------------------ *)
(** ** The shared record type (packages/shared/src/types.ts) *)

Inductive Gender := male | female | other.

Inductive MissingPersonStatus := missing | found.

Definition genderValue (g : Gender) : string :=
  match g with male => "male" | female => "female" | other => "other" end.

Definition statusValue (s : MissingPersonStatus) : string :=
  match s with missing => "missing" | found => "found" end.

Definition status_eqb (a b : MissingPersonStatus) : bool :=
  match a, b with
  | missing, missing | found, found => true
  | _, _ => false
  end.

(** GeoJSON point: [type] is the literal ['Point'], [coordinates] a pair. *)
Record GeoLocation := { coordinates : number * number }.

(** [Partial<MissingPerson>], the shape the scrapers build and the shape
    that reaches the transformer and the database service at run time (the
    cast [record as MissingPerson] changes nothing).  An absent field is
    [None].  The records carry no [_id], [createdAt] or [updatedAt]: no
    scraper sets them, the store assigns them. *)
Record MissingPerson := {
  name : option string;
  age : option number;
  gender : option Gender;
  lastSeenDate : option Date;
  lastKnownLocation : option string;
  geolocation : option GeoLocation;
  status : option MissingPersonStatus;
  description : option string;
  photoUrl : option string;
  contactName : option string;
  contactPhone : option string;
  sourceURL : option string;
  sourceState : option string;
  dataHash : option string
}.

Definition setDataHash (h : option string) (p : MissingPerson) : MissingPerson :=
  {| name := name p; age := age p; gender := gender p;
     lastSeenDate := lastSeenDate p; lastKnownLocation := lastKnownLocation p;
     geolocation := geolocation p; status := status p;
     description := description p; photoUrl := photoUrl p;
     contactName := contactName p; contactPhone := contactPhone p;
     sourceURL := sourceURL p; sourceState := sourceState p;
     dataHash := h |}.

Definition setStatus (s : option MissingPersonStatus) (p : MissingPerson) : MissingPerson :=
  {| name := name p; age := age p; gender := gender p;
     lastSeenDate := lastSeenDate p; lastKnownLocation := lastKnownLocation p;
     geolocation := geolocation p; status := s;
     description := description p; photoUrl := photoUrl p;
     contactName := contactName p; contactPhone := contactPhone p;
     sourceURL := sourceURL p; sourceState := sourceState p;
     dataHash := dataHash p |}.

(* ------------------------------------------------------------------ *)
(** ** Regular expressions of the validators

    Both patterns of [parseIndianDate] are sequences of character classes
    under a greedy quantifier, some of them captured.  [search] is
    [String.prototype.match] without the [g] flag: the leftmost match, each
    quantifier taking as much as it can and giving back on failure. *)

Inductive CharClass :=
| Digit        (* \d *)
| Space        (* \s *)
| Letter       (* [A-Za-z] *)
| DashOrSlash. (* [-\/] *)

Record Piece := {
  cls : CharClass;
  atLeast : nat;
  atMost : option nat;
  captured : bool
}.

Definition Regex := list Piece.

Definition isDigit (c : ascii) : bool := (48 <=? code c) && (code c <=? 57).

(** White space among the code units below 256: tab, line feed, vertical
    tab, form feed, carriage return, space, no-break space. *)
Definition isSpace (c : ascii) : bool :=
  ((9 <=? code c) && (code c <=? 13)) || (code c =? 32) || (code c =? 160).

Definition isLetter (c : ascii) : bool :=
  ((65 <=? code c) && (code c <=? 90)) || ((97 <=? code c) && (code c <=? 122)).

Definition isDashOrSlash (c : ascii) : bool := (code c =? 45) || (code c =? 47).

Definition inClass (k : CharClass) (c : ascii) : bool :=
  match k with
  | Digit => isDigit c
  | Space => isSpace c
  | Letter => isLetter c
  | DashOrSlash => isDashOrSlash c
  end.

(** Length of the longest prefix of [s] inside the class, up to [limit]. *)
Fixpoint runLength (k : CharClass) (limit : option nat) (s : list ascii) : nat :=
  match limit, s with
  | Some O, _ | _, [] => O
  | _, c :: rest =>
      if inClass k c
      then S (runLength k (option_map Nat.pred limit) rest)
      else O
  end.

(** The longest length, from [n] down, at which [attempt] succeeds: a
    greedy quantifier gives back one character at a time. *)
Fixpoint giveBack (attempt : nat -> option (list string)) (n : nat)
  : option (list string) :=
  match attempt n, n with
  | Some r, _ => Some r
  | None, O => None
  | None, S n' => giveBack attempt n'
  end.

(** Match the pieces at the head of [s]; the captures, in order. *)
Fixpoint matchHere (re : Regex) (s : list ascii) : option (list string) :=
  match re with
  | [] => Some []
  | p :: rest =>
      giveBack
        (fun n =>
           if (atLeast p <=? n)%nat
           then match matchHere rest (skipn n s) with
                | Some caps =>
                    Some (if captured p then str (firstn n s) :: caps else caps)
                | None => None
                end
           else None)
        (runLength (cls p) (atMost p) s)
  end.

Fixpoint search (re : Regex) (s : list ascii) : option (list string) :=
  match matchHere re s with
  | Some caps => Some caps
  | None => match s with
            | [] => None
            | _ :: rest => search re rest
            end
  end.

Definition piece (k : CharClass) (lo : nat) (hi : option nat) (cap : bool) : Piece :=
  {| cls := k; atLeast := lo; atMost := hi; captured := cap |}.

(** [/(\d{1,2})[-\/](\d{1,2})[-\/](\d{4})/] *)
Definition numericDatePattern : Regex :=
  [ piece Digit 1 (Some 2%nat) true; piece DashOrSlash 1 (Some 1%nat) false;
    piece Digit 1 (Some 2%nat) true; piece DashOrSlash 1 (Some 1%nat) false;
    piece Digit 4 (Some 4%nat) true ].

(** [/(\d{1,2})\s+([A-Za-z]+)\s+(\d{4})/] *)
Definition namedMonthPattern : Regex :=
  [ piece Digit 1 (Some 2%nat) true; piece Space 1 None false;
    piece Letter 1 None true; piece Space 1 None false;
    piece Digit 4 (Some 4%nat) true ].

(* ------------------------------------------------------------------ *)
(** ** utils/validators.ts *)

(** A value of type [string | undefined] inside a template literal. *)
Definition templateString (v : option string) : string :=
  match v with Some s => s | None => "undefined" end.

Section Validators.

Variable rt : Runtime.

Definition templateDate (v : option Date) : string :=
  match v with Some d => dateToString rt d | None => "undefined" end.

(** [generateDataHash] *)
Definition generateDataHash (person : MissingPerson) : string :=
  let identifierString :=
    (templateString (name person) ++ "-" ++ templateDate (lastSeenDate person)
     ++ "-" ++ templateString (sourceURL person))%string in
  sha256hex identifierString.

Fixpoint dropSpaces (s : list ascii) : list ascii :=
  match s with
  | c :: rest => if isSpace c then dropSpaces rest else s
  | [] => []
  end.

Definition trim (s : list ascii) : list ascii :=
  rev (dropSpaces (rev (dropSpaces s))).

(** [replace(/\s+/g, ' ')]: every maximal run of white space becomes one
    space; [inRun] tells that the previous character was white space. *)
Fixpoint collapseSpaces (inRun : bool) (s : list ascii) : list ascii :=
  match s with
  | [] => []
  | c :: rest =>
      if isSpace c
      then (if inRun then collapseSpaces true rest
            else " "%char :: collapseSpaces true rest)
      else c :: collapseSpaces false rest
  end.

(** [normalizeText] *)
Definition normalizeText (text : string) : string :=
  str (collapseSpaces false (trim (chars text))).

(** [parseInt(s, radix)]: leading white space, a sign, then the longest
    run of digits of the radix; NaN ([None]) when there is none.  Without
    a radix, or with radix 16, a [0x] prefix is skipped and selects
    radix 16; without a radix and without prefix the radix is 10. *)
Definition digitValue (radix : Z) (c : ascii) : option Z :=
  let n := code c in
  let v := if (48 <=? n) && (n <=? 57) then n - 48
           else if (97 <=? n) && (n <=? 122) then n - 87
           else if (65 <=? n) && (n <=? 90) then n - 55
           else 36 in
  if v <? radix then Some v else None.

Fixpoint readDigits (radix : Z) (s : list ascii) (acc : option Z) : option Z :=
  match s with
  | [] => acc
  | c :: rest =>
      match digitValue radix c with
      | Some v =>
          readDigits radix rest
                     (Some (radix * match acc with Some a => a | None => 0 end + v))
      | None => acc
      end
  end.

(** The sign at the head of the text, and the text after it. *)
Definition readSign (body : list ascii) : Z * list ascii :=
  match body with
  | c :: rest =>
      if Ascii.eqb c "-" then (-1, rest)
      else if Ascii.eqb c "+" then (1, rest)
      else (1, body)
  | [] => (1, body)
  end.

(** Whether the text starts with [0x] or [0X], and the text after it. *)
Definition readHexPrefix (body : list ascii) : option (list ascii) :=
  match body with
  | c :: x :: rest =>
      if Ascii.eqb c "0" && (Ascii.eqb x "x" || Ascii.eqb x "X") then Some rest
      else None
  | _ => None
  end.

Definition parseInt (s : string) (radix : option Z) : option Z :=
  let '(sign, body) := readSign (dropSpaces (chars s)) in
  let r := match radix with Some r => r | None => 0 end in
  if negb (r =? 0) && ((r <? 2) || (36 <? r)) then None
  else
    let stripPrefix := (r =? 0) || (r =? 16) in
    let '(r, body) :=
      match readHexPrefix body with
      | Some rest => if stripPrefix then (16, rest) else (r, body)
      | None => (if r =? 0 then 10 else r, body)
      end in
    option_map (Z.mul sign) (readDigits r body None).

(** [parseIndianDate] *)
Definition parseIndianDate (dateString : string) : option Date :=
  let normalized := normalizeText dateString in
  match search numericDatePattern (chars normalized) with
  | Some caps =>
      let day := nth 0 caps "" in
      let month := nth 1 caps "" in
      let year := nth 2 caps "" in
      Some (newDateYMD rt (parseInt year None)
                       (option_map (fun m => m - 1) (parseInt month None))
                       (parseInt day None))
  | None =>
      match search namedMonthPattern (chars normalized) with
      | Some caps =>
          let day := nth 0 caps "" in
          let monthStr := nth 1 caps "" in
          let year := nth 2 caps "" in
          let date := newDateString rt (monthStr ++ " " ++ day ++ ", " ++ year)%string in
          if isNaN (getTime date) then None else Some date
      | None =>
          let date := newDateString rt normalized in
          if isNaN (getTime date) then None else Some date
      end
  end.

End Validators.

(* ------------------------------------------------------------------ *)
(** ** Errors, effects and the host

    Asynchronous code runs to completion one call after the other, so an
    [async] function is a function of the world that either returns or
    throws.  The world keeps what the worker changes: the collection, the
    log files and the network trace.  What the outside answers (storage
    failures, the clock, the network, the scraped pages) is read from the
    host, indexed by the number of host calls made so far. *)

(** An [Error] object; [errorCode] is the [code] of a [ScraperError] or of a driver
    error. *)
Record Error := {
  errorName : string;
  message : string;
  errorCode : option string
}.

Inductive Result (A : Type) : Type :=
| Returned (value : A)
| Thrown (error : Error).

Arguments Returned {A} value.
Arguments Thrown {A} error.

(** A computation over a state [S]: the state survives a throw, as the
    variables of a function survive into its [catch] block. *)
Definition M (S A : Type) : Type := S -> Result A * S.

Definition ret {S A : Type} (a : A) : M S A := fun s => (Returned a, s).

Definition throw {S A : Type} (e : Error) : M S A := fun s => (Thrown e, s).

Definition bind {S A B : Type} (m : M S A) (k : A -> M S B) : M S B :=
  fun s =>
    match m s with
    | (Returned a, s') => k a s'
    | (Thrown e, s') => (Thrown e, s')
    end.

(** [try { body } catch (error) { handler }] *)
Definition tryCatch {S A : Type} (body : M S A) (handler : Error -> M S A) : M S A :=
  fun s =>
    match body s with
    | (Returned a, s') => (Returned a, s')
    | (Thrown e, s') => handler e s'
    end.

Notation "x <- m ;; k" := (bind m (fun x => k))
  (at level 61, m at next level, right associativity).
Notation "m ;; k" := (bind m (fun _ => k))
  (at level 61, right associativity).

(** [for (const x of items) { body }] *)
Fixpoint forEach {S A : Type} (items : list A) (body : A -> M S unit) : M S unit :=
  match items with
  | [] => ret tt
  | x :: rest => body x ;; forEach rest body
  end.

(** Local variables [L] of a function beside the world [W]. *)
Definition onWorld {L W A : Type} (m : M W A) : M (L * W) A :=
  fun s => let '(r, w) := m (snd s) in (r, (fst s, w)).

Definition assign {L W : Type} (f : L -> L) : M (L * W) unit :=
  fun s => (Returned tt, (f (fst s), snd s)).

(** A stored document: the fields of the record, the identifier and the
    two time stamps the store keeps (milliseconds since the epoch). *)
Record Doc := {
  _id : nat;
  fields : MissingPerson;
  createdAt : Z;
  updatedAt : Z
}.

(** An axios response. *)
Record Response := {
  responseStatus : Z;
  statusText : string;
  data : string
}.

(** What the worker leaves on the network: its requests and the pauses
    between them. *)
Inductive NetEvent :=
| Request (url : string)
| Pause (delay : Z).

(** An entry of [scraper-errors-<day>.json]. *)
Record ErrorEntry := {
  errorTimestamp : Z;
  errorState : string;
  loggedError : Error;
  context : list (string * option string)
}.

(** An entry of [validation-errors-<day>.json]; each rejected record comes
    with the rules it failed. *)
Record ValidationEntry := {
  validationTimestamp : Z;
  validationState : string;
  errorCount : nat;
  rejected : list (MissingPerson * list string)
}.

Record World := {
  db : list Doc;
  steps : nat;
  errorLog : list ErrorEntry;
  validationLog : list ValidationEntry;
  network : list NetEvent
}.

Definition setDb (docs : list Doc) (w : World) : World :=
  {| db := docs; steps := steps w; errorLog := errorLog w;
     validationLog := validationLog w; network := network w |}.

Definition tick (w : World) : World :=
  {| db := db w; steps := S (steps w); errorLog := errorLog w;
     validationLog := validationLog w; network := network w |}.

Definition logErrorEntry (e : ErrorEntry) (w : World) : World :=
  {| db := db w; steps := steps w; errorLog := errorLog w ++ [e];
     validationLog := validationLog w; network := network w |}.

Definition logValidationEntry (e : ValidationEntry) (w : World) : World :=
  {| db := db w; steps := steps w; errorLog := errorLog w;
     validationLog := validationLog w ++ [e]; network := network w |}.

Definition trace (e : NetEvent) (w : World) : World :=
  {| db := db w; steps := steps w; errorLog := errorLog w;
     validationLog := validationLog w; network := network w ++ [e] |}.

(** A row of a scraped page as cheerio hands it over: the text of its
    cells and the [alt] text of its image, if it has one. *)
Record Row := {
  cells : list string;
  imageAlt : option string
}.

Record Env := {
  runtime : Runtime;
  (** [Date.now()] after so many host calls *)
  clock : nat -> Z;
  (** the error a storage call made after so many host calls rejects
      with, if it does *)
  storageFault : nat -> option Error;
  (** what [axios.get] answers: a response (status 2xx) or a rejection *)
  axiosGet : nat -> string -> Result Response;
  (** the elements cheerio selects in a page, for each source *)
  selectRows : string -> string -> list Row;
  (** [Math.random()], in [0, 1) *)
  random : nat -> Q
}.

(* ------------------------------------------------------------------ *)
(** ** Values of type [unknown] and the validator *)

#[local] Unset Elimination Schemes.

Inductive JsValue :=
| JUndefined
| JNull
| JBoolean (b : bool)
| JNumber (n : number)
| JString (s : string)
| JDate (d : Date)
| JArray (items : list JsValue)
| JObject (properties : list (string * JsValue)).

#[local] Set Elimination Schemes.

Definition typeOf (v : JsValue) : string :=
  match v with
  | JUndefined => "undefined"
  | JBoolean _ => "boolean"
  | JNumber _ => "number"
  | JString _ => "string"
  | JNull | JDate _ | JArray _ | JObject _ => "object"
  end.

Definition isZero (n : number) : bool :=
  match n with Finite q => Qeq_bool q 0 | _ => false end.

(** [!v] is [negb (truthy v)]. *)
Definition truthy (v : JsValue) : bool :=
  match v with
  | JUndefined | JNull => false
  | JBoolean b => b
  | JNumber n => negb (isNaN n || isZero n)
  | JString s => negb (s =? "")%string
  | JDate _ | JArray _ | JObject _ => true
  end.

Fixpoint lookup (key : string) (properties : list (string * JsValue)) : JsValue :=
  match properties with
  | [] => JUndefined
  | (k, v) :: rest => if (k =? key)%string then v else lookup key rest
  end.

(** [person.key] for the keys the validator reads: none of them is a
    property of a Date or of an array. *)
Definition prop (person : JsValue) (key : string) : JsValue :=
  match person with
  | JObject properties => lookup key properties
  | _ => JUndefined
  end.

(** [v instanceof Date]: an Invalid Date is a Date too. *)
Definition instanceofDate (v : JsValue) : bool :=
  match v with JDate _ => true | _ => false end.

(** [list.includes(v)] for a list of strings *)
Definition includes (list : list string) (v : JsValue) : bool :=
  match v with
  | JString s => existsb (String.eqb s) list
  | _ => false
  end.

(** [v < bound] and [v > bound] once [typeof v] is known to be number *)
Definition below (v : JsValue) (bound : Z) : bool :=
  match v with JNumber n => num_lt n (num bound) | _ => false end.

Definition above (v : JsValue) (bound : Z) : bool :=
  match v with JNumber n => num_gt n (num bound) | _ => false end.

(** The answer of the validator. *)
Module Validation.

Record t := {
  valid : bool;
  errors : list string
}.

End Validation.

Definition push (errors : list string) (condition : bool) (error : string) : list string :=
  if condition then errors ++ [error] else errors.

(** [validateExtractedData] *)
Definition validateExtractedData (data : JsValue) : Validation.t :=
  let errors := [] in
  if negb (truthy data) || negb (typeOf data =? "object")%string
  then {| Validation.valid := false;
          Validation.errors := errors ++ ["Data must be an object"] |}
  else
    let person := prop data in
    let errors :=
      push errors
           (negb (truthy (person "name")) || negb (typeOf (person "name") =? "string")%string)
           "Name is required and must be a string" in
    let errors :=
      push errors
           (negb (typeOf (person "age") =? "number")%string
            || below (person "age") 0 || above (person "age") 150)
           "Age must be a number between 0 and 150" in
    let errors :=
      push errors
           (negb (includes ["male"; "female"; "other"] (person "gender")))
           "Gender must be male, female, or other" in
    let errors :=
      push errors
           (negb (instanceofDate (person "lastSeenDate")))
           "Last seen date must be a valid date" in
    let errors :=
      push errors
           (negb (truthy (person "lastKnownLocation"))
            || negb (typeOf (person "lastKnownLocation") =? "string")%string)
           "Last known location is required" in
    {| Validation.valid := (List.length errors =? 0)%nat;
       Validation.errors := errors |}.

(** [validateAge] *)
Definition validateAge (age : number + string) : option number :=
  let ageNum :=
    match age with
    | inr s => match parseInt s (Some 10) with Some z => num z | None => NaN end
    | inl n => n
    end in
  if isNaN ageNum || num_lt ageNum (num 0) || num_gt ageNum (num 150)
  then None else Some ageNum.

(** [a >= b] and [a <= b] on numbers *)
Definition num_ge (x y : number) : bool :=
  match x, y with
  | NaN, _ | _, NaN => false
  | Finite a, Finite b => Qle_bool b a
  | Infinity false, _ => true
  | _, Infinity true => true
  | _, _ => false
  end.

Definition num_le (x y : number) : bool := num_ge y x.

(** [isValidIndianCoordinates] *)
Definition isValidIndianCoordinates (latitude longitude : number) : bool :=
  num_ge latitude (Finite 8) && num_le latitude (Finite (71 # 2))
  && num_ge longitude (Finite 68) && num_le longitude (Finite (195 # 2)).

(** The object a record is at run time: only the fields that are set. *)
Definition field {A : Type} (key : string) (inject : A -> JsValue) (v : option A)
  : list (string * JsValue) :=
  match v with Some a => [(key, inject a)] | None => [] end.

Definition geoJson (g : GeoLocation) : JsValue :=
  JObject [("type", JString "Point");
           ("coordinates", JArray [JNumber (fst (coordinates g));
                                   JNumber (snd (coordinates g))])].

Definition toJs (p : MissingPerson) : JsValue :=
  JObject (field "name" JString (name p)
           ++ field "age" JNumber (age p)
           ++ field "gender" (fun g => JString (genderValue g)) (gender p)
           ++ field "lastSeenDate" JDate (lastSeenDate p)
           ++ field "lastKnownLocation" JString (lastKnownLocation p)
           ++ field "geolocation" geoJson (geolocation p)
           ++ field "status" (fun s => JString (statusValue s)) (status p)
           ++ field "description" JString (description p)
           ++ field "photoUrl" JString (photoUrl p)
           ++ field "contactName" JString (contactName p)
           ++ field "contactPhone" JString (contactPhone p)
           ++ field "sourceURL" JString (sourceURL p)
           ++ field "sourceState" JString (sourceState p)
           ++ field "dataHash" JString (dataHash p)).

(* ------------------------------------------------------------------ *)
(** ** transformer/transformer.ts *)

Module DataTransformer.

Record Output := {
  valid : list MissingPerson;
  invalid : list (MissingPerson * list string)
}.

(** The body of the loop: the record goes to one list or to the other. *)
Definition step (out : Output) (record : MissingPerson) : Output :=
  let validation := validateExtractedData (toJs record) in
  if Validation.valid validation
  then {| valid := valid out ++ [record]; invalid := invalid out |}
  else {| valid := valid out;
          invalid := invalid out ++ [(record, Validation.errors validation)] |}.

Definition transform (rawRecords : list MissingPerson) : Output :=
  fold_left step rawRecords {| valid := []; invalid := [] |}.

End DataTransformer.

(* ------------------------------------------------------------------ *)
(** ** Aggregation stages and number formatting

    The order in which [$group] puts out its groups, and the order [$sort]
    leaves between equal keys, are the store's choice; here groups come in
    the order of their first document and sorting is stable. *)

(** Equality of two optional values *)
Definition option_eqb {A : Type} (eqb : A -> A -> bool) (x y : option A) : bool :=
  match x, y with
  | Some a, Some b => eqb a b
  | None, None => true
  | _, _ => false
  end.

Definition num_add (x y : number) : number :=
  match x, y with
  | NaN, _ | _, NaN => NaN
  | Infinity a, Infinity b => if Bool.eqb a b then Infinity a else NaN
  | Infinity a, Finite _ | Finite _, Infinity a => Infinity a
  | Finite a, Finite b => Finite (a + b)
  end.

(** [x / n] for a count [n] above zero *)
Definition num_over (x : number) (n : nat) : number :=
  match x with
  | Finite a => Finite (a / inject_Z (Z.of_nat n))
  | _ => x
  end.

(** [$avg]: the mean of the values that are numbers, [null] without any. *)
Definition avg (values : list (option number)) : option number :=
  let numbers := flat_map (fun v => match v with Some n => [n] | None => [] end) values in
  match numbers with
  | [] => None
  | _ => Some (num_over (fold_left num_add numbers (num 0)) (List.length numbers))
  end.

(** [$divide]: an error when the divisor is zero. *)
Definition divide (a b : Q) : option Q :=
  if Qeq_bool b 0 then None else Some (a / b)%Q.

(** The integer nearest to [x], a half going to the even one. *)
Definition roundHalfEven (x : Q) : Z :=
  let f := Qfloor x in
  let r := (x - inject_Z f)%Q in
  match (r ?= 1 # 2)%Q with
  | Lt => f
  | Gt => f + 1
  | Eq => if Z.even f then f else f + 1
  end.

(** [$round: [x, place]] *)
Definition round (x : Q) (place : nat) : Q :=
  let scale := inject_Z (10 ^ Z.of_nat place) in
  (inject_Z (roundHalfEven (x * scale)) / scale)%Q.

Definition roundNumber (x : option number) (place : nat) : option number :=
  match x with
  | Some (Finite q) => Some (Finite (round q place))
  | _ => x
  end.

(** *** binary64

    JavaScript computes in binary64: the exact result of an operation is
    rounded to the nearest number with a significand of 53 bits, a tie
    going to the even significand; below 2^-1022 the unit is 2^-1074, and
    a result that rounds to 2^1024 or more is infinite. *)

(** The exponent [e] of the unit in the last place of a positive [q]:
    2^(e+52) <= q < 2^(e+53), and [e] is at least -1074. *)
Definition ulpExponent (q : Q) : Z :=
  let k := Z.log2 (Qnum q) - Z.log2 (Zpos (Qden q)) in
  let e := if Qle_bool (2 ^ k)%Q q then k - 52 else k - 53 in
  Z.max e (-1074).

Definition double (q : Q) : number :=
  if Qeq_bool q 0 then Finite 0
  else
    let e := ulpExponent (Qabs q) in
    let r := (inject_Z (roundHalfEven (Qabs q / 2 ^ e)) * 2 ^ e)%Q in
    if Qle_bool (2 ^ 1024)%Q r then Infinity (negb (Qle_bool 0 q))
    else Finite (if Qle_bool 0 q then r else - r).

Definition isNegative (x : number) : bool :=
  match x with
  | NaN => false
  | Infinity negative => negative
  | Finite q => negb (Qle_bool 0 q)
  end.

(** [x + y], [x * y] and [x / y] of JavaScript; a zero has no sign
    here. *)
Definition jsAdd (x y : number) : number :=
  match x, y with
  | NaN, _ | _, NaN => NaN
  | Infinity a, Infinity b => if Bool.eqb a b then Infinity a else NaN
  | Infinity a, Finite _ | Finite _, Infinity a => Infinity a
  | Finite a, Finite b => double (a + b)
  end.

Definition jsMul (x y : number) : number :=
  match x, y with
  | NaN, _ | _, NaN => NaN
  | Finite a, Finite b => double (a * b)
  | Infinity _, Finite q | Finite q, Infinity _ =>
      if Qeq_bool q 0 then NaN else Infinity (xorb (isNegative x) (isNegative y))
  | Infinity a, Infinity b => Infinity (xorb a b)
  end.

Definition jsDiv (x y : number) : number :=
  match x, y with
  | NaN, _ | _, NaN => NaN
  | Infinity _, Infinity _ => NaN
  | Infinity a, Finite _ => Infinity (xorb a (isNegative y))
  | Finite _, Infinity _ => Finite 0
  | Finite a, Finite b =>
      if Qeq_bool b 0
      then (if Qeq_bool a 0 then NaN else Infinity (isNegative x))
      else double (a / b)
  end.

(** A count as the driver hands it to JavaScript. *)
Definition count (n : nat) : number := double (inject_Z (Z.of_nat n)).

(** [$avg] as the store computes it, in binary64: it keeps the sum in
    double-double precision, taken here to be exact, rounds it and divides
    it by the count. *)
Definition avgDouble (values : list (option number)) : option number :=
  let numbers := flat_map (fun v => match v with Some n => [n] | None => [] end) values in
  match numbers with
  | [] => None
  | _ =>
      Some (jsDiv (match fold_left num_add numbers (num 0) with
                   | Finite total => double total
                   | infinite => infinite
                   end)
                  (count (List.length numbers)))
  end.

(** [x.toFixed(digits)] for a number below 1e21 in magnitude: the nearest
    multiple of the unit, a half going up in magnitude; [x] is the exact
    value of the binary64 number. *)
Definition toFixed (x : number) (digits : nat) : string :=
  match x with
  | NaN => "NaN"
  | Infinity negative => if negative then "-Infinity" else "Infinity"
  | Finite q =>
      let scale := 10 ^ Z.of_nat digits in
      let n := Qfloor (Qabs q * inject_Z scale + (1 # 2)) in
      let sign := if Qle_bool 0 q then "" else "-" in
      let whole := decimal (n / scale) in
      let fraction := padStart digits (decimal (n mod scale)) in
      if (digits =? 0)%nat then sign ++ whole
      else sign ++ whole ++ "." ++ fraction
  end.

(** [$group]: the documents by key. *)
Fixpoint addToGroup {K : Type} (eqb : K -> K -> bool) (k : K) (d : Doc)
         (groups : list (K * list Doc)) : list (K * list Doc) :=
  match groups with
  | [] => [(k, [d])]
  | (k', ds) :: rest =>
      if eqb k' k then (k', ds ++ [d]) :: rest
      else (k', ds) :: addToGroup eqb k d rest
  end.

Definition groupBy {K : Type} (eqb : K -> K -> bool) (key : Doc -> K)
           (docs : list Doc) : list (K * list Doc) :=
  fold_left (fun groups d => addToGroup eqb (key d) d groups) docs [].

(** [$sort]: [before x y] tells that [x] may stand before [y]. *)
Fixpoint insertSorted {A : Type} (before : A -> A -> bool) (x : A) (sorted : list A)
  : list A :=
  match sorted with
  | [] => [x]
  | y :: rest => if before x y then x :: sorted else y :: insertSorted before x rest
  end.

Definition sortBy {A : Type} (before : A -> A -> bool) (l : list A) : list A :=
  fold_right (insertSorted before) [] l.

(** [$sum: { $cond: [{ $eq: ['$status', s] }, 1, 0] }] *)
Definition hasStatus (s : MissingPersonStatus) (d : Doc) : bool :=
  option_eqb status_eqb (status (fields d)) (Some s).

Definition countStatus (s : MissingPersonStatus) (docs : list Doc) : nat :=
  List.length (filter (hasStatus s) docs).

(* ------------------------------------------------------------------ *)
(** ** models/MissingPerson.ts: the Mongoose model

    The schema is read with the meaning Mongoose (6 and later) and MongoDB
    give it: validation and casting before a document is saved, time stamps
    set by the [timestamps] option, a unique index on [dataHash] and a
    2dsphere index on the coordinates, both checked by the server on
    insertion.  An update runs no validator, and a key whose value is
    [undefined] is dropped from it. *)

(** The filter [{ dataHash: h }] *)
Definition sameHash (h : option string) (doc : Doc) : bool :=
  option_eqb String.eqb h (dataHash (fields doc)).

(** [required: true] on a string: set and not empty *)
Definition required (v : option string) : bool :=
  match v with Some s => negb (s =? "")%string | None => false end.

(** [maxlength] *)
Definition maxlength (limit : nat) (v : option string) : bool :=
  match v with Some s => (String.length s <=? limit)%nat | None => true end.

Definition schemaAccepts (r : MissingPerson) : bool :=
  required (name r) && maxlength 255 (name r)
  && match age r with
     | Some n => negb (isNaN n) && num_ge n (num 0) && num_le n (num 150)
     | None => false
     end
  && match gender r with Some _ => true | None => false end
  && match lastSeenDate r with Some (DateAt _) => true | _ => false end
  && required (lastKnownLocation r)
  && match geolocation r with
     | Some g => negb (isNaN (fst (coordinates g))) && negb (isNaN (snd (coordinates g)))
     | None => false
     end
  && maxlength 1000 (description r)
  && maxlength 255 (contactName r)
  && required (sourceURL r) && required (sourceState r) && required (dataHash r).

(** The 2dsphere index takes a pair longitude, latitude within bounds. *)
Definition geoKeysAccept (r : MissingPerson) : bool :=
  match geolocation r with
  | Some g =>
      num_ge (fst (coordinates g)) (num (-180)) && num_le (fst (coordinates g)) (num 180)
      && num_ge (snd (coordinates g)) (num (-90)) && num_le (snd (coordinates g)) (num 90)
  | None => true
  end.

(** [default: 'missing'] *)
Definition withDefaults (r : MissingPerson) : MissingPerson :=
  match status r with
  | Some _ => r
  | None => setStatus (Some missing) r
  end.

Definition validationError : Error :=
  {| errorName := "ValidationError";
     message := "MissingPerson validation failed";
     errorCode := None |}.

Definition duplicateKeyError : Error :=
  {| errorName := "MongoServerError";
     message := "E11000 duplicate key error collection: missing_persons";
     errorCode := Some "11000" |}.

Definition geoKeysError : Error :=
  {| errorName := "MongoServerError";
     message := "Can't extract geo keys";
     errorCode := Some "16755" |}.

(** A fresh [_id]. *)
Definition freshId (docs : list Doc) : nat :=
  S (fold_right Nat.max 0%nat (map _id docs)).

(** The update [{ status, updatedAt }] applied to a document. *)
Definition applyUpdate (s : option MissingPersonStatus) (at_ : Z) (doc : Doc) : Doc :=
  {| _id := _id doc;
     fields := match s with
               | Some _ => setStatus s (fields doc)
               | None => fields doc
               end;
     createdAt := createdAt doc;
     updatedAt := at_ |}.

(** Apply [f] to the first document with this [_id]. *)
Fixpoint updateFirst (id : nat) (f : Doc -> Doc) (docs : list Doc) : list Doc :=
  match docs with
  | [] => []
  | d :: rest =>
      if (_id d =? id)%nat then f d :: rest else d :: updateFirst id f rest
  end.

Module MissingPersonModel.

Section Model.

Variable env : Env.

(** [new Date()] *)
Definition currentTime : M World Z :=
  fun w => (Returned (clock env (steps w)), w).

(** A call to the store: a host call, which may reject. *)
Definition storageCall {A : Type} (operation : World -> Result A * World) : M World A :=
  fun w =>
    match storageFault env (steps w) with
    | Some e => (Thrown e, tick w)
    | None => operation (tick w)
    end.

Definition findOne (h : option string) : M World (option Doc) :=
  storageCall (fun w => (Returned (find (sameHash h) (db w)), w)).

Definition updateOne (id : nat) (s : option MissingPersonStatus) (at_ : Z)
  : M World unit :=
  storageCall
    (fun w => (Returned tt, setDb (updateFirst id (applyUpdate s at_) (db w)) w)).

Definition create (record : MissingPerson) : M World Doc :=
  if negb (schemaAccepts record) then throw validationError
  else
    now <- currentTime ;;
    storageCall
      (fun w =>
         if existsb (sameHash (dataHash record)) (db w)
         then (Thrown duplicateKeyError, w)
         else if negb (geoKeysAccept record)
         then (Thrown geoKeysError, w)
         else
           let doc := {| _id := freshId (db w);
                         fields := withDefaults record;
                         createdAt := now;
                         updatedAt := now |} in
           (Returned doc, setDb (db w ++ [doc]) w)).

End Model.

End MissingPersonModel.

(* ------------------------------------------------------------------ *)
(** ** utils/errorLogger.ts

    The log files are the sequences of entries handed to the logger; a
    write that fails is caught inside the logger and is not modelled. *)

Module ErrorLogger.

Section Logger.

Variable env : Env.

Definition logError (state : string) (error : Error)
           (context : list (string * option string)) : M World unit :=
  fun w =>
    (Returned tt,
     logErrorEntry {| errorTimestamp := clock env (steps w);
                      errorState := state;
                      loggedError := error;
                      context := context |} w).

Definition logValidationErrors (state : string)
           (errors : list (MissingPerson * list string)) : M World unit :=
  fun w =>
    (Returned tt,
     logValidationEntry {| validationTimestamp := clock env (steps w);
                           validationState := state;
                           errorCount := List.length errors;
                           rejected := errors |} w).

End Logger.

End ErrorLogger.

(* ------------------------------------------------------------------ *)
(** ** services/databaseService.ts *)

Module DatabaseService.

Record Counts := {
  inserted : nat;
  duplicates : nat
}.

Definition countInserted (c : Counts) : Counts :=
  {| inserted := S (inserted c); duplicates := duplicates c |}.

Definition countDuplicate (c : Counts) : Counts :=
  {| inserted := inserted c; duplicates := S (duplicates c) |}.

(** [record.status !== existing.status] *)
Definition statusDiffers (a b : option MissingPersonStatus) : bool :=
  negb (option_eqb status_eqb a b).

Record Statistics := {
  totalRecords : nat;
  byState : list (option string * nat);
  byStatus : list (option MissingPersonStatus * nat);
  lastUpdated : option Z
}.

(** [count: { $sum: 1 }] *)
Definition countGroups {K : Type} (groups : list (K * list Doc)) : list (K * nat) :=
  map (fun g => (fst g, List.length (snd g))) groups.

Section Service.

Variable env : Env.

(** The body of the loop of [insertRecords]; the two counters are its
    local variables. *)
Definition insertRecord (state : string) (record : MissingPerson)
  : M (Counts * World) unit :=
  tryCatch
    (existing <- onWorld (MissingPersonModel.findOne env (dataHash record)) ;;
     match existing with
     | Some existing =>
         assign countDuplicate ;;
         if statusDiffers (status record) (status (fields existing))
         then
           now <- onWorld (MissingPersonModel.currentTime env) ;;
           onWorld (MissingPersonModel.updateOne env (_id existing) (status record) now)
         else ret tt
     | None =>
         onWorld (MissingPersonModel.create env record) ;;
         assign countInserted
     end)
    (fun error =>
       onWorld (ErrorLogger.logError env state error
                                     [("recordName", name record);
                                      ("dataHash", dataHash record)])).

Definition insertRecords (records : list MissingPerson) (state : string)
  : M World Counts :=
  fun w =>
    match forEach records (insertRecord state)
                  ({| inserted := 0; duplicates := 0 |}, w) with
    | (Returned _, (counts, w')) => (Returned counts, w')
    | (Thrown e, (_, w')) => (Thrown e, w')
    end.

(** [getStatistics]: one aggregation with four facets. *)
Definition getStatistics : M World Statistics :=
  MissingPersonModel.storageCall env
    (fun w =>
       let docs := db w in
       (Returned
          {| totalRecords := List.length docs;
             byState :=
               sortBy (fun x y => (snd y <=? snd x)%nat)
                      (countGroups (groupBy (option_eqb String.eqb)
                                            (fun d => sourceState (fields d)) docs));
             byStatus :=
               countGroups (groupBy (option_eqb status_eqb)
                                    (fun d => status (fields d)) docs);
             lastUpdated :=
               match docs with
               | [] => None
               | d :: rest => Some (fold_left Z.max (map updatedAt rest) (updatedAt d))
               end |},
        w)).

End Service.

End DatabaseService.

(** What the upsert may never change in a stored document: its
    identifier, its creation time and every field but the status. *)
Definition withoutStatus (d : Doc) : nat * MissingPerson * Z :=
  (_id d, setStatus None (fields d), createdAt d).

(** The failures logged between two worlds. *)
Definition failuresLogged (w w' : World) : nat :=
  (List.length (errorLog w') - List.length (errorLog w))%nat.

Definition noFault (fault : option Error) : bool :=
  match fault with None => true | Some _ => false end.

(* ------------------------------------------------------------------ *)
(** ** More of the string methods *)

(** [String(n)] for an integer *)
Definition numberText (n : Z) : string :=
  if n <? 0 then "-" ++ decimal (- n) else decimal n.

(** Lower and upper case of the letters among the code units below 256.
    The capitals of the micro sign and of y with diaeresis lie beyond 255,
    and the capital of sharp s is two letters: these three are left as
    they are. *)
Definition lower (c : ascii) : ascii :=
  let n := code c in
  if ((65 <=? n) && (n <=? 90)) || ((192 <=? n) && (n <=? 222) && negb (n =? 215))
  then chr (n + 32) else c.

Definition upper (c : ascii) : ascii :=
  let n := code c in
  if ((97 <=? n) && (n <=? 122)) || ((224 <=? n) && (n <=? 254) && negb (n =? 247))
  then chr (n - 32) else c.

Definition toLowerCase (s : string) : string := str (map lower (chars s)).

Definition toUpperCase (s : string) : string := str (map upper (chars s)).

Fixpoint startsWith (p s : list ascii) : bool :=
  match p, s with
  | [], _ => true
  | _ :: _, [] => false
  | a :: p', b :: s' => Ascii.eqb a b && startsWith p' s'
  end.

Fixpoint containsAt (p s : list ascii) : bool :=
  startsWith p s
  || match s with
     | [] => false
     | _ :: rest => containsAt p rest
     end.

(** [s.includes(sub)] *)
Definition stringIncludes (s sub : string) : bool := containsAt (chars sub) (chars s).

(** [s.split(sep)] for a separator of one character; [current] is the
    piece being read, last character first. *)
Fixpoint splitOn (sep : ascii) (s current : list ascii) : list string :=
  match s with
  | [] => [str (rev current)]
  | c :: rest =>
      if Ascii.eqb c sep then str (rev current) :: splitOn sep rest []
      else splitOn sep rest (c :: current)
  end.

Definition split (s : string) (sep : ascii) : list string := splitOn sep (chars s) [].

(** [s.substring(0, n)] *)
Definition substring0 (n : nat) (s : string) : string := str (firstn n (chars s)).

(** [s.trim()] *)
Definition stringTrim (s : string) : string := str (trim (chars s)).

(** A string in a condition: true unless empty. *)
Definition nonEmpty (s : string) : bool := negb (s =? "")%string.

(* ------------------------------------------------------------------ *)
(** ** packages/shared/src/constants.ts *)

Module SCRAPER_CONFIG.

Definition TIMEOUT_MS : Z := 30000.

Definition RETRY_ATTEMPTS : nat := 3.

Definition RETRY_DELAY_MS : Z := 5000.

End SCRAPER_CONFIG.

Definition SUPPORTED_STATES : list string := ["Maharashtra"; "Karnataka"; "Delhi"].

(* ------------------------------------------------------------------ *)
(** ** utils/httpClient.ts *)

(** [new ScraperError(code, message, sourceUrl)] *)
Definition ScraperError (code message sourceUrl : string) : Error :=
  {| errorName := "ScraperError"; message := message; errorCode := Some code |}.

Module HttpClient.

Section Client.

Variable env : Env.

(** [axios.get(url, ...)]: one request, a host call. *)
Definition get (url : string) : M World Response :=
  fun w => (axiosGet env (steps w) url, trace (Request url) (tick w)).

(** [await new Promise((resolve) => setTimeout(resolve, delay))] *)
Definition pause (delay : Z) : M World unit :=
  fun w => (Returned tt, trace (Pause delay) w).

(** The body of the [try] of one attempt. *)
Definition attemptOnce (url : string) : M World string :=
  response <- get url ;;
  if responseStatus response =? 200 then ret (data response)
  else throw (ScraperError "HTTP_ERROR"
                           ("HTTP " ++ numberText (responseStatus response)
                                    ++ ": " ++ statusText response)
                           url).

(** The loop from [attempt] on, with [remaining] attempts to go. *)
Fixpoint attempts (remaining attempt : nat) (url : string) (lastError : option Error)
  : M World string :=
  match remaining with
  | O =>
      throw (ScraperError "FETCH_FAILED"
                          ("Failed to fetch after "
                             ++ numberText (Z.of_nat SCRAPER_CONFIG.RETRY_ATTEMPTS)
                             ++ " attempts: "
                             ++ templateString (option_map message lastError))
                          url)
  | S rest =>
      tryCatch
        (attemptOnce url)
        (fun error =>
           (if (attempt <? SCRAPER_CONFIG.RETRY_ATTEMPTS - 1)%nat
            then pause (SCRAPER_CONFIG.RETRY_DELAY_MS * (Z.of_nat attempt + 1))
            else ret tt) ;;
           attempts rest (S attempt) url (Some error))
  end.

Definition fetch (url : string) : M World string :=
  attempts SCRAPER_CONFIG.RETRY_ATTEMPTS 0 url None.

End Client.

End HttpClient.

(* ------------------------------------------------------------------ *)
(** ** scrapers/stateSrapers.ts and scrapers/delhiZIPNET.ts

    cheerio selects the rows of a page; [selectRows] hands over, for each
    row, the text of its cells in the order the scraper reads them. *)

Definition cell (row : Row) (i : nat) : string := nth i (cells row) "".

Definition point (longitude latitude : Q) : GeoLocation :=
  {| coordinates := (Finite longitude, Finite latitude) |}.

(** [records.push(record)] when the row gave one *)
Definition pushRecord (records : list MissingPerson) (record : option MissingPerson)
  : list MissingPerson :=
  match record with
  | Some r => records ++ [r]
  | None => records
  end.

(** [genderStr.includes('male')] is tried first, and holds of
    ['female'] too. *)
Definition genderOf (genderStr : string) : Gender :=
  if stringIncludes genderStr "male" then male
  else if stringIncludes genderStr "female" then female
  else other.

Module MaharashtraScraper.

Definition SOURCE_STATE : string := "Maharashtra".

Definition SOURCE_URL : string :=
  "https://avm.maharashtra.gov.in/PublicUtility/MissingPerson.aspx".

Section Scraper.

Variable env : Env.

(** The callback of [each]: the record of a row, or nothing when the row
    is skipped. *)
Definition processRow (row : Row) : option MissingPerson :=
  let name := normalizeText (cell row 0) in
  let ageStr := cell row 1 in
  let genderStr := toLowerCase (normalizeText (cell row 2)) in
  let lastSeenStr := cell row 3 in
  let location := normalizeText (cell row 4) in
  let statusStr := toLowerCase (normalizeText (cell row 5)) in
  if negb (nonEmpty name) || negb (nonEmpty location) then None
  else
    match parseInt ageStr (Some 10) with
    | None => None
    | Some age =>
        if (age <? 0) || (150 <? age) then None
        else
          match parseIndianDate (runtime env) lastSeenStr with
          | None => None
          | Some lastSeenDate =>
              let gender := genderOf genderStr in
              let status := if stringIncludes statusStr "found" then found else missing in
              Some {| name := Some name;
                      age := Some (num age);
                      gender := Some gender;
                      lastSeenDate := Some lastSeenDate;
                      lastKnownLocation := Some location;
                      geolocation := Some (point (757139 # 10000) (197515 # 10000));
                      status := Some status;
                      description := None;
                      photoUrl := None;
                      contactName := None;
                      contactPhone := None;
                      sourceURL := Some SOURCE_URL;
                      sourceState := Some SOURCE_STATE;
                      dataHash :=
                        Some (generateDataHash (runtime env)
                                {| name := Some name; age := None; gender := None;
                                   lastSeenDate := Some lastSeenDate;
                                   lastKnownLocation := None; geolocation := None;
                                   status := None; description := None;
                                   photoUrl := None; contactName := None;
                                   contactPhone := None;
                                   sourceURL := Some SOURCE_URL;
                                   sourceState := None; dataHash := None |}) |}
          end
    end.

Definition scrape : M World (list MissingPerson) :=
  tryCatch
    (html <- HttpClient.fetch env SOURCE_URL ;;
     ret (fold_left (fun records row => pushRecord records (processRow row))
                    (selectRows env SOURCE_STATE html) []))
    (fun error => throw error).

End Scraper.

End MaharashtraScraper.

Module KarnatakaScraper.

Definition SOURCE_STATE : string := "Karnataka".

Definition SOURCE_URL : string := "https://www.sugamkbc.gov.in".

Section Scraper.

Variable env : Env.

(** The cells are the texts of [data-name], [data-age], [data-gender],
    [data-last-seen] and [data-location]. *)
Definition processRow (row : Row) : option MissingPerson :=
  let name := normalizeText (cell row 0) in
  let age := parseInt (cell row 1) (Some 10) in
  let genderStr := toLowerCase (normalizeText (cell row 2)) in
  let lastSeenStr := cell row 3 in
  let location := normalizeText (cell row 4) in
  match age with
  | None => None
  | Some age =>
      if negb (nonEmpty name) || negb (nonEmpty location) then None
      else
        match parseIndianDate (runtime env) lastSeenStr with
        | None => None
        | Some lastSeenDate =>
            let gender := genderOf genderStr in
            Some {| name := Some name;
                    age := Some (num age);
                    gender := Some gender;
                    lastSeenDate := Some lastSeenDate;
                    lastKnownLocation := Some location;
                    geolocation := Some (point (757139 # 10000) (153173 # 10000));
                    status := Some missing;
                    description := None;
                    photoUrl := None;
                    contactName := None;
                    contactPhone := None;
                    sourceURL := Some SOURCE_URL;
                    sourceState := Some SOURCE_STATE;
                    dataHash :=
                      Some (generateDataHash (runtime env)
                              {| name := Some name; age := None; gender := None;
                                 lastSeenDate := Some lastSeenDate;
                                 lastKnownLocation := None; geolocation := None;
                                 status := None; description := None;
                                 photoUrl := None; contactName := None;
                                 contactPhone := None;
                                 sourceURL := Some SOURCE_URL;
                                 sourceState := None; dataHash := None |}) |}
        end
  end.

Definition scrape : M World (list MissingPerson) :=
  tryCatch
    (html <- HttpClient.fetch env SOURCE_URL ;;
     ret (fold_left (fun records row => pushRecord records (processRow row))
                    (selectRows env SOURCE_STATE html) []))
    (fun error => throw error).

End Scraper.

End KarnatakaScraper.

Module DelhiZIPNETScraper.

Definition SOURCE_URL : string :=
  "https://zipnet.delhipolice.gov.in/victims/missingpersons/".

(** The table of state centres of [getStateCoordinates]. *)
Definition stateCoords : list (string * (Q * Q)) :=
  [ ("DELHI", (287041 # 10000, 771025 # 10000));
    ("HARYANA", (290588 # 10000, 770745 # 10000));
    ("RAJASTHAN", (270238 # 10000, 742179 # 10000));
    ("UTTRAKHAND", (300668 # 10000, 790193 # 10000));
    ("UTTARAKHAND", (300668 # 10000, 790193 # 10000));
    ("PUNJAB", (311471 # 10000, 753412 # 10000));
    ("HIMACHAL_PRADESH", (317433 # 10000, 771205 # 10000));
    ("CHANDIGARH", (307333 # 10000, 767794 # 10000));
    ("JAMMU_AND_KASHMIR", (340837 # 10000, 747973 # 10000)) ].

Fixpoint lookupState (key : string) (table : list (string * (Q * Q))) : option (Q * Q) :=
  match table with
  | [] => None
  | (k, v) :: rest => if (k =? key)%string then Some v else lookupState key rest
  end.

(** [getStateCoordinates]; the district is not used. *)
Definition getStateCoordinates (state : string) (district : option string) : Q * Q :=
  let stateUpper := stringTrim (toUpperCase state) in
  match lookupState stateUpper stateCoords with
  | Some c => c
  | None => (287041 # 10000, 771025 # 10000)
  end.

(** [/(\d+)/] *)
Definition digitsPattern : Regex := [ piece Digit 1 None true ].

(** What the image text gives: name, age and gender, starting from the
    values found so far. *)
Definition readImageAlt (imageAlt : string) (name : string) (age : Z) (gender : Gender)
  : string * Z * Gender :=
  if nonEmpty imageAlt then
    let parts := map normalizeText (split imageAlt "|"%char) in
    let name := if nonEmpty (nth 0 parts "") then nth 0 parts "" else name in
    if (1 <? List.length parts)%nat then
      let part := nth 1 parts "" in
      let age :=
        match search digitsPattern (chars part) with
        | Some caps =>
            match parseInt (nth 0 caps "") (Some 10) with
            | Some n => n
            | None => age
            end
        | None => age
        end in
      let genderStr := toLowerCase part in
      let gender :=
        if stringIncludes genderStr "m" && negb (stringIncludes genderStr "f") then male
        else if stringIncludes genderStr "f" then female
        else gender in
      (name, age, gender)
    else (name, age, gender)
  else (name, age, gender).

Section Scraper.

Variable env : Env.

(** [Math.floor(Math.random() * 50 + 15)] *)
Definition randomAge : M World Z :=
  fun w => (Returned (Qfloor (random env (steps w) * 50 + 15)), tick w).

(** The callback of [each]. *)
Definition processRow (row : Row) : M World (option MissingPerson) :=
  if (List.length (cells row) <? 7)%nat then ret None
  else
    let stateStr := normalizeText (cell row 0) in
    let district := normalizeText (cell row 1) in
    let policeStation := normalizeText (cell row 2) in
    let firNumber := normalizeText (cell row 3) in
    let dateStr := normalizeText (cell row 4) in
    let serialNumber := normalizeText (cell row 5) in
    let location := normalizeText (cell row 6) in
    let statusStr := toLowerCase (normalizeText (cell row 7)) in
    let imageAlt := match imageAlt row with Some alt => alt | None => "" end in
    let name :=
      if nonEmpty serialNumber && negb (serialNumber =? "-")%string
      then substring0 50 serialNumber else "Unknown" in
    let '(name, age, gender) := readImageAlt imageAlt name 0 other in
    if negb (nonEmpty name) || (name =? "Unknown")%string || negb (nonEmpty location)
    then ret None
    else
      match parseIndianDate (runtime env) dateStr with
      | None => ret None
      | Some lastSeenDate =>
          age <- (if (age =? 0) || (age <? 0) || (150 <? age) then randomAge else ret age) ;;
          let status :=
            if stringIncludes statusStr "found" || stringIncludes statusStr "traced"
            then found else missing in
          let sourceState := if nonEmpty stateStr then stateStr else "Delhi" in
          let coordinates := getStateCoordinates sourceState (Some district) in
          ret (Some
                 {| name := Some (substring0 255 name);
                    age := Some (num age);
                    gender := Some gender;
                    lastSeenDate := Some lastSeenDate;
                    lastKnownLocation :=
                      Some (location ++ ", " ++ district ++ ", " ++ sourceState)%string;
                    geolocation := Some (point (fst coordinates) (snd coordinates));
                    status := Some status;
                    description :=
                      Some ("FIR: " ++ firNumber ++ " | Police Station: " ++ policeStation)%string;
                    photoUrl := None;
                    contactName := None;
                    contactPhone := None;
                    sourceURL := Some SOURCE_URL;
                    sourceState := Some sourceState;
                    dataHash :=
                      Some (generateDataHash (runtime env)
                              {| name := Some (substring0 255 name); age := None;
                                 gender := None;
                                 lastSeenDate := Some lastSeenDate;
                                 lastKnownLocation := None; geolocation := None;
                                 status := None; description := None;
                                 photoUrl := None; contactName := None;
                                 contactPhone := None;
                                 sourceURL := Some SOURCE_URL;
                                 sourceState := None; dataHash := None |}) |})
      end.

(** The rows one after the other; [records] is the array being filled. *)
Fixpoint processRows (rows : list Row) (records : list MissingPerson)
  : M World (list MissingPerson) :=
  match rows with
  | [] => ret records
  | row :: rest =>
      record <- processRow row ;;
      processRows rest (pushRecord records record)
  end.

Definition scrape : M World (list MissingPerson) :=
  tryCatch
    (html <- HttpClient.fetch env SOURCE_URL ;;
     processRows (selectRows env "Delhi" html) [])
    (fun error => throw error).

End Scraper.

End DelhiZIPNETScraper.

(* ------------------------------------------------------------------ *)
(** ** The worker (index.ts)

    [runETLPipeline] holds the same block three times, once for each
    source; [runSource] is that block, and the result of the source is its
    local variable. *)

Module OverwatchWorker.

Record SourceResult := {
  scraped : nat;
  valid : nat;
  invalid : nat;
  inserted : nat;
  duplicates : nat;
  error : option string
}.

Definition initialResult : SourceResult :=
  {| scraped := 0; valid := 0; invalid := 0; inserted := 0; duplicates := 0;
     error := None |}.

Definition setScraped (n : nat) (r : SourceResult) : SourceResult :=
  {| scraped := n; valid := valid r; invalid := invalid r;
     inserted := inserted r; duplicates := duplicates r; error := error r |}.

Definition setValid (n : nat) (r : SourceResult) : SourceResult :=
  {| scraped := scraped r; valid := n; invalid := invalid r;
     inserted := inserted r; duplicates := duplicates r; error := error r |}.

Definition setInvalid (n : nat) (r : SourceResult) : SourceResult :=
  {| scraped := scraped r; valid := valid r; invalid := n;
     inserted := inserted r; duplicates := duplicates r; error := error r |}.

Definition setInserted (n : nat) (r : SourceResult) : SourceResult :=
  {| scraped := scraped r; valid := valid r; invalid := invalid r;
     inserted := n; duplicates := duplicates r; error := error r |}.

Definition setDuplicates (n : nat) (r : SourceResult) : SourceResult :=
  {| scraped := scraped r; valid := valid r; invalid := invalid r;
     inserted := inserted r; duplicates := n; error := error r |}.

Definition setError (msg : string) (r : SourceResult) : SourceResult :=
  {| scraped := scraped r; valid := valid r; invalid := invalid r;
     inserted := inserted r; duplicates := duplicates r; error := Some msg |}.

Record Results := {
  Maharashtra : SourceResult;
  Karnataka : SourceResult;
  Delhi : SourceResult
}.

Section Worker.

Variable env : Env.

Definition runSource (state : string) (scrape : M World (list MissingPerson))
  : M (SourceResult * World) unit :=
  tryCatch
    (records <- onWorld scrape ;;
     assign (setScraped (List.length records)) ;;
     let out := DataTransformer.transform records in
     assign (setValid (List.length (DataTransformer.valid out))) ;;
     assign (setInvalid (List.length (DataTransformer.invalid out))) ;;
     (if (0 <? List.length (DataTransformer.invalid out))%nat
      then onWorld (ErrorLogger.logValidationErrors env state (DataTransformer.invalid out))
      else ret tt) ;;
     dbResult <- onWorld (DatabaseService.insertRecords env (DataTransformer.valid out) state) ;;
     assign (setInserted (DatabaseService.inserted dbResult)) ;;
     assign (setDuplicates (DatabaseService.duplicates dbResult)))
    (fun error =>
       assign (setError (message error)) ;;
       onWorld (ErrorLogger.logError env state error [])).

(** A block of the pipeline, from a fresh result. *)
Definition sourcePipeline (state : string) (scrape : M World (list MissingPerson))
  : M World SourceResult :=
  fun w =>
    match runSource state scrape (initialResult, w) with
    | (Returned _, (result, w')) => (Returned result, w')
    | (Thrown e, (_, w')) => (Thrown e, w')
    end.

(** [runETLPipeline]; it ends by printing the results and the statistics,
    which are returned here. *)
Definition runETLPipeline : M World (Results * DatabaseService.Statistics) :=
  maharashtra <- sourcePipeline "Maharashtra" (MaharashtraScraper.scrape env) ;;
  karnataka <- sourcePipeline "Karnataka" (KarnatakaScraper.scrape env) ;;
  delhi <- sourcePipeline "Delhi" (DelhiZIPNETScraper.scrape env) ;;
  stats <- DatabaseService.getStatistics env ;;
  ret ({| Maharashtra := maharashtra; Karnataka := karnataka; Delhi := delhi |}, stats).


End Worker.

End OverwatchWorker.

(* ------------------------------------------------------------------ *)
(** ** The analytics routes (routes/analytics.ts)

    Each route is a function of the collection and of the time of the
    request.  The stages of the aggregations compute in exact rationals,
    which the arithmetic of the store approximates; what the statistics
    route computes and prints in JavaScript is in binary64. *)

Module Analytics.

Definition dayMs : Z := 24 * 60 * 60 * 1000.

(** [lastSeenDate: { $gte: since }] *)
Definition seenSince (since : Z) (d : Doc) : bool :=
  match lastSeenDate (fields d) with
  | Some (DateAt ms) => since <=? ms
  | _ => false
  end.

Definition seenAt (d : Doc) : option Z :=
  match lastSeenDate (fields d) with
  | Some (DateAt ms) => Some ms
  | _ => None
  end.

(** [$max] of dates *)
Definition maxDate (dates : list (option Z)) : option Z :=
  fold_left (fun acc v =>
               match acc, v with
               | Some a, Some b => Some (Z.max a b)
               | None, _ => v
               | _, None => acc
               end) dates None.

(** [$multiply: [{ $divide: [part, { $add: [m, f, 1] }] }, 100]] *)
Definition rate (part m f : nat) : option Q :=
  option_map (fun q => q * 100)%Q
             (divide (inject_Z (Z.of_nat part)) (inject_Z (Z.of_nat (m + f + 1)))).

Definition riskScore (missingCount foundCount : nat) : option Q :=
  rate missingCount missingCount foundCount.

Definition resolutionRate (missingCount foundCount : nat) : option Q :=
  option_map (fun q => round q 2) (rate foundCount missingCount foundCount).

(** *** GET /api/analytics/hotspots *)

Record Hotspot := {
  state : option string;
  missingCount : nat;
  foundCount : nat;
  averageAge : option number;
  latitude : option number;
  longitude : option number;
  latestDate : option Z;
  hotspotRiskScore : Q;
  genderDistribution : list (option Gender)
}.

(** ['$centerLocation.coordinates']: the coordinates of the documents of
    the group that have some. *)
Definition centerCoordinates (docs : list Doc) : list (number * number) :=
  flat_map (fun d => match geolocation (fields d) with
                     | Some g => [coordinates g]
                     | None => []
                     end) docs.

(** [$avg: { $arrayElemAt: ['$centerLocation.coordinates', i] }]: the mean
    of the two numbers of the pair at index [i]. *)
Definition pairAverage (docs : list Doc) (i : nat) : option number :=
  match nth_error (centerCoordinates docs) i with
  | Some c => avg [Some (fst c); Some (snd c)]
  | None => None
  end.

(** Stages 2 and 3 for one group; nothing when [$divide] fails. *)
Definition hotspotOf (group : option string * list Doc) : option Hotspot :=
  let docs := snd group in
  let missingCount := List.length docs in
  let foundCount := countStatus found docs in
  match riskScore missingCount foundCount with
  | None => None
  | Some risk =>
      Some {| state := fst group;
              missingCount := missingCount;
              foundCount := foundCount;
              averageAge := roundNumber (avg (map (fun d => age (fields d)) docs)) 1;
              latitude := pairAverage docs 1;
              longitude := pairAverage docs 0;
              latestDate := maxDate (map seenAt docs);
              hotspotRiskScore := risk;
              genderDistribution := map (fun d => gender (fields d)) docs |}
  end.

(** All or nothing: an aggregation fails as a whole. *)
Fixpoint allOf {A : Type} (items : list (option A)) : option (list A) :=
  match items with
  | [] => Some []
  | None :: _ => None
  | Some a :: rest => option_map (cons a) (allOf rest)
  end.

(** Stage 1 *)
Definition recentMissing (now : Z) (docs : list Doc) : list Doc :=
  filter (fun d => hasStatus missing d && seenSince (now - 90 * dayMs) d) docs.

Definition hotspots (now : Z) (docs : list Doc) : option (list Hotspot) :=
  let groups := groupBy (option_eqb String.eqb) (fun d => sourceState (fields d))
                        (recentMissing now docs) in
  option_map (fun projected =>
                firstn 20 (sortBy (fun x y => (missingCount y <=? missingCount x)%nat)
                                  projected))
             (allOf (map hotspotOf groups)).

(** *** GET /api/analytics/trends *)

Record Trend := {
  year : Z;
  month : Z;
  date : Z;
  trendMissingCount : nat;
  trendFoundCount : nat;
  totalCount : nat;
  avgAge : option number;
  trendResolutionRate : Q
}.

(** [$year] and [$month] of the date, in UTC; the filter has kept only
    documents with a date. *)
Definition yearMonth (d : Doc) : Z * Z :=
  match seenAt d with
  | Some ms => let '(y, m, _) := Calendar.civilFromDays (ms / Calendar.msPerDay) in (y, m)
  | None => (0, 0)
  end.

Definition yearMonth_eqb (a b : Z * Z) : bool :=
  (fst a =? fst b) && (snd a =? snd b).

(** [$dateFromParts] with day 1: an error for a year outside 1..9999. *)
Definition dateFromParts (y m : Z) : option Z :=
  if (1 <=? y) && (y <=? 9999)
  then Some (Calendar.daysFromCivil y m 1 * Calendar.msPerDay)
  else None.

(** The projection of a group; nothing when [$dateFromParts] or
    [$divide] fails. *)
Definition trendOf (group : Z * Z * list Doc) : option Trend :=
  let docs := snd group in
  let m := countStatus missing docs in
  let f := countStatus found docs in
  match dateFromParts (fst (fst group)) (snd (fst group)), resolutionRate m f with
  | Some firstDay, Some r =>
      Some {| year := fst (fst group);
              month := snd (fst group);
              date := firstDay;
              trendMissingCount := m;
              trendFoundCount := f;
              totalCount := List.length docs;
              avgAge := roundNumber (avg (map (fun d => age (fields d)) docs)) 1;
              trendResolutionRate := r |}
  | _, _ => None
  end.

(** The aggregation answers, or fails as a whole and the route hands the
    error to [next]. *)
Definition trends (now : Z) (docs : list Doc) : option (list Trend) :=
  let groups := groupBy yearMonth_eqb yearMonth
                        (filter (seenSince (now - 365 * dayMs)) docs) in
  let sorted :=
    sortBy (fun x y => (fst (fst x) <? fst (fst y))
                       || ((fst (fst x) =? fst (fst y)) && (snd (fst x) <=? snd (fst y))))
           groups in
  allOf (map trendOf sorted).

(** *** GET /api/analytics/statistics *)

Record Totals := {
  total : nat;
  missingTotal : nat;
  foundTotal : nat;
  totalsResolutionRate : string;
  totalsAverageAge : string
}.

Record StatisticsResponse := {
  totals : Totals;
  byGender : list (option Gender * nat * nat);
  byState : list (option string * nat * nat * nat);
  ageRanges : list (option Z * nat * nat)
}.

(** [(found / (missing + found) * 100).toFixed(2)] *)
Definition resolutionRateText (missingCount foundCount : nat) : string :=
  toFixed (jsMul (jsDiv (count foundCount) (jsAdd (count missingCount) (count foundCount)))
                 (num 100))
          2.

Definition gender_eqb (a b : Gender) : bool :=
  match a, b with
  | male, male | female, female | other, other => true
  | _, _ => false
  end.

Definition boundaries : list Z := [0; 10; 20; 30; 40; 50; 100; 200].

(** The lower bound of the bucket of an age, or nothing for the default
    bucket ['Other']. *)
Fixpoint bucketFrom (bounds : list Z) (a : Q) : option Z :=
  match bounds with
  | lo :: ((hi :: _) as rest) =>
      if Qle_bool (inject_Z lo) a && negb (Qle_bool (inject_Z hi) a) then Some lo
      else bucketFrom rest a
  | _ => None
  end.

Definition bucketOf (d : Doc) : option Z :=
  match age (fields d) with
  | Some (Finite a) => bucketFrom boundaries a
  | _ => None
  end.

Definition option_Z_eqb (a b : option Z) : bool := option_eqb Z.eqb a b.

(** [$bucket]: the buckets that are not empty, by lower bound, the
    default bucket last. *)
Definition buckets (docs : list Doc) : list (option Z * nat * nat) :=
  flat_map (fun b =>
              let inBucket := filter (fun d => option_Z_eqb (bucketOf d) b) docs in
              match inBucket with
              | [] => []
              | _ => [(b, List.length inBucket, countStatus missing inBucket)]
              end)
           (map Some (removelast boundaries) ++ [None]).

Definition typeError (what : string) : Error :=
  {| errorName := "TypeError"; message := what; errorCode := None |}.

(** The route answers, or hands a TypeError to [next] ([Thrown]): over
    an empty collection the [$group] of the totals puts out no document
    and [totals] is undefined; when no document has a number for age,
    [averageAge] is null. *)
Definition statistics (docs : list Doc) : Result StatisticsResponse :=
  match docs with
  | [] => Thrown (typeError "Cannot read properties of undefined (reading 'totalRecords')")
  | _ =>
      let m := countStatus missing docs in
      let f := countStatus found docs in
      match avgDouble (map (fun d => age (fields d)) docs) with
      | None => Thrown (typeError "Cannot read properties of null (reading 'toFixed')")
      | Some averageAge =>
          Returned
            {| totals :=
                 {| total := List.length docs;
                    missingTotal := m;
                    foundTotal := f;
                    totalsResolutionRate := resolutionRateText m f;
                    totalsAverageAge := toFixed averageAge 1 |};
               byGender :=
                 sortBy (fun x y => (snd (fst y) <=? snd (fst x))%nat)
                        (map (fun g => (fst g, List.length (snd g),
                                        countStatus missing (snd g)))
                             (groupBy (option_eqb gender_eqb)
                                      (fun d => gender (fields d)) docs));
               byState :=
                 sortBy (fun x y => (snd (fst (fst y)) <=? snd (fst (fst x)))%nat)
                        (map (fun g => (fst g, List.length (snd g),
                                        countStatus missing (snd g),
                                        countStatus found (snd g)))
                             (groupBy (option_eqb String.eqb)
                                      (fun d => sourceState (fields d)) docs));
               ageRanges := buckets docs |}
      end
  end.

End Analytics.

(* ------------------------------------------------------------------ *)
(** ** Shapes of a text *)

(** The text does not begin with white space. *)
Definition noLeadingSpace (s : list ascii) : Prop :=
  match s with
  | [] => True
  | c :: _ => isSpace c = false
  end.

(** Every white-space character of the text is a single space followed
    by a character that is not white space. *)
Fixpoint singleSpaces (s : list ascii) : Prop :=
  match s with
  | [] => True
  | c :: rest =>
      (isSpace c = true ->
       c = " "%char /\ match rest with [] => False | d :: _ => isSpace d = false end)
      /\ singleSpaces rest
  end.

(* ------------------------------------------------------------------ *)
(** ** The response cache of the server (middleware/cache.ts)

    The cache is a [Map] from the address of a request to the data
    answered and the time the entry expires.  The state of the server is
    the cache and the number of times the clock was read; [now] gives
    what [Date.now()] answers at each reading.  The rest of the chain,
    [next], either answers through [res.json] once, with the status it
    has set, or does not answer through [res.json]. *)

Module CacheMiddleware.

Record CacheEntry := {
  data : JsValue;
  expiresAt : Z
}.

Definition Cache : Type := list (string * CacheEntry).

(** [cache.get(key)] *)
Fixpoint get (key : string) (cache : Cache) : option CacheEntry :=
  match cache with
  | [] => None
  | (k, entry) :: rest => if (k =? key)%string then Some entry else get key rest
  end.

(** [cache.set(key, entry)]: an entry of the key is replaced where it
    stands, a new key goes to the end. *)
Fixpoint set (key : string) (entry : CacheEntry) (cache : Cache) : Cache :=
  match cache with
  | [] => [(key, entry)]
  | (k, old) :: rest =>
      if (k =? key)%string then (k, entry) :: rest
      else (k, old) :: set key entry rest
  end.

(** [cache.delete(key)] *)
Fixpoint delete (key : string) (cache : Cache) : Cache :=
  match cache with
  | [] => []
  | (k, entry) :: rest =>
      if (k =? key)%string then delete key rest else (k, entry) :: delete key rest
  end.

Record Server := {
  cache : Cache;
  clockReads : nat
}.

Record Request := {
  method : string;
  baseUrl : string;
  url : string
}.

(** What [res.json] sends: the status of the response and the data. *)
Record Reply := {
  statusCode : Z;
  body : JsValue
}.

Definition onCache (f : Cache -> Cache) : M Server unit :=
  fun s => (Returned tt, {| cache := f (cache s); clockReads := clockReads s |}).

Section Middleware.

Variable now : nat -> Z.

(** [Date.now()] *)
Definition dateNow : M Server Z :=
  fun s => (Returned (now (clockReads s)),
            {| cache := cache s; clockReads := S (clockReads s) |}).

(** The [res.json] the middleware puts in place of the original one. *)
Definition json (key : string) (durationSeconds : Z) (reply : Reply) : M Server (option Reply) :=
  t <- dateNow ;;
  onCache (set key {| data := body reply; expiresAt := t + durationSeconds * 1000 |}) ;;
  ret (Some reply).

(** [next()] with [res.json] replaced. *)
Definition intercepted (key : string) (durationSeconds : Z) (next : M Server (option Reply))
  : M Server (option Reply) :=
  reply <- next ;;
  match reply with
  | Some r => json key durationSeconds r
  | None => ret None
  end.

(** [cacheMiddleware(durationSeconds)(req, res, next)]; the response is
    fresh, so that an answer from the cache has status 200. *)
Definition cacheMiddleware (durationSeconds : Z) (req : Request)
           (next : M Server (option Reply)) : M Server (option Reply) :=
  if negb (method req =? "GET")%string then next
  else
    let key := (baseUrl req ++ url req)%string in
    fun s =>
      match get key (cache s) with
      | None => intercepted key durationSeconds next s
      | Some cached =>
          (t1 <- dateNow ;;
           if t1 <? expiresAt cached
           then ret (Some {| statusCode := 200; body := data cached |})
           else
             t2 <- dateNow ;;
             (if expiresAt cached <=? t2 then onCache (delete key) else ret tt) ;;
             intercepted key durationSeconds next) s
      end.

(** [clearCache] and [clearCacheEntry] *)
Definition clearCache : M Server unit := onCache (fun _ => []).

Definition clearCacheEntry (key : string) : M Server unit := onCache (delete key).

End Middleware.

End CacheMiddleware.

(* ------------------------------------------------------------------ *)
(** ** What the upsert owes *)

(** What one turn of the loop of [insertRecords] owes to its record: [c]
    and [w] are the counters and the world before the turn, [c'] and [w']
    after it.  The record is looked up by its hash.  When none is stored
    and the record passes the schema and the store accepts it, it is
    inserted whole and counted as inserted.  When one is stored, the
    record is counted as duplicate; with another status, only the status
    and the time of update of the stored record change; with the same
    status nothing is written.  A failure of the lookup, of the insertion
    or of the update is logged and leaves the collection as it was. *)
Definition upserted (env : Env) (record : MissingPerson)
           (c : DatabaseService.Counts) (w : World)
           (c' : DatabaseService.Counts) (w' : World) : Prop :=
  match storageFault env (steps w), find (sameHash (dataHash record)) (db w) with
  | Some _, _ => c' = c /\ failuresLogged w w' = 1%nat /\ db w' = db w
  | None, None =>
      if schemaAccepts record && geoKeysAccept record
         && noFault (storageFault env (S (steps w)))
      then
        c' = DatabaseService.countInserted c
        /\ failuresLogged w w' = 0%nat
        /\ exists doc,
            db w' = db w ++ [doc]
            /\ fields doc = withDefaults record
            /\ createdAt doc = clock env (S (steps w))
            /\ updatedAt doc = createdAt doc
      else c' = c /\ failuresLogged w w' = 1%nat /\ db w' = db w
  | None, Some existing =>
      c' = DatabaseService.countDuplicate c
      /\ if DatabaseService.statusDiffers (status record) (status (fields existing))
         then
           if noFault (storageFault env (S (steps w)))
           then
             failuresLogged w w' = 0%nat
             /\ exists before after refreshed,
                 db w = before ++ existing :: after
                 /\ db w' = before ++ refreshed :: after
                 /\ withoutStatus refreshed = withoutStatus existing
                 /\ status (fields refreshed)
                    = match status record with
                      | Some s => Some s
                      | None => status (fields existing)
                      end
                 /\ updatedAt refreshed = clock env (S (steps w))
           else failuresLogged w w' = 1%nat /\ db w' = db w
         else failuresLogged w w' = 0%nat /\ db w' = db w
  end.

(** The turn of a record that is stored with another status and whose
    update the store rejects: the record has been counted as duplicate,
    and is logged as failure. *)
Definition updateFails (env : Env) (record : MissingPerson) (w : World) : bool :=
  noFault (storageFault env (steps w))
  && match find (sameHash (dataHash record)) (db w) with
     | Some existing =>
         DatabaseService.statusDiffers (status record) (status (fields existing))
         && negb (noFault (storageFault env (S (steps w))))
     | None => false
     end.

(** The number of such turns in the run of a batch from the state [s]. *)
Fixpoint failedUpdates (env : Env) (state : string) (records : list MissingPerson)
         (s : DatabaseService.Counts * World) : nat :=
  match records with
  | [] => 0%nat
  | record :: rest =>
      ((if updateFails env record (snd s) then 1 else 0)
       + failedUpdates env state rest
                       (snd (DatabaseService.insertRecord env state record s)))%nat
  end.


(* ------------------------------------------------------------------ *)
(** ** Sample data *)

(** The offsets of the zone Asia/Kolkata as the tz database has them:
    each entry is the local time at which an offset ended, and that
    offset; since 15 October 1945 the zone is five and a half hours ahead
    of UTC. *)
Definition kolkataOffsets : list (Z * Z) :=
  [ (Calendar.daysFromCivil 1854 6 28 * Calendar.msPerDay, 21208000);
    (Calendar.daysFromCivil 1870 1 1 * Calendar.msPerDay, 21200000);
    (Calendar.daysFromCivil 1906 1 1 * Calendar.msPerDay, 19270000);
    (Calendar.daysFromCivil 1941 10 1 * Calendar.msPerDay, 19800000);
    (Calendar.daysFromCivil 1942 5 15 * Calendar.msPerDay, 23400000);
    (Calendar.daysFromCivil 1942 9 1 * Calendar.msPerDay, 19800000);
    (Calendar.daysFromCivil 1945 10 15 * Calendar.msPerDay, 23400000) ].

Fixpoint offsetIn (table : list (Z * Z)) (last : Z) (t : Z) (isUTC : bool) : Z :=
  match table with
  | [] => last
  | (until, offset) :: rest =>
      if (if isUTC then t + offset else t) <? until then offset
      else offsetIn rest last t isUTC
  end.

Definition kolkataOffset : Z -> bool -> Z := offsetIn kolkataOffsets 19800000.

(** A parser that reads the form "Month D, YYYY", the month named by a
    word that begins with the three letters of its name, as local
    midnight of that day, and nothing else. *)
Fixpoint spanOf (p : ascii -> bool) (s : list ascii) : list ascii * list ascii :=
  match s with
  | c :: rest =>
      if p c then let '(taken, remaining) := spanOf p rest in (c :: taken, remaining)
      else ([], s)
  | [] => ([], [])
  end.

Fixpoint monthNumber (word : list ascii) (names : list string) (n : Z) : option Z :=
  match names with
  | [] => None
  | m :: rest =>
      if (str (map (fun c => chr (Z.lor (code c) 32)) (firstn 3 word))
          =? str (map (fun c => chr (Z.lor (code c) 32)) (chars m)))%string
      then Some n
      else monthNumber word rest (n + 1)
  end.

Definition readMonthDayYear (offset : Z -> bool -> Z) (s : string) : option Z :=
  let '(word, afterWord) := spanOf isLetter (chars s) in
  match monthNumber word Calendar.monthNames 1, afterWord with
  | Some m, " "%char :: afterSpace =>
      let '(day, afterDay) := spanOf isDigit afterSpace in
      match afterDay with
      | ","%char :: " "%char :: afterComma =>
          let '(year, afterYear) := spanOf isDigit afterComma in
          match parseInt (str day) (Some 10), parseInt (str year) (Some 10), afterYear with
          | Some d, Some y, [] =>
              let local := Calendar.makeDay y (m - 1) d * Calendar.msPerDay in
              Some (local - offset local false)
          | _, _, _ => None
          end
      | _ => None
      end
  | _, _ => None
  end.

(** A host in the zone Asia/Kolkata. *)
Definition ist : Runtime :=
  {| localTZA := kolkataOffset;
     tzName := fun _ => "India Standard Time";
     parseDateString := readMonthDayYear kolkataOffset |}.


(** A host in UTC. *)
Definition utc : Runtime :=
  {| localTZA := fun _ _ => 0;
     tzName := fun _ => "Coordinated Universal Time";
     parseDateString := readMonthDayYear (fun _ _ => 0) |}.

Definition networkDown : Error :=
  {| errorName := "AxiosError"; message := "connect ECONNREFUSED";
     errorCode := Some "ECONNREFUSED" |}.

Definition storeDown : Error :=
  {| errorName := "MongoNetworkError"; message := "connection closed";
     errorCode := None |}.

(** A host whose store never fails and whose network is down. *)
Definition quietHost : Env :=
  {| runtime := ist;
     clock := fun n => 1771200000000 + 1000 * Z.of_nat n;
     storageFault := fun _ => None;
     axiosGet := fun _ _ => Thrown networkDown;
     selectRows := fun _ _ => [];
     random := fun _ => 0%Q |}.

(** The same host, whose store rejects the second host call. *)
Definition faultyHost : Env :=
  {| runtime := ist;
     clock := fun n => 1771200000000 + 1000 * Z.of_nat n;
     storageFault := fun n => if (n =? 1)%nat then Some storeDown else None;
     axiosGet := fun _ _ => Thrown networkDown;
     selectRows := fun _ _ => [];
     random := fun _ => 0%Q |}.

Definition emptyWorld : World :=
  {| db := []; steps := 0; errorLog := []; validationLog := []; network := [] |}.

(** The candidate of the specification's scenario, before its hash is
    computed. *)
Definition ashaRaoCandidate : MissingPerson :=
  {| name := Some "Asha Rao";
     age := Some (num 29);
     gender := Some female;
     lastSeenDate := parseIndianDate ist "15/02/2026";
     lastKnownLocation := Some "Pune";
     geolocation := Some (point (757139 # 10000) (197515 # 10000));
     status := Some missing;
     description := None;
     photoUrl := None;
     contactName := None;
     contactPhone := None;
     sourceURL := Some "https://x.gov.in";
     sourceState := Some "Maharashtra";
     dataHash := None |}.

Definition ashaRao : MissingPerson :=
  setDataHash (Some (generateDataHash ist ashaRaoCandidate)) ashaRaoCandidate.

(** The same person reported found. *)
Definition ashaRaoFound : MissingPerson := setStatus (Some found) ashaRao.

(** The same name, date and source with other details. *)
Definition ashaRaoOtherDetails : MissingPerson :=
  {| name := name ashaRao;
     age := Some (num 31);
     gender := Some other;
     lastSeenDate := lastSeenDate ashaRao;
     lastKnownLocation := Some "Nagpur";
     geolocation := Some (point (790882 # 10000) (211458 # 10000));
     status := Some missing;
     description := Some "seen near the station";
     photoUrl := None;
     contactName := Some "R. Rao";
     contactPhone := None;
     sourceURL := sourceURL ashaRao;
     sourceState := Some "Maharashtra";
     dataHash := Some (generateDataHash ist
                         {| name := name ashaRao; age := None; gender := None;
                            lastSeenDate := lastSeenDate ashaRao;
                            lastKnownLocation := None; geolocation := None;
                            status := None; description := None; photoUrl := None;
                            contactName := None; contactPhone := None;
                            sourceURL := sourceURL ashaRao;
                            sourceState := None; dataHash := None |}) |}.




(** A stored document of a record. *)
Definition stored (id : nat) (record : MissingPerson) (at_ : Z) : Doc :=
  {| _id := id; fields := record; createdAt := at_; updatedAt := at_ |}.

(** Ten records still missing and two found. *)
Definition sampleCorpus : list Doc :=
  map (fun i => stored i ashaRao 1771200000000) (seq 1 10)
  ++ map (fun i => stored i ashaRaoFound 1771200000000) (seq 11 2).

(** A collection that holds the sample record, still missing. *)
Definition worldWithAshaRao : World :=
  {| db := [stored 1 ashaRao 1771200000000]; steps := 0; errorLog := [];
     validationLog := []; network := [] |}.

(** The sample record ingested once into an empty collection. *)
Definition firstCounts : DatabaseService.Counts :=
  match fst (DatabaseService.insertRecords quietHost [ashaRao] "Maharashtra" emptyWorld) with
  | Returned c => c
  | Thrown _ => {| DatabaseService.inserted := 0; DatabaseService.duplicates := 0 |}
  end.

Definition afterFirstRun : World :=
  snd (DatabaseService.insertRecords quietHost [ashaRao] "Maharashtra" emptyWorld).

(** A row of the Delhi table, with the text of its image. *)
Definition sampleDelhiRow : Row :=
  {| cells := ["DELHI"; "SOUTH DISTRICT"; "KALINDI KUNJ"; "MP-202602000536";
               "15/02/2026"; "-"; "D-Block, JJ Colony, Madanpur Khadar"; "Untraced";
               "15/02/2026"];
     imageAlt := Some "Ravi Kumar | 34 M" |}.

(** A row of the Maharashtra table, and the texts of a Karnataka entry
    whose age is out of range. *)
Definition sampleMaharashtraRow : Row :=
  {| cells := ["Asha  Rao"; "29"; "Female"; "15/02/2026"; "Pune"; "Missing"];
     imageAlt := None |}.

Definition sampleKarnatakaRow : Row :=
  {| cells := ["Kiran Gowda"; "200"; "Male"; "15/02/2026"; "Mysuru"];
     imageAlt := None |}.

(** A clock that advances by a second at each reading, a request for the
    statistics, a handler that answers "not found", and one that must not
    run. *)
Definition secondsClock (n : nat) : Z := 1771200000000 + 1000 * Z.of_nat n.

Definition statisticsRequest : CacheMiddleware.Request :=
  {| CacheMiddleware.method := "GET";
     CacheMiddleware.baseUrl := "/api/analytics";
     CacheMiddleware.url := "/statistics" |}.

Definition notFoundReply : CacheMiddleware.Reply :=
  {| CacheMiddleware.statusCode := 404;
     CacheMiddleware.body :=
       JObject [("success", JBoolean false);
                ("error", JString "Missing person not found")] |}.

Definition answersNotFound : M CacheMiddleware.Server (option CacheMiddleware.Reply) :=
  ret (Some notFoundReply).

Definition silentHandler : M CacheMiddleware.Server (option CacheMiddleware.Reply) :=
  ret None.

Definition coldServer : CacheMiddleware.Server :=
  {| CacheMiddleware.cache := []; CacheMiddleware.clockReads := 0 |}.

Definition staleServer : CacheMiddleware.Server :=
  {| CacheMiddleware.cache :=
       [("/api/analytics/statistics",
         {| CacheMiddleware.data := JNull;
            CacheMiddleware.expiresAt := 1771200000000 |})];
     CacheMiddleware.clockReads := 0 |}.


(* ------------------------------------------------------------------ *)
(** * Properties *)

(** ** SHA-256 test vectors *)

Example sha256_abc :
  sha256hex "abc" = "ba7816bf8f01cfea414140de5dae2223b00361a396177a9cb410ff61f20015ad".
Proof. vm_compute. reflexivity. Qed.

Example sha256_empty :
  sha256hex "" = "e3b0c44298fc1c149afbf4c8996fb92427ae41e4649b934ca495991b7852b855".
Proof. vm_compute. reflexivity. Qed.

Example sha256_two_blocks :
  sha256hex "Asha Rao-Sun Feb 15 2026 00:00:00 GMT+0530 (India Standard Time)-https://x.gov.in"
  = "4c34ef86e543b57f87d595c642720ab23337eba99e304c39be03684f285be9db".
Proof. vm_compute. reflexivity. Qed.

(** ** The fingerprint *)

Example date_15_feb_2026 :
  dateToString ist (newDateYMD ist (Some 2026) (Some 1) (Some 15))
  = "Sun Feb 15 2026 00:00:00 GMT+0530 (India Standard Time)".
Proof. vm_compute. reflexivity. Qed.

Example ashaRao_identifier :
  (templateString (name ashaRao) ++ "-" ++ templateDate ist (lastSeenDate ashaRao)
   ++ "-" ++ templateString (sourceURL ashaRao))%string
  = "Asha Rao-Sun Feb 15 2026 00:00:00 GMT+0530 (India Standard Time)-https://x.gov.in".
Proof. vm_compute. reflexivity. Qed.

(** Records with the same name, date and source URL have the same
    fingerprint. *)
Lemma generateDataHash_agrees (rt : Runtime) (p q : MissingPerson) :
  name p = name q ->
  lastSeenDate p = lastSeenDate q ->
  sourceURL p = sourceURL q ->
  generateDataHash rt p = generateDataHash rt q.
Proof.
  intros Hname Hdate Hurl. unfold generateDataHash.
  rewrite Hname, Hdate, Hurl. reflexivity.
Qed.





(** ** Rates of the analytics routes *)

Lemma inject_nat_nonneg (n : nat) : (0 <= inject_Z (Z.of_nat n))%Q.
Proof. unfold Qle; simpl; lia. Qed.

Lemma divide_by_positive (a : Q) (n : nat) :
  (0 < n)%nat ->
  divide a (inject_Z (Z.of_nat n)) = Some (a / inject_Z (Z.of_nat n))%Q.
Proof.
  intros Hn. unfold divide.
  destruct (Qeq_bool (inject_Z (Z.of_nat n)) 0) eqn:E; [|reflexivity].
  apply Qeq_bool_eq in E. unfold Qeq in E. simpl in E. lia.
Qed.

Lemma rate_value (part m f : nat) :
  Analytics.rate part m f
  = Some (inject_Z (Z.of_nat part) / inject_Z (Z.of_nat (m + f + 1)) * 100)%Q.
Proof.
  unfold Analytics.rate. rewrite divide_by_positive by lia. reflexivity.
Qed.

Lemma rate_bounds (part m f : nat) :
  (part <= m + f)%nat ->
  (0 <= inject_Z (Z.of_nat part) / inject_Z (Z.of_nat (m + f + 1)) * 100
   /\ inject_Z (Z.of_nat part) / inject_Z (Z.of_nat (m + f + 1)) * 100 < 100)%Q.
Proof.
  intros Hle.
  assert (Hpos : (0 < inject_Z (Z.of_nat (m + f + 1)))%Q)
    by (unfold Qlt; simpl; lia).
  split.
  - apply Qmult_le_0_compat; [|unfold Qle; simpl; lia].
    apply Qle_shift_div_l; [exact Hpos|].
    rewrite Qmult_0_l. apply inject_nat_nonneg.
  - setoid_replace 100%Q with (1 * 100)%Q at 2 by reflexivity.
    apply Qmult_lt_compat_r; [reflexivity|].
    apply Qlt_shift_div_r; [exact Hpos|].
    rewrite Qmult_1_l. rewrite <- Zlt_Qlt. lia.
Qed.

Lemma roundHalfEven_cases (x : Q) :
  roundHalfEven x = Qfloor x
  \/ (roundHalfEven x = Qfloor x + 1 /\ (inject_Z (Qfloor x) < x)%Q).
Proof.
  unfold roundHalfEven.
  destruct (Qcompare_spec (x - inject_Z (Qfloor x)) (1 # 2)) as [E|L|G].
  - destruct (Z.even (Qfloor x)); [left; reflexivity|].
    right. split; [reflexivity|].
    apply Qlt_minus_iff. rewrite E. reflexivity.
  - left; reflexivity.
  - right. split; [reflexivity|].
    apply Qlt_minus_iff.
    apply Qlt_trans with (1 # 2)%Q; [reflexivity|exact G].
Qed.

(** Rounding to the nearest integer stays between the integers around
    the value. *)
Lemma roundHalfEven_between (x : Q) (lo hi : Z) :
  (inject_Z lo <= x)%Q -> (x <= inject_Z hi)%Q ->
  lo <= roundHalfEven x <= hi.
Proof.
  intros Hlo Hhi.
  assert (Hf : lo <= Qfloor x).
  { rewrite <- (Qfloor_Z lo). apply Qfloor_resp_le. exact Hlo. }
  destruct (roundHalfEven_cases x) as [-> | [-> Hlt]].
  - split; [exact Hf|].
    rewrite <- (Qfloor_Z hi). apply Qfloor_resp_le. exact Hhi.
  - split; [lia|].
    assert (inject_Z (Qfloor x) < inject_Z hi)%Q
      by (eapply Qlt_le_trans; eassumption).
    rewrite <- Zlt_Qlt in H. lia.
Qed.

Lemma round_between (q : Q) (place : nat) (lo hi : Z) :
  (inject_Z lo <= q)%Q -> (q <= inject_Z hi)%Q ->
  (inject_Z lo <= round q place /\ round q place <= inject_Z hi)%Q.
Proof.
  intros Hlo Hhi. unfold round.
  set (s := 10 ^ Z.of_nat place).
  assert (Hs : 0 < s) by (apply Z.pow_pos_nonneg; lia).
  assert (HsQ : (0 < inject_Z s)%Q) by (unfold Qlt; simpl; lia).
  destruct (roundHalfEven_between (q * inject_Z s) (lo * s) (hi * s)) as [A B].
  - rewrite inject_Z_mult. apply Qmult_le_compat_r; [exact Hlo|].
    apply Qlt_le_weak; exact HsQ.
  - rewrite inject_Z_mult. apply Qmult_le_compat_r; [exact Hhi|].
    apply Qlt_le_weak; exact HsQ.
  - split.
    + apply Qle_shift_div_l; [exact HsQ|].
      rewrite <- inject_Z_mult. rewrite <- Zle_Qle. exact A.
    + apply Qle_shift_div_r; [exact HsQ|].
      rewrite <- inject_Z_mult. rewrite <- Zle_Qle. exact B.
Qed.

(** C7: for all counts of missing and of found records, the risk score of
    a hotspot, missing / (missing + found + 1) * 100, is computed (the
    divisor is never zero) and lies in [0, 100); the resolution rate of a
    trend, found / (missing + found + 1) * 100 rounded to two decimals, is
    computed and lies in [0, 100]. *)
Theorem riskScore_and_resolutionRate_bounds :
  forall m f : nat,
    (exists r, Analytics.riskScore m f = Some r /\ (0 <= r)%Q /\ (r < 100)%Q)
    /\ (exists r, Analytics.resolutionRate m f = Some r /\ (0 <= r)%Q /\ (r <= 100)%Q).
Proof.
  intros m f. split.
  - unfold Analytics.riskScore. rewrite rate_value.
    eexists. split; [reflexivity|].
    apply rate_bounds. lia.
  - unfold Analytics.resolutionRate. rewrite rate_value.
    eexists. split; [reflexivity|]. cbv beta.
    destruct (rate_bounds f m f) as [A B]; [lia|].
    apply (round_between _ 2 0 100); [exact A|].
    apply Qlt_le_weak. exact B.
Qed.

(** ** The validator *)


(** ** Aggregation stages *)

Lemma addToGroup_members {K : Type} (eqb : K -> K -> bool) (k : K) (d x : Doc)
      (groups : list (K * list Doc)) (g : K * list Doc) :
  In g (addToGroup eqb k d groups) -> In x (snd g) ->
  x = d \/ exists g0, In g0 groups /\ In x (snd g0).
Proof.
  induction groups as [|[k' ds] rest IH]; simpl; intros Hg Hx.
  - destruct Hg as [<-|[]]. simpl in Hx. destruct Hx as [->|[]]. left; reflexivity.
  - destruct (eqb k' k).
    + destruct Hg as [<-|Hg].
      * simpl in Hx. apply in_app_or in Hx. destruct Hx as [Hx|[->|[]]].
        -- right. exists (k', ds). split; [left; reflexivity|exact Hx].
        -- left; reflexivity.
      * right. exists g. split; [right; exact Hg|exact Hx].
    + destruct Hg as [<-|Hg].
      * right. exists (k', ds). split; [left; reflexivity|exact Hx].
      * destruct (IH Hg Hx) as [->|[g0 [Hin Hx0]]].
        -- left; reflexivity.
        -- right. exists g0. split; [right; exact Hin|exact Hx0].
Qed.

Lemma groupBy_from_members {K : Type} (eqb : K -> K -> bool) (key : Doc -> K)
      (docs : list Doc) :
  forall (groups : list (K * list Doc)) (g : K * list Doc) (x : Doc),
    In g (fold_left (fun gs d => addToGroup eqb (key d) d gs) docs groups) ->
    In x (snd g) ->
    In x docs \/ exists g0, In g0 groups /\ In x (snd g0).
Proof.
  induction docs as [|d rest IH]; simpl; intros groups g x Hg Hx.
  - right. exists g. split; assumption.
  - destruct (IH _ g x Hg Hx) as [Hin|[g0 [Hg0 Hx0]]].
    + left. right. exact Hin.
    + destruct (addToGroup_members eqb (key d) d x groups g0 Hg0 Hx0)
        as [->|Hold].
      * left. left. reflexivity.
      * right. exact Hold.
Qed.

(** The documents of a group are documents of the input. *)
Lemma groupBy_members {K : Type} (eqb : K -> K -> bool) (key : Doc -> K)
      (docs : list Doc) (g : K * list Doc) (x : Doc) :
  In g (groupBy eqb key docs) -> In x (snd g) -> In x docs.
Proof.
  intros Hg Hx.
  destruct (groupBy_from_members eqb key docs [] g x Hg Hx) as [H|[g0 [[] _]]].
  exact H.
Qed.

Lemma insertSorted_In {A : Type} (before : A -> A -> bool) (x y : A) (l : list A) :
  In y (insertSorted before x l) <-> y = x \/ In y l.
Proof.
  induction l as [|z rest IH]; simpl.
  - split; intros [H|H]; auto; contradiction.
  - destruct (before x z); simpl.
    + split; intros [H|H]; auto.
    + rewrite IH. split; intros H; tauto.
Qed.

Lemma sortBy_In {A : Type} (before : A -> A -> bool) (y : A) (l : list A) :
  In y (sortBy before l) <-> In y l.
Proof.
  induction l as [|x rest IH]; simpl; [tauto|].
  rewrite insertSorted_In, IH. split; intros [H|H]; auto.
Qed.

Lemma firstn_incl {A : Type} (n : nat) (l : list A) (x : A) :
  In x (firstn n l) -> In x l.
Proof.
  intros H. rewrite <- (firstn_skipn n l). apply in_or_app. left. exact H.
Qed.

Lemma allOf_map_In {A B : Type} (f : A -> option B) (l : list A) :
  forall (r : list B) (y : B),
    Analytics.allOf (map f l) = Some r -> In y r ->
    exists x, In x l /\ f x = Some y.
Proof.
  induction l as [|a rest IH]; simpl; intros r y Hr Hy.
  - injection Hr as <-. contradiction.
  - destruct (f a) as [b|] eqn:Ea; [|discriminate].
    destruct (Analytics.allOf (map f rest)) as [r'|] eqn:Er; [|discriminate].
    simpl in Hr. injection Hr as <-.
    destruct Hy as [<-|Hy].
    + exists a. split; [left; reflexivity|exact Ea].
    + destruct (IH r' y eq_refl Hy) as [x [Hx Hfx]].
      exists x. split; [right; exact Hx|exact Hfx].
Qed.

Lemma allOf_map_total {A B : Type} (f : A -> option B) (l : list A) :
  (forall x, exists y, f x = Some y) ->
  exists r, Analytics.allOf (map f l) = Some r.
Proof.
  intros Hf. induction l as [|a rest [r Hr]]; simpl.
  - exists []. reflexivity.
  - destruct (Hf a) as [b ->]. rewrite Hr. simpl. eexists. reflexivity.
Qed.

Lemma hotspotOf_total (group : option string * list Doc) :
  exists h, Analytics.hotspotOf group = Some h.
Proof.
  unfold Analytics.hotspotOf, Analytics.riskScore. rewrite rate_value.
  eexists. reflexivity.
Qed.

Lemma countStatus_found_of_missing (docs : list Doc) :
  (forall d, In d docs -> hasStatus missing d = true) ->
  countStatus found docs = 0%nat.
Proof.
  intros Hall. unfold countStatus.
  induction docs as [|d rest IH]; simpl; [reflexivity|].
  assert (Hd : hasStatus missing d = true) by (apply Hall; left; reflexivity).
  unfold hasStatus in *. destruct (status (fields d)) as [[|]|]; simpl in *;
    try discriminate.
  apply IH. intros x Hx. apply Hall. right. exact Hx.
Qed.

(** C6: the hotspots route first keeps the records with status missing,
    seen in the last 90 days, and counts the found ones inside the groups
    of what it kept: the aggregation succeeds, and every hotspot it
    returns has a found count of 0. *)
Theorem hotspots_foundCount_zero :
  forall (now : Z) (docs : list Doc),
    exists hs, Analytics.hotspots now docs = Some hs
               /\ Forall (fun h => Analytics.foundCount h = 0%nat) hs.
Proof.
  intros now docs. unfold Analytics.hotspots.
  set (groups := groupBy (option_eqb String.eqb) (fun d => sourceState (fields d))
                         (Analytics.recentMissing now docs)).
  destruct (allOf_map_total Analytics.hotspotOf groups hotspotOf_total) as [r Hr].
  rewrite Hr. cbn [option_map]. eexists. split; [reflexivity|].
  apply Forall_forall. intros h Hh.
  apply firstn_incl in Hh. apply sortBy_In in Hh.
  destruct (allOf_map_In _ _ _ _ Hr Hh) as [g [Hg Hgh]].
  unfold Analytics.hotspotOf in Hgh.
  destruct (Analytics.riskScore _ _); [|discriminate].
  injection Hgh as <-. simpl.
  apply countStatus_found_of_missing. intros d Hd.
  assert (Hin : In d (Analytics.recentMissing now docs))
    by (eapply groupBy_members; eassumption).
  unfold Analytics.recentMissing in Hin. apply filter_In in Hin.
  destruct Hin as [_ Hkeep]. apply andb_true_iff in Hkeep. tauto.
Qed.

(** ** The upsert *)

Ltac run_store :=
  unfold DatabaseService.insertRecords, DatabaseService.insertRecord,
    MissingPersonModel.findOne, MissingPersonModel.updateOne,
    MissingPersonModel.create, MissingPersonModel.storageCall,
    MissingPersonModel.currentTime, ErrorLogger.logError,
    tryCatch, bind, onWorld, assign, ret, throw;
  cbn [forEach fst snd bind ret].

Lemma setStatus_twice (s : option MissingPersonStatus) (p : MissingPerson) :
  setStatus None (setStatus s p) = setStatus None p.
Proof. reflexivity. Qed.

Lemma withoutStatus_applyUpdate (s : option MissingPersonStatus) (t : Z) (d : Doc) :
  withoutStatus (applyUpdate s t d) = withoutStatus d.
Proof. destruct s; reflexivity. Qed.

(** An update of status and time stamp leaves the rest of every stored
    document as it was. *)
Lemma updateFirst_withoutStatus (id : nat) (s : option MissingPersonStatus) (t : Z)
      (docs : list Doc) :
  map withoutStatus (updateFirst id (applyUpdate s t) docs) = map withoutStatus docs.
Proof.
  induction docs as [|d rest IH]; simpl; [reflexivity|].
  destruct (_id d =? id)%nat; simpl.
  - rewrite withoutStatus_applyUpdate. reflexivity.
  - rewrite IH. reflexivity.
Qed.

Lemma find_split (p : Doc -> bool) (docs : list Doc) (d : Doc) :
  find p docs = Some d ->
  exists before after, docs = before ++ d :: after
                       /\ p d = true
                       /\ forall x, In x before -> p x = false.
Proof.
  induction docs as [|x rest IH]; simpl; [discriminate|].
  destruct (p x) eqn:Px.
  - intros [= ->]. exists [], rest. repeat split; [exact Px|]. intros y [].
  - intros H. destruct (IH H) as [before [after [-> [Pd Hb]]]].
    exists (x :: before), after. repeat split; [exact Pd|].
    intros y [<-|Hy]; [exact Px|apply Hb; exact Hy].
Qed.

Lemma updateFirst_at (f : Doc -> Doc) (before after : list Doc) (d : Doc) :
  NoDup (map _id (before ++ d :: after)) ->
  updateFirst (_id d) f (before ++ d :: after) = before ++ f d :: after.
Proof.
  induction before as [|x rest IH]; simpl; intros Hnd.
  - rewrite Nat.eqb_refl. reflexivity.
  - inversion Hnd as [|? ? Hnotin Hrest]; subst.
    destruct (_id x =? _id d)%nat eqn:E.
    + apply Nat.eqb_eq in E. exfalso. apply Hnotin. rewrite E.
      rewrite map_app. apply in_or_app. right. left. reflexivity.
    + rewrite IH by exact Hrest. reflexivity.
Qed.

Lemma find_none_existsb (p : Doc -> bool) (docs : list Doc) :
  find p docs = None -> existsb p docs = false.
Proof.
  induction docs as [|x rest IH]; simpl; [reflexivity|].
  destruct (p x); [discriminate|]. exact IH.
Qed.

Lemma find_none_filter (p : Doc -> bool) (docs : list Doc) :
  find p docs = None -> filter p docs = [].
Proof.
  induction docs as [|x rest IH]; simpl; [reflexivity|].
  destruct (p x); [discriminate|]. exact IH.
Qed.

Section Step.

Variable env : Env.
Variable state : string.
Variable record : MissingPerson.

Let failure (e : Error) (w : World) : World :=
  logErrorEntry {| errorTimestamp := clock env (steps w);
                   errorState := state;
                   loggedError := e;
                   context := [("recordName", name record);
                               ("dataHash", dataHash record)] |} w.

(** What one turn of the loop does, case by case. *)
Lemma insertRecord_run (c : DatabaseService.Counts) (w : World) :
  DatabaseService.insertRecord env state record (c, w)
  = match storageFault env (steps w) with
    | Some e => (Returned tt, (c, failure e (tick w)))
    | None =>
        match find (sameHash (dataHash record)) (db w) with
        | Some existing =>
            if DatabaseService.statusDiffers (status record) (status (fields existing))
            then
              match storageFault env (S (steps w)) with
              | Some e =>
                  (Returned tt,
                   (DatabaseService.countDuplicate c, failure e (tick (tick w))))
              | None =>
                  (Returned tt,
                   (DatabaseService.countDuplicate c,
                    setDb (updateFirst (_id existing)
                                       (applyUpdate (status record)
                                                    (clock env (S (steps w))))
                                       (db w))
                          (tick (tick w))))
              end
            else (Returned tt, (DatabaseService.countDuplicate c, tick w))
        | None =>
            if schemaAccepts record
            then
              match storageFault env (S (steps w)) with
              | Some e => (Returned tt, (c, failure e (tick (tick w))))
              | None =>
                  if geoKeysAccept record
                  then
                    (Returned tt,
                     (DatabaseService.countInserted c,
                      setDb (db w ++ [{| _id := freshId (db w);
                                         fields := withDefaults record;
                                         createdAt := clock env (S (steps w));
                                         updatedAt := clock env (S (steps w)) |}])
                            (tick (tick w))))
                  else (Returned tt, (c, failure geoKeysError (tick (tick w))))
              end
            else (Returned tt, (c, failure validationError (tick w)))
        end
    end.
Proof.
  run_store.
  destruct (storageFault env (steps w)) as [e|]; [reflexivity|].
  cbn [db tick steps].
  destruct (find (sameHash (dataHash record)) (db w)) as [existing|] eqn:Efind.
  - cbn [fst snd].
    destruct (DatabaseService.statusDiffers _ _); [|reflexivity].
    cbn [fst snd steps tick].
    destruct (storageFault env (S (steps w))); reflexivity.
  - destruct (schemaAccepts record); cbn [negb fst snd]; [|reflexivity].
    cbn [steps tick].
    destruct (storageFault env (S (steps w))); [reflexivity|].
    cbn [db tick].
    rewrite (find_none_existsb _ _ Efind).
    destruct (geoKeysAccept record); reflexivity.
Qed.

End Step.

(** One turn of the loop returns, and counts the record in one of four
    ways: inserted, duplicate, duplicate and failed, or failed. *)
Lemma insertRecord_counts (env : Env) (state : string) (record : MissingPerson)
      (c : DatabaseService.Counts) (w : World) :
  exists c' w',
    DatabaseService.insertRecord env state record (c, w) = (Returned tt, (c', w'))
    /\ ((c' = DatabaseService.countInserted c /\ errorLog w' = errorLog w)
        \/ (c' = DatabaseService.countDuplicate c /\ errorLog w' = errorLog w)
        \/ (c' = DatabaseService.countDuplicate c
            /\ exists e, errorLog w' = errorLog w ++ [e])
        \/ (c' = c /\ exists e, errorLog w' = errorLog w ++ [e])).
Proof.
  rewrite insertRecord_run.
  destruct (storageFault env (steps w)).
  { eexists; eexists; split; [reflexivity|].
    right; right; right. split; [reflexivity|]. eexists; reflexivity. }
  destruct (find _ (db w)) as [existing|].
  - destruct (DatabaseService.statusDiffers _ _).
    + destruct (storageFault env (S (steps w)));
        eexists; eexists; (split; [reflexivity|]).
      * right; right; left. split; [reflexivity|]. eexists; reflexivity.
      * right; left. split; reflexivity.
    + eexists; eexists; split; [reflexivity|]. right; left. split; reflexivity.
  - destruct (schemaAccepts record).
    + destruct (storageFault env (S (steps w))).
      * eexists; eexists; split; [reflexivity|].
        right; right; right. split; [reflexivity|]. eexists; reflexivity.
      * destruct (geoKeysAccept record);
          eexists; eexists; (split; [reflexivity|]).
        -- left. split; reflexivity.
        -- right; right; right. split; [reflexivity|]. eexists; reflexivity.
    + eexists; eexists; split; [reflexivity|].
      right; right; right. split; [reflexivity|]. eexists; reflexivity.
Qed.

(** The loop over a batch returns; with [n] records, the counters and the
    log grow within these bounds. *)
Lemma forEach_insertRecord_counts (env : Env) (state : string)
      (records : list MissingPerson) :
  forall (c : DatabaseService.Counts) (w : World),
  exists c' w' i d f,
    forEach records (DatabaseService.insertRecord env state) (c, w)
    = (Returned tt, (c', w'))
    /\ DatabaseService.inserted c' = (DatabaseService.inserted c + i)%nat
    /\ DatabaseService.duplicates c' = (DatabaseService.duplicates c + d)%nat
    /\ List.length (errorLog w') = (List.length (errorLog w) + f)%nat
    /\ (i + d <= List.length records)%nat
    /\ (i + f <= List.length records)%nat
    /\ (List.length records <= i + d + f)%nat.
Proof.
  induction records as [|r rest IH]; intros c w.
  - exists c, w, 0%nat, 0%nat, 0%nat. simpl. unfold ret.
    repeat split; lia.
  - cbn [forEach]. unfold bind.
    destruct (insertRecord_counts env state r c w) as [c1 [w1 [Hrun Hcase]]].
    rewrite Hrun.
    destruct (IH c1 w1) as [c' [w' [i [d [f [Hrest [Hi [Hd [Hf [B1 [B2 B3]]]]]]]]]]].
    rewrite Hrest.
    destruct Hcase as [[-> Hlog]|[[-> Hlog]|[[-> [e Hlog]]|[-> [e Hlog]]]]];
      rewrite Hlog in Hf; try rewrite length_app in Hf; cbn in Hi, Hd, Hf;
      cbn [List.length].
    + exists c', w', (S i), d, f. repeat split; try lia.
    + exists c', w', i, (S d), f. repeat split; try lia.
    + exists c', w', i, (S d), (S f). repeat split; try lia.
    + exists c', w', i, d, (S f). repeat split; try lia.
Qed.


(** A batch of one record is one turn of the loop. *)
Lemma insertRecords_single (env : Env) (state : string) (record : MissingPerson)
      (w : World) :
  DatabaseService.insertRecords env [record] state w
  = match DatabaseService.insertRecord
            env state record
            ({| DatabaseService.inserted := 0; DatabaseService.duplicates := 0 |}, w)
    with
    | (Returned _, (c, w')) => (Returned c, w')
    | (Thrown e, (_, w')) => (Thrown e, w')
    end.
Proof.
  unfold DatabaseService.insertRecords. cbn [forEach]. unfold bind, ret.
  destruct (DatabaseService.insertRecord env state record _) as [[[]|e] [c w']];
    reflexivity.
Qed.

Ltac logged :=
  unfold failuresLogged, logErrorEntry, setDb, tick;
  cbn [errorLog db]; rewrite ?length_app; cbn [List.length]; lia.

(** C1, the count as the claim has it: the stored record is still missing,
    the incoming one is found, and the store rejects the update.  The one
    record of the batch is counted as duplicate and logged as failure, so
    the three numbers add up to 2. *)
Lemma insertRecords_failed_update_counted_twice :
  match DatabaseService.insertRecords faultyHost [ashaRaoFound] "Maharashtra"
                                      worldWithAshaRao with
  | (Returned c, w') =>
      (DatabaseService.inserted c + DatabaseService.duplicates c
       + failuresLogged worldWithAshaRao w')%nat
      <> List.length [ashaRaoFound]
  | (Thrown _, _) => False
  end.
Proof.
  vm_compute. intros H. discriminate H.
Qed.

Lemma find_app_last (p : Doc -> bool) (docs : list Doc) (d : Doc) :
  find p docs = None -> p d = true -> find p (docs ++ [d]) = Some d.
Proof.
  induction docs as [|x rest IH]; simpl; intros Hnone Hd.
  - rewrite Hd. reflexivity.
  - destruct (p x); [discriminate|]. apply IH; assumption.
Qed.

Lemma required_some (v : option string) :
  required v = true -> exists s, v = Some s.
Proof. destruct v as [s|]; [eexists; reflexivity|discriminate]. Qed.

Lemma schemaAccepts_dataHash (r : MissingPerson) :
  schemaAccepts r = true -> exists h, dataHash r = Some h.
Proof.
  unfold schemaAccepts. intros H.
  apply andb_true_iff in H. destruct H as [_ H].
  apply required_some. exact H.
Qed.

Lemma dataHash_withDefaults (r : MissingPerson) :
  dataHash (withDefaults r) = dataHash r.
Proof. unfold withDefaults. destruct (status r); reflexivity. Qed.

(** A record counted as inserted was not in the collection, and is its
    last document afterwards. *)
Lemma insertRecords_inserted (env : Env) (state : string) (r : MissingPerson)
      (w w1 : World) (c1 : DatabaseService.Counts) :
  DatabaseService.insertRecords env [r] state w = (Returned c1, w1) ->
  DatabaseService.inserted c1 = 1%nat ->
  find (sameHash (dataHash r)) (db w) = None
  /\ (exists h, dataHash r = Some h)
  /\ db w1 = db w ++ [{| _id := freshId (db w);
                         fields := withDefaults r;
                         createdAt := clock env (S (steps w));
                         updatedAt := clock env (S (steps w)) |}]
  /\ steps w1 = S (S (steps w)).
Proof.
  rewrite insertRecords_single, insertRecord_run.
  destruct (storageFault env (steps w)); [intros [= <- <-]; discriminate|].
  destruct (find (sameHash (dataHash r)) (db w)) as [existing|].
  { destruct (DatabaseService.statusDiffers _ _);
      [destruct (storageFault env (S (steps w)))|];
      intros [= <- <-]; discriminate. }
  destruct (schemaAccepts r) eqn:Hschema; [|intros [= <- <-]; discriminate].
  destruct (storageFault env (S (steps w))); [intros [= <- <-]; discriminate|].
  destruct (geoKeysAccept r); intros [= <- <-]; [|discriminate].
  intros _. repeat split. apply schemaAccepts_dataHash. exact Hschema.
Qed.

(** Once a record is inserted, a record with the same hash finds it, and
    it is the only one with that hash. *)
Lemma found_after_insert (env : Env) (state : string) (r1 r2 : MissingPerson)
      (w w1 : World) (c1 : DatabaseService.Counts) :
  DatabaseService.insertRecords env [r1] state w = (Returned c1, w1) ->
  DatabaseService.inserted c1 = 1%nat ->
  dataHash r2 = dataHash r1 ->
  exists doc,
    find (sameHash (dataHash r2)) (db w1) = Some doc
    /\ filter (sameHash (dataHash r2)) (db w1) = [doc]
    /\ fields doc = withDefaults r1
    /\ createdAt doc = clock env (S (steps w)).
Proof.
  intros Hrun Hins Hhash.
  destruct (insertRecords_inserted env state r1 w w1 c1 Hrun Hins)
    as [Hnone [[h Hh] [Hdb _]]].
  rewrite Hhash, Hdb.
  set (doc := {| _id := freshId (db w); fields := withDefaults r1;
                 createdAt := clock env (S (steps w));
                 updatedAt := clock env (S (steps w)) |}).
  assert (Hdoc : sameHash (dataHash r1) doc = true).
  { unfold sameHash, doc. cbn [fields]. rewrite dataHash_withDefaults, Hh.
    cbn [option_eqb]. apply String.eqb_refl. }
  exists doc. split; [apply find_app_last; assumption|].
  split; [|split; reflexivity].
  rewrite filter_app, (find_none_filter _ _ Hnone). cbn [filter app].
  rewrite Hdoc. reflexivity.
Qed.

(** C10: two records with the same name, date and source URL, whatever
    their other fields, get the same fingerprint from [generateDataHash];
    once the first is inserted, the second is counted as duplicate (the
    lookup answering), and every stored document keeps its identifier, its
    creation time and all its fields but the status: nothing else of the
    second record is stored. *)
Theorem same_fingerprint_conflates_records :
  forall (env : Env) (state : string) (w w1 : World) (r1 r2 : MissingPerson)
         (c1 : DatabaseService.Counts),
    dataHash r1 = Some (generateDataHash (runtime env) r1) ->
    dataHash r2 = Some (generateDataHash (runtime env) r2) ->
    name r2 = name r1 ->
    lastSeenDate r2 = lastSeenDate r1 ->
    sourceURL r2 = sourceURL r1 ->
    DatabaseService.insertRecords env [r1] state w = (Returned c1, w1) ->
    DatabaseService.inserted c1 = 1%nat ->
    storageFault env (steps w1) = None ->
    generateDataHash (runtime env) r2 = generateDataHash (runtime env) r1
    /\ exists c2 w2,
        DatabaseService.insertRecords env [r2] state w1 = (Returned c2, w2)
        /\ DatabaseService.inserted c2 = 0%nat
        /\ DatabaseService.duplicates c2 = 1%nat
        /\ map withoutStatus (db w2) = map withoutStatus (db w1).
Proof.
  intros env state w w1 r1 r2 c1 H1 H2 Hname Hdate Hurl Hrun Hins Hok.
  assert (Hsame : generateDataHash (runtime env) r2 = generateDataHash (runtime env) r1)
    by (apply generateDataHash_agrees; assumption).
  split; [exact Hsame|].
  assert (Hhash : dataHash r2 = dataHash r1) by (rewrite H1, H2, Hsame; reflexivity).
  destruct (found_after_insert env state r1 r2 w w1 c1 Hrun Hins Hhash)
    as [doc [Hfind _]].
  rewrite insertRecords_single, insertRecord_run, Hok, Hfind.
  destruct (DatabaseService.statusDiffers _ _).
  - destruct (storageFault env (S (steps w1)));
      eexists; eexists; (split; [reflexivity|]); repeat split.
    cbn [db setDb]. apply updateFirst_withoutStatus.
  - eexists; eexists. split; [reflexivity|]. repeat split.
Qed.

Lemma same_fingerprint_conflates_records_witness :
  generateDataHash (runtime quietHost) ashaRaoOtherDetails
  = generateDataHash (runtime quietHost) ashaRao
  /\ exists c2 w2,
      DatabaseService.insertRecords quietHost [ashaRaoOtherDetails] "Maharashtra"
                                    afterFirstRun
      = (Returned c2, w2)
      /\ DatabaseService.inserted c2 = 0%nat
      /\ DatabaseService.duplicates c2 = 1%nat
      /\ map withoutStatus (db w2) = map withoutStatus (db afterFirstRun).
Proof.
  apply (same_fingerprint_conflates_records
           quietHost "Maharashtra" emptyWorld afterFirstRun
           ashaRao ashaRaoOtherDetails firstCounts);
    vm_compute; reflexivity.
Defined.

(** ** The HTTP client and the worker *)










(** With the network down, each source fails and the collection stays
    empty. *)
Example pipeline_with_network_down :
  match OverwatchWorker.runETLPipeline quietHost emptyWorld with
  | (Returned (results, stats), w') =>
      OverwatchWorker.error (OverwatchWorker.Maharashtra results)
      = Some "Failed to fetch after 3 attempts: connect ECONNREFUSED"
      /\ OverwatchWorker.error (OverwatchWorker.Delhi results)
         = Some "Failed to fetch after 3 attempts: connect ECONNREFUSED"
      /\ db w' = []
      /\ List.length (errorLog w') = 3%nat
      /\ List.length (network w') = 15%nat
  | (Thrown _, _) => False
  end.
Proof. vm_compute. repeat split. Qed.

(** ** Dates *)

Example parseInt_examples :
  parseInt "  -0x1F" None = Some (-31)
  /\ parseInt "08" None = Some 8
  /\ parseInt "abc" None = None
  /\ parseInt "12px" (Some 10) = Some 12
  /\ parseInt "0x10" (Some 10) = Some 0
  /\ parseInt "+7" (Some 10) = Some 7.
Proof. vm_compute. repeat split. Qed.

Example parseIndianDate_examples :
  option_map (dateToString ist) (parseIndianDate ist "15/02/2026")
  = Some "Sun Feb 15 2026 00:00:00 GMT+0530 (India Standard Time)"
  /\ option_map (dateToString ist) (parseIndianDate ist "  Seen on 5-12-2024 at noon")
     = Some "Thu Dec 05 2024 00:00:00 GMT+0530 (India Standard Time)"
  /\ option_map (dateToString ist) (parseIndianDate ist "45/13/2026")
     = Some "Sun Feb 14 2027 00:00:00 GMT+0530 (India Standard Time)"
  /\ option_map (dateToString ist) (parseIndianDate ist "05 Jan 2024")
     = Some "Fri Jan 05 2024 00:00:00 GMT+0530 (India Standard Time)"
  /\ option_map (dateToString utc) (parseIndianDate utc "5  January 2024")
     = Some "Fri Jan 05 2024 00:00:00 GMT+0000 (Coordinated Universal Time)"
  /\ parseIndianDate ist "05 Foo 2024" = None
  /\ parseIndianDate ist "yesterday" = None.
Proof. vm_compute. repeat split. Qed.

(** The offset in force at the date counts: the zone of Kolkata was
    5 h 21 min 10 s ahead of UTC in 1900 and 6 h 30 min in January 1942. *)
Example parseIndianDate_zone_history :
  parseIndianDate ist "01/01/1900" = Some (DateAt (-2209008070000))
  /\ option_map (dateToString ist) (parseIndianDate ist "01/01/1900")
     = Some "Mon Jan 01 1900 00:00:00 GMT+0521 (India Standard Time)"
  /\ option_map (dateToString ist) (parseIndianDate ist "10/01/1942")
     = Some "Sat Jan 10 1942 00:00:00 GMT+0630 (India Standard Time)"
  /\ option_map (dateToString utc) (parseIndianDate ist "15/02/2026")
     = Some "Sat Feb 14 2026 18:30:00 GMT+0000 (Coordinated Universal Time)".
Proof. vm_compute. repeat split. Qed.


(** *** The regular expressions *)








(** *** [parseInt] on digits *)







(** *** The date of a day, a month and a year *)






(** ** binary64 and the rate of the statistics route *)

Example double_examples :
  match double (1 # 10) with
  | Finite q => (q == 3602879701896397 # 36028797018963968)%Q
  | _ => False
  end
  /\ match jsMul (jsDiv (num 23) (num 160)) (num 100) with
     | Finite q => (q == 8092405580431359 # 562949953421312)%Q
     | _ => False
     end
  /\ double (2 ^ 1024 - 2 ^ 970)%Q = Infinity false
  /\ match double (3 * 2 ^ (-1075))%Q with
     | Finite q => (q == 2 ^ (-1073))%Q
     | _ => False
     end.
Proof. vm_compute. repeat split. Qed.

Lemma pow2_pos (e : Z) : (0 < 2 ^ e)%Q.
Proof. apply Qpower_0_lt. reflexivity. Qed.

Lemma pow2_le (a b : Z) : a <= b -> (2 ^ a <= 2 ^ b)%Q.
Proof. intros H. apply Qpower_le_compat_l; [exact H|]. unfold Qle; simpl; lia. Qed.

Lemma pow2_succ (e : Z) : (2 ^ (e + 1) == 2 * 2 ^ e)%Q.
Proof.
  rewrite Qpower_plus by (intros H; discriminate H).
  rewrite Qpower_1_r. ring.
Qed.

Lemma pow2_Z (n : Z) : 0 <= n -> (2 ^ n == inject_Z (2 ^ n))%Q.
Proof. intros H. rewrite Zpower_Qpower by exact H. reflexivity. Qed.

(** A positive rational lies within a factor two of the quotient of the
    powers of two below its numerator and its denominator. *)
Lemma log2_bounds (q : Q) :
  (0 < q)%Q ->
  let k := Z.log2 (Qnum q) - Z.log2 (Zpos (Qden q)) in
  (2 ^ (k - 1) <= q)%Q /\ (q < 2 ^ (k + 1))%Q.
Proof.
  intros Hq k. destruct q as [n d]. unfold k. cbn [Qnum Qden].
  assert (Hn : 0 < n) by (unfold Qlt in Hq; simpl in Hq; lia).
  destruct (Z.log2_spec n Hn) as [Ln Un].
  destruct (Z.log2_spec (Zpos d) (Pos2Z.is_pos d)) as [Ld Ud].
  pose proof (Z.log2_nonneg n) as Nn. pose proof (Z.log2_nonneg (Zpos d)) as Nd.
  set (a := Z.log2 n) in *. set (b := Z.log2 (Zpos d)) in *.
  assert (Pa : 0 < 2 ^ a) by (apply Z.pow_pos_nonneg; lia).
  assert (Pb : 0 < 2 ^ b) by (apply Z.pow_pos_nonneg; lia).
  clearbody a b. clear k.
  assert (Eb : 2 ^ (b + 1) = 2 * 2 ^ b) by (rewrite Z.pow_add_r by lia; lia).
  assert (Ea : 2 ^ (a + 1) = 2 * 2 ^ a) by (rewrite Z.pow_add_r by lia; lia).
  split.
  - replace (a - b - 1) with (a - (b + 1)) by lia.
    rewrite Qpower_minus by (intros H; discriminate H).
    rewrite !pow2_Z by lia.
    apply Qle_shift_div_r; [unfold Qlt; simpl; lia|].
    unfold Qle, Qmult, inject_Z. cbn [Qnum Qden]. rewrite Eb. nia.
  - replace (a - b + 1) with ((a + 1) - b) by lia.
    rewrite Qpower_minus by (intros H; discriminate H).
    rewrite !pow2_Z by lia.
    apply Qlt_shift_div_l; [unfold Qlt; simpl; lia|].
    unfold Qlt, Qmult, inject_Z. cbn [Qnum Qden]. rewrite Ea. nia.
Qed.

(** The unit in the last place: [q] has 53 bits above it, unless the unit
    is the least one. *)
Lemma ulp_bounds (q : Q) :
  (0 < q)%Q ->
  (q < 2 ^ (ulpExponent q + 53))%Q
  /\ (ulpExponent q = -1074 \/ (2 ^ (ulpExponent q + 52) <= q)%Q)
  /\ -1074 <= ulpExponent q.
Proof.
  intros Hq. destruct (log2_bounds q Hq) as [Hlo Hhi]. unfold ulpExponent.
  set (k := Z.log2 (Qnum q) - Z.log2 (Zpos (Qden q))) in *. clearbody k.
  assert (Hcase : exists e, (if Qle_bool (2 ^ k) q then k - 52 else k - 53) = e
                            /\ (q < 2 ^ (e + 53))%Q /\ (2 ^ (e + 52) <= q)%Q).
  { destruct (Qle_bool (2 ^ k) q) eqn:E.
    - apply Qle_bool_iff in E. exists (k - 52). split; [reflexivity|].
      replace (k - 52 + 53) with (k + 1) by lia. replace (k - 52 + 52) with k by lia.
      split; assumption.
    - exists (k - 53). split; [reflexivity|].
      replace (k - 53 + 53) with k by lia. replace (k - 53 + 52) with (k - 1) by lia.
      split; [|exact Hlo].
      apply Qnot_le_lt. intros H. apply Qle_bool_iff in H. congruence. }
  destruct Hcase as [e [-> [Hup Hdown]]].
  destruct (Z.max_spec e (-1074)) as [[Hlt ->]|[Hge ->]].
  - split; [|split; [left; reflexivity|lia]].
    eapply Qlt_le_trans; [exact Hup|]. apply pow2_le. lia.
  - split; [exact Hup|]. split; [right; exact Hdown|lia].
Qed.

Lemma roundHalfEven_near (x : Q) :
  (inject_Z (roundHalfEven x) - x <= 1 # 2)%Q /\ (x - inject_Z (roundHalfEven x) <= 1 # 2)%Q.
Proof.
  pose proof (Qfloor_le x) as Hlo. pose proof (Qlt_floor x) as Hhi.
  rewrite inject_Z_plus in Hhi. change (inject_Z 1) with 1%Q in Hhi.
  unfold roundHalfEven.
  destruct (Qcompare_spec (x - inject_Z (Qfloor x)) (1 # 2)) as [E|L|G].
  - destruct (Z.even (Qfloor x));
      [|rewrite inject_Z_plus; change (inject_Z 1) with 1%Q]; lra.
  - lra.
  - rewrite inject_Z_plus. change (inject_Z 1) with 1%Q. lra.
Qed.

Lemma Qabs_nonneg_eq (q : Q) : (0 <= q)%Q -> Qabs q = q.
Proof.
  destruct q as [n d]. unfold Qle, Qabs. cbn [Qnum Qden]. intros H.
  rewrite Z.abs_eq by lia. reflexivity.
Qed.

(** Rounding a number from 0 to 2^j to binary64 moves it by half a unit at
    most. *)
Lemma double_close (q : Q) (j : Z) :
  (0 <= q)%Q -> (q <= 2 ^ j)%Q -> -1023 <= j <= 1022 ->
  exists r, double q = Finite r
            /\ (0 <= r)%Q /\ (r - q <= 2 ^ (j - 52))%Q /\ (q - r <= 2 ^ (j - 52))%Q.
Proof.
  intros Hq Hj Hrange. unfold double.
  destruct (Qeq_bool q 0) eqn:Ezero.
  - apply Qeq_bool_eq in Ezero. exists 0%Q. split; [reflexivity|].
    pose proof (pow2_pos (j - 52)). lra.
  - assert (Hpos : (0 < q)%Q).
    { apply Qle_lteq in Hq. destruct Hq as [H|H]; [exact H|].
      symmetry in H. apply Qeq_eq_bool in H. congruence. }
    rewrite (Qabs_nonneg_eq q Hq).
    destruct (ulp_bounds q Hpos) as [Hup [Hdown Hmin]].
    set (e := ulpExponent q) in *. clearbody e.
    destruct (roundHalfEven_near (q / 2 ^ e)) as [N1 N2].
    pose proof (pow2_pos e) as Pe.
    assert (Hm : (0 <= inject_Z (roundHalfEven (q / 2 ^ e)))%Q).
    { assert (Hf : 0 <= Qfloor (q / 2 ^ e)).
      { rewrite <- (Qfloor_Z 0). apply Qfloor_resp_le.
        apply Qle_shift_div_l; [exact Pe|]. change (inject_Z 0) with 0%Q. lra. }
      change 0%Q with (inject_Z 0). rewrite <- Zle_Qle.
      destruct (roundHalfEven_cases (q / 2 ^ e)) as [->|[-> _]]; lia. }
    set (m := inject_Z (roundHalfEven (q / 2 ^ e))) in *. clearbody m.
    assert (Hx : (q / 2 ^ e * 2 ^ e == q)%Q) by (field; lra).
    assert (He : (2 ^ e <= 2 ^ (j - 51))%Q).
    { destruct Hdown as [->|Hdown]; [apply pow2_le; lia|].
      apply pow2_le.
      assert (e + 52 <= j); [|lia].
      apply (Qpower_le_compat_l_inv 2); [|reflexivity]. lra. }
    assert (H51 : (2 ^ (j - 51) == 2 * 2 ^ (j - 52))%Q).
    { replace (j - 51) with (j - 52 + 1) by lia. apply pow2_succ. }
    assert (Hj1 : (2 ^ j <= 2 ^ 1022)%Q) by (apply pow2_le; lia).
    assert (Hj2 : (2 ^ (j - 52) <= 2 ^ 1022)%Q) by (apply pow2_le; lia).
    assert (H1024 : (2 ^ 1024 == 4 * 2 ^ 1022)%Q).
    { replace 1024 with (1022 + 1 + 1) by lia. rewrite !pow2_succ. ring. }
    assert (Hr1 : (m * 2 ^ e - q <= 2 ^ (j - 52))%Q) by nra.
    assert (Hr2 : (q - m * 2 ^ e <= 2 ^ (j - 52))%Q) by nra.
    pose proof (pow2_pos 1022) as P1022.
    destruct (Qle_bool (2 ^ 1024) (m * 2 ^ e)) eqn:Eover.
    + apply Qle_bool_iff in Eover. exfalso. lra.
    + assert (Hs : Qle_bool 0 q = true) by (apply Qle_bool_iff; exact Hq).
      rewrite Hs. exists (m * 2 ^ e)%Q. split; [reflexivity|].
      split; [|split; assumption].
      apply Qmult_le_0_compat; lra.
Qed.

(** An integer below 2^53 is a binary64 number. *)
Lemma double_integer (q : Q) (z : Z) :
  (q == inject_Z z)%Q -> 0 <= z < 2 ^ 53 ->
  exists r, double q = Finite r /\ (r == inject_Z z)%Q.
Proof.
  intros Hq Hz. unfold double.
  destruct (Qeq_bool q 0) eqn:Ezero.
  - apply Qeq_bool_eq in Ezero. exists 0%Q. split; [reflexivity|].
    rewrite <- Hq, Ezero. reflexivity.
  - assert (Hz0 : z <> 0).
    { intros ->. apply Qeq_eq_bool in Hq. change (inject_Z 0) with 0%Q in Hq. congruence. }
    assert (Hpos : (0 < q)%Q).
    { rewrite Hq. change 0%Q with (inject_Z 0). rewrite <- Zlt_Qlt. lia. }
    rewrite (Qabs_nonneg_eq q (Qlt_le_weak _ _ Hpos)).
    destruct (ulp_bounds q Hpos) as [Hup [Hdown Hmin]].
    set (e := ulpExponent q) in *. clearbody e.
    pose proof (pow2_pos e) as Pe.
    assert (H53 : (inject_Z z < 2 ^ 53)%Q).
    { rewrite pow2_Z by lia. rewrite <- Zlt_Qlt. lia. }
    assert (He : e <= 0).
    { destruct Hdown as [->|Hdown]; [lia|].
      assert (e + 52 < 53); [|lia].
      apply (Qpower_lt_compat_l_inv 2); [|reflexivity]. rewrite Hq in Hdown. lra. }
    assert (Hinv : (2 ^ e * inject_Z (2 ^ (- e)) == 1)%Q).
    { rewrite <- pow2_Z by lia. rewrite <- Qpower_plus by (intros H; discriminate H).
      replace (e + - e) with 0 by lia. reflexivity. }
    assert (Hinv' : (/ 2 ^ e == inject_Z (2 ^ (- e)))%Q).
    { rewrite <- (Qmult_1_r (/ 2 ^ e)), <- Hinv. field. lra. }
    assert (Hx : (q / 2 ^ e == inject_Z (z * 2 ^ (- e)))%Q).
    { unfold Qdiv. rewrite Hinv', Hq, inject_Z_mult. reflexivity. }
    assert (Hm : roundHalfEven (q / 2 ^ e) = z * 2 ^ (- e)).
    { pose proof (roundHalfEven_between (q / 2 ^ e) (z * 2 ^ (- e)) (z * 2 ^ (- e))) as H.
      destruct H as [A B]; [rewrite Hx; apply Qle_refl|rewrite Hx; apply Qle_refl|lia]. }
    rewrite Hm.
    assert (Hr : (inject_Z (z * 2 ^ (- e)) * 2 ^ e == inject_Z z)%Q).
    { rewrite inject_Z_mult, <- Hinv'. field. lra. }
    destruct (Qle_bool (2 ^ 1024) (inject_Z (z * 2 ^ (- e)) * 2 ^ e)) eqn:Eover.
    + apply Qle_bool_iff in Eover. rewrite Hr in Eover. exfalso.
      assert (2 ^ 53 <= 2 ^ 1024)%Q by (apply pow2_le; lia). lra.
    + assert (Hs : Qle_bool 0 q = true) by (apply Qle_bool_iff, Qlt_le_weak; exact Hpos).
      rewrite Hs. eexists. split; [reflexivity|exact Hr].
Qed.

Lemma toFixed_2 (y : Q) :
  (0 <= y)%Q ->
  toFixed (Finite y) 2
  = (decimal (Qfloor (y * 100 + (1 # 2)) / 100) ++ "."
     ++ pad2 (Qfloor (y * 100 + (1 # 2)) mod 100))%string.
Proof.
  intros Hy. unfold toFixed. rewrite (Qabs_nonneg_eq y Hy).
  assert (Hs : Qle_bool 0 y = true) by (apply Qle_bool_iff; exact Hy).
  rewrite Hs. reflexivity.
Qed.

(** The rate the statistics route prints is the exact rate within half a
    hundredth and the rounding of three operations. *)
Lemma resolutionRateText_accurate (m f : nat) :
  (0 < m + f)%nat -> Z.of_nat (m + f) < 2 ^ 53 ->
  exists n : Z,
    Analytics.resolutionRateText m f
    = (decimal (n / 100) ++ "." ++ pad2 (n mod 100))%string
    /\ 0 <= n <= 10000
    /\ (Qabs (inject_Z n / 100
              - inject_Z (Z.of_nat f) / inject_Z (Z.of_nat (m + f)) * 100)
        <= (1 # 200) + (1 # 10000000000000))%Q.
Proof.
  intros Hsome Hsmall. unfold Analytics.resolutionRateText, count.
  destruct (double_integer (inject_Z (Z.of_nat f)) (Z.of_nat f)) as [cf [Ef Hf]];
    [reflexivity|lia|].
  destruct (double_integer (inject_Z (Z.of_nat m)) (Z.of_nat m)) as [cm [Em Hm]];
    [reflexivity|lia|].
  rewrite Ef, Em. cbn [jsAdd].
  destruct (double_integer (cm + cf) (Z.of_nat (m + f))) as [s [Es Hs]];
    [rewrite Hm, Hf, <- inject_Z_plus, Nat2Z.inj_add; reflexivity|lia|].
  rewrite Es. cbn [jsDiv].
  assert (Hspos : (0 < s)%Q).
  { rewrite Hs. change 0%Q with (inject_Z 0). rewrite <- Zlt_Qlt. lia. }
  assert (Hcf : (0 <= cf)%Q /\ (cf <= s)%Q).
  { rewrite Hf, Hs. change 0%Q with (inject_Z 0). rewrite <- !Zle_Qle. lia. }
  replace (Qeq_bool s 0) with false
    by (symmetry; apply not_true_is_false; intros H; apply Qeq_bool_eq in H; lra).
  assert (Hx : (cf / s == inject_Z (Z.of_nat f) / inject_Z (Z.of_nat (m + f)))%Q)
    by (rewrite Hf, Hs; reflexivity).
  set (exact := (inject_Z (Z.of_nat f) / inject_Z (Z.of_nat (m + f)))%Q) in *.
  clearbody exact.
  assert (Hx0 : (0 <= cf / s)%Q) by (apply Qle_shift_div_l; [exact Hspos|lra]).
  assert (Hx1 : (cf / s <= 1)%Q) by (apply Qle_shift_div_r; [exact Hspos|lra]).
  destruct (double_close (cf / s) 0) as [x1 [Ex [X0 [X1 X2]]]];
    [exact Hx0|exact Hx1|lia|].
  rewrite Ex. cbn [jsMul num].
  assert (P52 : (2 ^ (0 - 52) == 1 # 4503599627370496)%Q) by reflexivity.
  assert (P45 : (2 ^ (7 - 52) == 1 # 35184372088832)%Q) by reflexivity.
  assert (P7 : (2 ^ 7 == 128)%Q) by reflexivity.
  change (inject_Z 100) with 100%Q.
  destruct (double_close (x1 * 100) 7) as [y [Ey [Y0 [Y1 Y2]]]]; [lra|lra|lia|].
  rewrite Ey, (toFixed_2 y Y0).
  pose proof (Qfloor_le (y * 100 + (1 # 2))) as Nlo.
  pose proof (Qlt_floor (y * 100 + (1 # 2))) as Nhi.
  rewrite inject_Z_plus in Nhi. change (inject_Z 1) with 1%Q in Nhi.
  set (n := Qfloor (y * 100 + (1 # 2))) in *. clearbody n.
  exists n. split; [reflexivity|].
  split.
  - assert (A : (inject_Z (-1) < inject_Z n)%Q) by (change (inject_Z (-1)) with (-1)%Q; lra).
    assert (B : (inject_Z n < inject_Z 10001)%Q) by (change (inject_Z 10001) with 10001%Q; lra).
    rewrite <- Zlt_Qlt in A, B. lia.
  - apply Qabs_Qle_condition. split.
    + assert (inject_Z n / 100 == inject_Z n * (1 # 100))%Q by (field). lra.
    + assert (inject_Z n / 100 == inject_Z n * (1 # 100))%Q by (field). lra.
Qed.

(** 137 missing and 23 found records give 14.375 in exact arithmetic and
    14.374999999999998 in binary64. *)
Example resolutionRateText_examples :
  Analytics.resolutionRateText 137 23 = "14.37"
  /\ Analytics.resolutionRateText 10 2 = "16.67"
  /\ Analytics.resolutionRateText 0 5 = "100.00"
  /\ Analytics.resolutionRateText 7 0 = "0.00"
  /\ Analytics.resolutionRateText 0 0 = "NaN".
Proof. vm_compute. repeat split. Qed.

(** C8: whenever the statistics route answers, the resolution rate of the
    totals is what JavaScript computes and prints for
    (found / (missing + found) * 100).toFixed(2), without the "+ 1" of the
    other two routes: over 10 missing and 2 found records it is "16.67";
    for counts below 2^53 that are not both zero it is a decimal text
    with two decimals whose value is the exact rate
    found / (missing + found) * 100 within half a hundredth and the
    rounding of the three operations; when no record is missing or found
    it is "NaN". *)
Theorem statistics_resolutionRate :
  forall (docs : list Doc) (r : Analytics.StatisticsResponse),
    Analytics.statistics docs = Returned r ->
    let m := countStatus missing docs in
    let f := countStatus found docs in
    let text := Analytics.totalsResolutionRate (Analytics.totals r) in
    text = toFixed (jsMul (jsDiv (count f) (jsAdd (count m) (count f))) (num 100)) 2
    /\ (m = 10%nat -> f = 2%nat -> text = "16.67")
    /\ ((0 < m + f)%nat -> Z.of_nat (m + f) < 2 ^ 53 ->
        exists n : Z,
          text = (decimal (n / 100) ++ "." ++ pad2 (n mod 100))%string
          /\ 0 <= n <= 10000
          /\ (Qabs (inject_Z n / 100
                    - inject_Z (Z.of_nat f) / inject_Z (Z.of_nat (m + f)) * 100)
              <= (1 # 200) + (1 # 10000000000000))%Q)
    /\ ((m + f = 0)%nat -> text = "NaN").
Proof.
  intros docs r Hr m f text.
  assert (Hrate : text = Analytics.resolutionRateText m f).
  { unfold text, Analytics.statistics in *.
    destruct docs as [|d rest]; [discriminate|].
    destruct (avgDouble _) as [a|]; [|discriminate].
    injection Hr as <-. reflexivity. }
  split; [exact Hrate|].
  split; [intros Hm Hf; rewrite Hrate, Hm, Hf; vm_compute; reflexivity|].
  split.
  - intros Hsome Hsmall. rewrite Hrate.
    apply resolutionRateText_accurate; assumption.
  - intros Hnone. rewrite Hrate.
    assert (Hm : m = 0%nat) by lia. assert (Hf : f = 0%nat) by lia.
    rewrite Hm, Hf. vm_compute. reflexivity.
Qed.

Lemma statistics_resolutionRate_witness :
  match Analytics.statistics sampleCorpus with
  | Returned r =>
      Analytics.totalsResolutionRate (Analytics.totals r) = "16.67"
      /\ exists n : Z,
          Analytics.totalsResolutionRate (Analytics.totals r)
          = (decimal (n / 100) ++ "." ++ pad2 (n mod 100))%string
          /\ 0 <= n <= 10000
          /\ (Qabs (inject_Z n / 100
                    - inject_Z (Z.of_nat (countStatus found sampleCorpus))
                      / inject_Z (Z.of_nat (countStatus missing sampleCorpus
                                            + countStatus found sampleCorpus)) * 100)
              <= (1 # 200) + (1 # 10000000000000))%Q
  | Thrown _ => False
  end.
Proof.
  destruct (Analytics.statistics sampleCorpus) as [r|e] eqn:E.
  - destruct (statistics_resolutionRate sampleCorpus r E) as [_ [A [B _]]].
    split; [apply A; vm_compute; reflexivity|].
    apply B; vm_compute; [lia|reflexivity].
  - vm_compute in E. discriminate.
Defined.

(** ** More on the validator and the transformer *)

Lemma lookup_skip_field {A : Type} (k k' : string) (inject : A -> JsValue)
      (v : option A) (rest : list (string * JsValue)) :
  (k' =? k)%string = false ->
  lookup k (field k' inject v ++ rest) = lookup k rest.
Proof.
  intros H. destruct v as [a|]; cbn [field app lookup]; [rewrite H|]; reflexivity.
Qed.

Lemma lookup_last_field {A : Type} (k k' : string) (inject : A -> JsValue)
      (v : option A) :
  (k' =? k)%string = false ->
  lookup k (field k' inject v) = JUndefined.
Proof.
  intros H. destruct v as [a|]; cbn [field lookup]; [rewrite H|]; reflexivity.
Qed.

Ltac skip_fields :=
  repeat (rewrite lookup_skip_field by reflexivity);
  try (rewrite lookup_last_field by reflexivity).

Lemma prop_name (p : MissingPerson) :
  prop (toJs p) "name" = match name p with Some s => JString s | None => JUndefined end.
Proof.
  unfold toJs, prop. destruct (name p); cbn [field app lookup String.eqb Ascii.eqb Bool.eqb];
    [reflexivity|]. skip_fields. reflexivity.
Qed.

Lemma prop_age (p : MissingPerson) :
  prop (toJs p) "age" = match age p with Some n => JNumber n | None => JUndefined end.
Proof.
  unfold toJs, prop. skip_fields.
  destruct (age p); cbn [field app lookup String.eqb Ascii.eqb Bool.eqb];
    [reflexivity|]. skip_fields. reflexivity.
Qed.

Lemma prop_gender (p : MissingPerson) :
  prop (toJs p) "gender"
  = match gender p with Some g => JString (genderValue g) | None => JUndefined end.
Proof.
  unfold toJs, prop. skip_fields.
  destruct (gender p); cbn [field app lookup String.eqb Ascii.eqb Bool.eqb];
    [reflexivity|]. skip_fields. reflexivity.
Qed.

Lemma prop_lastSeenDate (p : MissingPerson) :
  prop (toJs p) "lastSeenDate"
  = match lastSeenDate p with Some d => JDate d | None => JUndefined end.
Proof.
  unfold toJs, prop. skip_fields.
  destruct (lastSeenDate p); cbn [field app lookup String.eqb Ascii.eqb Bool.eqb];
    [reflexivity|]. skip_fields. reflexivity.
Qed.

Lemma prop_lastKnownLocation (p : MissingPerson) :
  prop (toJs p) "lastKnownLocation"
  = match lastKnownLocation p with Some s => JString s | None => JUndefined end.
Proof.
  unfold toJs, prop. skip_fields.
  destruct (lastKnownLocation p); cbn [field app lookup String.eqb Ascii.eqb Bool.eqb];
    [reflexivity|]. skip_fields. reflexivity.
Qed.

(** The five checks of the validator on a record. *)
Lemma validateExtractedData_record (p : MissingPerson) :
  validateExtractedData (toJs p)
  = let errors :=
      push [] (negb match name p with Some s => nonEmpty s | None => false end)
           "Name is required and must be a string" in
    let errors :=
      push errors
           (negb match age p with
                 | Some n => negb (num_lt n (num 0)) && negb (num_gt n (num 150))
                 | None => false
                 end)
           "Age must be a number between 0 and 150" in
    let errors :=
      push errors (negb match gender p with Some _ => true | None => false end)
           "Gender must be male, female, or other" in
    let errors :=
      push errors (negb match lastSeenDate p with Some _ => true | None => false end)
           "Last seen date must be a valid date" in
    let errors :=
      push errors
           (negb match lastKnownLocation p with Some s => nonEmpty s | None => false end)
           "Last known location is required" in
    {| Validation.valid := (List.length errors =? 0)%nat;
       Validation.errors := errors |}.
Proof.
  unfold validateExtractedData.
  change (truthy (toJs p)) with true. change (typeOf (toJs p)) with "object".
  cbn [negb orb String.eqb Ascii.eqb Bool.eqb].
  rewrite prop_name, prop_age, prop_gender, prop_lastSeenDate, prop_lastKnownLocation.
  cbv zeta.
  assert (Hname : negb (truthy match name p with Some s => JString s | None => JUndefined end)
                  || negb (typeOf match name p with Some s => JString s | None => JUndefined end
                           =? "string")%string
                  = negb match name p with Some s => nonEmpty s | None => false end).
  { destruct (name p) as [s|]; cbn; [|reflexivity].
    unfold nonEmpty. rewrite orb_false_r. reflexivity. }
  assert (Hloc : negb (truthy match lastKnownLocation p with
                              | Some s => JString s | None => JUndefined end)
                 || negb (typeOf match lastKnownLocation p with
                                 | Some s => JString s | None => JUndefined end
                          =? "string")%string
                 = negb match lastKnownLocation p with
                        | Some s => nonEmpty s | None => false end).
  { destruct (lastKnownLocation p) as [s|]; cbn; [|reflexivity].
    unfold nonEmpty. rewrite orb_false_r. reflexivity. }
  assert (Hage : negb (typeOf match age p with Some n => JNumber n | None => JUndefined end
                       =? "number")%string
                 || below match age p with Some n => JNumber n | None => JUndefined end 0
                 || above match age p with Some n => JNumber n | None => JUndefined end 150
                 = negb match age p with
                        | Some n => negb (num_lt n (num 0)) && negb (num_gt n (num 150))
                        | None => false
                        end).
  { destruct (age p) as [n|]; [|reflexivity].
    unfold below, above, typeOf.
    destruct (num_lt n (num 0)); destruct (num_gt n (num 150)); reflexivity. }
  assert (Hgender : negb (includes ["male"; "female"; "other"]
                                   match gender p with
                                   | Some g => JString (genderValue g)
                                   | None => JUndefined
                                   end)
                    = negb match gender p with Some _ => true | None => false end).
  { destruct (gender p) as [[| |]|]; reflexivity. }
  assert (Hdate : negb (instanceofDate match lastSeenDate p with
                                       | Some d => JDate d | None => JUndefined end)
                  = negb match lastSeenDate p with Some _ => true | None => false end).
  { destruct (lastSeenDate p); reflexivity. }
  rewrite Hname, Hloc, Hage, Hgender, Hdate. reflexivity.
Qed.

Lemma validateExtractedData_valid_iff_no_error_helper (data : JsValue) :
  Validation.errors (validateExtractedData data) = [] ->
  Validation.valid (validateExtractedData data) = true.
Proof.
  unfold validateExtractedData.
  destruct (negb (truthy data) || negb (typeOf data =? "object")%string).
  - cbn. discriminate.
  - cbv zeta. cbn [Validation.valid Validation.errors]. intros ->. reflexivity.
Qed.

(** X1: the validator never answers both ways: for every value it is
    given, [valid] is true exactly when the list of errors is empty. *)
Theorem validateExtractedData_valid_iff_no_error :
  forall data : JsValue,
    Validation.valid (validateExtractedData data) = true
    <-> Validation.errors (validateExtractedData data) = [].
Proof.
  intros data. unfold validateExtractedData.
  destruct (negb (truthy data) || negb (typeOf data =? "object")%string).
  - cbn. split; discriminate.
  - cbv zeta. cbn [Validation.valid Validation.errors].
    match goal with
    | |- (List.length ?l =? 0)%nat = true <-> _ => generalize l
    end.
    intros l. destruct l; cbn; split; intros H; try reflexivity; discriminate.
Qed.

(** X2: on a record the validator accepts exactly when the name and the
    last known location are non-empty strings, the age is a number that is
    neither below 0 nor above 150, the gender is set and the date is a
    Date object. *)
Theorem validateExtractedData_accepts_exactly :
  forall p : MissingPerson,
    Validation.valid (validateExtractedData (toJs p))
    = (match name p with Some s => nonEmpty s | None => false end
       && match age p with
          | Some n => negb (num_lt n (num 0)) && negb (num_gt n (num 150))
          | None => false
          end
       && match gender p with Some _ => true | None => false end
       && match lastSeenDate p with Some _ => true | None => false end
       && match lastKnownLocation p with Some s => nonEmpty s | None => false end).
Proof.
  intros p. rewrite validateExtractedData_record. cbv zeta.
  destruct (match name p with Some s => nonEmpty s | None => false end);
    destruct (match age p with
              | Some n => negb (num_lt n (num 0)) && negb (num_gt n (num 150))
              | None => false
              end);
    destruct (match gender p with Some _ => true | None => false end);
    destruct (match lastSeenDate p with Some _ => true | None => false end);
    destruct (match lastKnownLocation p with Some s => nonEmpty s | None => false end);
    reflexivity.
Qed.

Lemma filter_split_length {A : Type} (f : A -> bool) (l : list A) :
  (List.length (filter f l) + List.length (filter (fun x => negb (f x)) l)
   = List.length l)%nat.
Proof.
  induction l as [|x rest IH]; [reflexivity|].
  cbn [filter]. destruct (f x); cbn [negb List.length]; lia.
Qed.

Lemma transform_from (raw : list MissingPerson) :
  forall out : DataTransformer.Output,
    fold_left DataTransformer.step raw out
    = {| DataTransformer.valid :=
           DataTransformer.valid out
           ++ filter (fun r => Validation.valid (validateExtractedData (toJs r))) raw;
         DataTransformer.invalid :=
           DataTransformer.invalid out
           ++ map (fun r => (r, Validation.errors (validateExtractedData (toJs r))))
                  (filter (fun r => negb (Validation.valid (validateExtractedData (toJs r))))
                          raw) |}.
Proof.
  induction raw as [|r rest IH]; intros out; cbn [fold_left filter map].
  - rewrite !app_nil_r. destruct out; reflexivity.
  - rewrite IH. unfold DataTransformer.step.
    destruct (Validation.valid (validateExtractedData (toJs r)));
      cbn [negb DataTransformer.valid DataTransformer.invalid map];
      rewrite <- ?app_assoc; reflexivity.
Qed.

(** X3: the transformer splits its input in two, in order: the records
    the validator accepts, and the others, each with the errors the
    validator gave, which are never none; no record is lost or
    repeated. *)
Theorem transform_partitions :
  forall raw : list MissingPerson,
    let out := DataTransformer.transform raw in
    DataTransformer.valid out
    = filter (fun r => Validation.valid (validateExtractedData (toJs r))) raw
    /\ map fst (DataTransformer.invalid out)
       = filter (fun r => negb (Validation.valid (validateExtractedData (toJs r)))) raw
    /\ Forall (fun e => snd e = Validation.errors (validateExtractedData (toJs (fst e)))
                        /\ snd e <> [])
              (DataTransformer.invalid out)
    /\ (List.length (DataTransformer.valid out)
        + List.length (DataTransformer.invalid out) = List.length raw)%nat.
Proof.
  intros raw out. unfold out, DataTransformer.transform. clear out.
  rewrite transform_from. cbn [DataTransformer.valid DataTransformer.invalid app].
  split; [reflexivity|].
  split; [rewrite map_map; apply map_id|].
  split.
  - apply Forall_forall. intros e He. apply in_map_iff in He.
    destruct He as [r [<- Hr]]. cbn [fst snd]. split; [reflexivity|].
    apply filter_In in Hr. destruct Hr as [_ Hr].
    intros Hnone. apply validateExtractedData_valid_iff_no_error_helper in Hnone.
    rewrite Hnone in Hr. discriminate.
  - rewrite length_map. apply filter_split_length.
Qed.

(** X4: an age that [validateAge] lets through is a finite number from 0
    to 150, whether it came as a number or as a text. *)
Theorem validateAge_range :
  forall (input : number + string) (r : number),
    validateAge input = Some r ->
    exists q : Q, r = Finite q /\ (0 <= q)%Q /\ (q <= 150)%Q.
Proof.
  intros input r. unfold validateAge.
  set (ageNum := match input with
                 | inl n => n
                 | inr s => match parseInt s (Some 10) with
                            | Some z => num z
                            | None => NaN
                            end
                 end).
  destruct (isNaN ageNum || num_lt ageNum (num 0) || num_gt ageNum (num 150)) eqn:E;
    [discriminate|].
  intros [= <-].
  apply orb_false_iff in E. destruct E as [E Ehi].
  apply orb_false_iff in E. destruct E as [Enan Elo].
  destruct ageNum as [|[|]|q]; try discriminate.
  exists q. split; [reflexivity|].
  cbn in Elo, Ehi. apply negb_false_iff in Elo, Ehi.
  apply Qle_bool_iff in Elo, Ehi. split; assumption.
Qed.

Lemma validateAge_range_witness :
  validateAge (inr "42") = Some (num 42)
  /\ exists q : Q, num 42 = Finite q /\ (0 <= q)%Q /\ (q <= 150)%Q.
Proof.
  assert (H : validateAge (inr "42") = Some (num 42)) by (vm_compute; reflexivity).
  split; [exact H|].
  exact (validateAge_range (inr "42") (num 42) H).
Defined.

(** [validateAge] answers null for a text without leading digits, for
    NaN, for a negative age and for an age above 150, and reads the
    leading digits of a text. *)
Example validateAge_examples :
  validateAge (inr "abc") = None
  /\ validateAge (inl NaN) = None
  /\ validateAge (inr "-1") = None
  /\ validateAge (inr "151") = None
  /\ validateAge (inl (Infinity false)) = None
  /\ validateAge (inr " 29 years") = Some (num 29)
  /\ validateAge (inl (num 150)) = Some (num 150).
Proof. vm_compute. repeat split. Qed.

Lemma containsAt_drop (p : list ascii) (c : ascii) (s : list ascii) :
  containsAt (c :: p) s = true -> containsAt p s = true.
Proof.
  induction s as [|x rest IH]; cbn [containsAt startsWith].
  - rewrite orb_false_r. discriminate.
  - intros H. apply orb_true_iff in H. destruct H as [H|H].
    + apply andb_true_iff in H. destruct H as [_ H].
      apply orb_true_iff. right.
      destruct rest as [|y rest']; cbn [containsAt].
      * destruct p; [reflexivity|discriminate H].
      * rewrite H. reflexivity.
    + apply orb_true_iff. right. apply IH. exact H.
Qed.

Lemma genderOf_is_not_female (genderStr : string) : genderOf genderStr <> female.
Proof.
  unfold genderOf.
  destruct (stringIncludes genderStr "male") eqn:Emale; [discriminate|].
  destruct (stringIncludes genderStr "female") eqn:Efemale; [|discriminate].
  unfold stringIncludes in *.
  change (chars "female") with ("f"%char :: "e"%char :: chars "male") in Efemale.
  apply containsAt_drop in Efemale. apply containsAt_drop in Efemale.
  rewrite Efemale in Emale. discriminate.
Qed.

(** X5: the gender of a row is never female: a text that contains
    "female" contains "male", which is tried first; so "female" itself is
    read as male. *)
Theorem genderOf_never_female :
  forall genderStr : string,
    genderOf genderStr <> female /\ genderOf "female" = male.
Proof.
  intros genderStr. split; [apply genderOf_is_not_female|vm_compute; reflexivity].
Qed.

Lemma lookupState_in (key : string) (table : list (string * (Q * Q))) (v : Q * Q) :
  DelhiZIPNETScraper.lookupState key table = Some v -> In v (map snd table).
Proof.
  induction table as [|[k c] rest IH]; cbn [DelhiZIPNETScraper.lookupState map snd].
  - discriminate.
  - destruct (k =? key)%string.
    + intros [= ->]. left. reflexivity.
    + intros H. right. apply IH. exact H.
Qed.

(** X6: whatever the state and the district, the pair that
    [getStateCoordinates] answers lies within the bounds of India when its
    first number is read as the latitude and its second as the longitude,
    and it is the centre of Delhi for a state the table does not know. *)
Theorem getStateCoordinates_in_India :
  forall (state : string) (district : option string),
    let c := DelhiZIPNETScraper.getStateCoordinates state district in
    isValidIndianCoordinates (Finite (fst c)) (Finite (snd c)) = true
    /\ (DelhiZIPNETScraper.lookupState (stringTrim (toUpperCase state))
                                       DelhiZIPNETScraper.stateCoords = None ->
        c = (287041 # 10000, 771025 # 10000)%Q).
Proof.
  intros state district c. unfold c, DelhiZIPNETScraper.getStateCoordinates.
  destruct (DelhiZIPNETScraper.lookupState _ _) as [v|] eqn:E.
  - split; [|discriminate].
    apply lookupState_in in E.
    assert (Hall : Forall (fun v => isValidIndianCoordinates (Finite (fst v))
                                                              (Finite (snd v)) = true)
                          (map snd DelhiZIPNETScraper.stateCoords)).
    { repeat constructor. }
    rewrite Forall_forall in Hall. apply Hall. exact E.
  - split; [vm_compute; reflexivity|reflexivity].
Qed.

Lemma getStateCoordinates_in_India_witness :
  isValidIndianCoordinates
    (Finite (fst (DelhiZIPNETScraper.getStateCoordinates " haryana " None)))
    (Finite (snd (DelhiZIPNETScraper.getStateCoordinates " haryana " None))) = true
  /\ DelhiZIPNETScraper.getStateCoordinates "Goa" (Some "Panaji")
     = (287041 # 10000, 771025 # 10000)%Q.
Proof.
  split.
  - exact (proj1 (getStateCoordinates_in_India " haryana " None)).
  - apply (proj2 (getStateCoordinates_in_India "Goa" (Some "Panaji"))).
    vm_compute. reflexivity.
Defined.

(** ** More on the HTTP client *)

(** What the loop of [fetch] does from attempt number [attempt] on, when
    [remaining] attempts are left of the three. *)
Lemma attempts_spec (env : Env) (url : string) (remaining : nat) :
  forall (attempt : nat) (lastError : option Error) (w : World),
    (attempt + remaining = 3)%nat ->
    exists k : nat,
      (k <= remaining)%nat
      /\ steps (snd (HttpClient.attempts env remaining attempt url lastError w))
         = (steps w + k)%nat
      /\ network (snd (HttpClient.attempts env remaining attempt url lastError w))
         = network w
           ++ firstn (2 * k - 1)
                     (skipn (2 * attempt)
                            [Request url; Pause 5000; Request url; Pause 10000;
                             Request url])
      /\ match fst (HttpClient.attempts env remaining attempt url lastError w) with
         | Returned html =>
             (1 <= k)%nat
             /\ exists response,
                 axiosGet env (steps w + k - 1)%nat url = Returned response
                 /\ responseStatus response = 200
                 /\ data response = html
         | Thrown e =>
             k = remaining
             /\ errorName e = "ScraperError"
             /\ errorCode e = Some "FETCH_FAILED"
             /\ forall j response,
                 (j < k)%nat ->
                 axiosGet env (steps w + j)%nat url = Returned response ->
                 responseStatus response <> 200
         end.
Proof.
  induction remaining as [|rest IH]; intros attempt lastError w Hsum.
  - exists 0%nat. cbn [HttpClient.attempts throw fst snd].
    rewrite Nat.add_0_r. cbn [Nat.mul Nat.sub firstn]. rewrite app_nil_r.
    repeat split; try reflexivity. intros j response Hj. lia.
  - cbn [HttpClient.attempts]. unfold tryCatch.
    assert (Hfail :
              forall (e : Error),
                (forall response, axiosGet env (steps w) url = Returned response ->
                                  responseStatus response <> 200) ->
                let res :=
                  ((if (attempt <? SCRAPER_CONFIG.RETRY_ATTEMPTS - 1)%nat
                    then HttpClient.pause
                           (SCRAPER_CONFIG.RETRY_DELAY_MS * (Z.of_nat attempt + 1))
                    else ret tt) ;;
                   HttpClient.attempts env rest (S attempt) url (Some e))
                    (trace (Request url) (tick w)) in
                exists k : nat,
                  (k <= S rest)%nat
                  /\ steps (snd res) = (steps w + k)%nat
                  /\ network (snd res)
                     = network w
                       ++ firstn (2 * k - 1)
                                 (skipn (2 * attempt)
                                        [Request url; Pause 5000; Request url;
                                         Pause 10000; Request url])
                  /\ match fst res with
                     | Returned html =>
                         (1 <= k)%nat
                         /\ exists response,
                             axiosGet env (steps w + k - 1)%nat url = Returned response
                             /\ responseStatus response = 200
                             /\ data response = html
                     | Thrown e =>
                         k = S rest
                         /\ errorName e = "ScraperError"
                         /\ errorCode e = Some "FETCH_FAILED"
                         /\ forall j response,
                             (j < k)%nat ->
                             axiosGet env (steps w + j)%nat url = Returned response ->
                             responseStatus response <> 200
                     end).
    { intros e Hnot res. unfold res, bind. clear res.
      set (w1 := snd ((if (attempt <? SCRAPER_CONFIG.RETRY_ATTEMPTS - 1)%nat
                       then HttpClient.pause
                              (SCRAPER_CONFIG.RETRY_DELAY_MS * (Z.of_nat attempt + 1))
                       else ret tt) (trace (Request url) (tick w)))).
      assert (Hw1 : steps w1 = S (steps w)
                    /\ network w1
                       = network w
                         ++ firstn (if (attempt <? 2)%nat then 2 else 1)
                                   (skipn (2 * attempt)
                                          [Request url; Pause 5000; Request url;
                                           Pause 10000; Request url])).
      { unfold w1.
        destruct attempt as [|[|[|a]]]; try lia;
          (split; [reflexivity|cbn; rewrite <- ?app_assoc; reflexivity]). }
      destruct Hw1 as [Hsteps Hnet].
      replace ((if (attempt <? SCRAPER_CONFIG.RETRY_ATTEMPTS - 1)%nat
                then HttpClient.pause
                       (SCRAPER_CONFIG.RETRY_DELAY_MS * (Z.of_nat attempt + 1))
                else ret tt) (trace (Request url) (tick w)))
        with (@Returned unit tt, w1)
        by (unfold w1; destruct (attempt <? _)%nat; reflexivity).
      destruct (IH (S attempt) (Some e) w1) as [k [Hk [Hs [Hn Hres]]]]; [lia|].
      assert (Hk1 : (rest = 0 -> k = 0)%nat /\ (0 < rest -> 1 <= k)%nat).
      { destruct (fst (HttpClient.attempts env rest (S attempt) url (Some e) w1));
          lia. }
      exists (S k). split; [lia|]. split; [rewrite Hs, Hsteps; lia|].
      split.
      { rewrite Hn, Hnet, <- app_assoc. f_equal.
        destruct attempt as [|[|[|a]]]; try lia;
          destruct k as [|[|[|k]]]; try lia; reflexivity. }
      destruct (fst (HttpClient.attempts env rest (S attempt) url (Some e) w1))
        as [html|err].
      - destruct Hres as [Hone [response [Hget [Hstatus Hdata]]]].
        split; [lia|]. exists response.
        replace (steps w + S k - 1)%nat with (steps w1 + k - 1)%nat
          by (rewrite Hsteps; lia).
        repeat split; assumption.
      - destruct Hres as [-> [Hname [Hcode Hall]]].
        repeat split; try assumption.
        intros j response Hj Hget.
        destruct j as [|j].
        + rewrite Nat.add_0_r in Hget. apply (Hnot response Hget).
        + apply (Hall j response); [lia|].
          rewrite Hsteps. rewrite <- Hget. f_equal. lia. }
    unfold HttpClient.attemptOnce, bind, HttpClient.get.
    destruct (axiosGet env (steps w) url) as [response|e] eqn:Eget.
    + destruct (Z.eqb_spec (responseStatus response) 200) as [Hok|Hnot].
      * exists 1%nat. cbn [ret fst snd steps tick trace network].
        split; [lia|]. split; [lia|].
        split.
        { f_equal. destruct attempt as [|[|[|a]]]; try lia; reflexivity. }
        split; [lia|]. exists response.
        replace (steps w + 1 - 1)%nat with (steps w) by lia.
        repeat split; assumption.
      * cbn [throw]. apply Hfail.
        intros response' Hget'. injection Hget' as <-. exact Hnot.
    + apply Hfail. intros response' Hget'. discriminate Hget'.
Qed.

(** X7: a fetch makes one, two or three requests, all to the same URL,
    pausing 5000 ms after the first failure and 10000 ms after the second
    and not after the third; it returns the body of the first answer with
    status 200, and throws a ScraperError with the code FETCH_FAILED only
    after three requests none of which was answered so. *)
Theorem fetch_attempts :
  forall (env : Env) (url : string) (w : World),
  exists k : nat,
    (1 <= k <= 3)%nat
    /\ steps (snd (HttpClient.fetch env url w)) = (steps w + k)%nat
    /\ network (snd (HttpClient.fetch env url w))
       = network w
         ++ firstn (2 * k - 1)
                   [Request url; Pause 5000; Request url; Pause 10000; Request url]
    /\ match fst (HttpClient.fetch env url w) with
       | Returned html =>
           exists response,
             axiosGet env (steps w + k - 1)%nat url = Returned response
             /\ responseStatus response = 200
             /\ data response = html
       | Thrown e =>
           k = 3%nat
           /\ errorName e = "ScraperError"
           /\ errorCode e = Some "FETCH_FAILED"
           /\ forall j response,
               (j < 3)%nat ->
               axiosGet env (steps w + j)%nat url = Returned response ->
               responseStatus response <> 200
       end.
Proof.
  intros env url w. unfold HttpClient.fetch.
  destruct (attempts_spec env url SCRAPER_CONFIG.RETRY_ATTEMPTS 0 None w eq_refl)
    as [k [Hk [Hs [Hn Hres]]]].
  exists k. unfold SCRAPER_CONFIG.RETRY_ATTEMPTS in *.
  destruct (fst (HttpClient.attempts env 3 0 url None w)) as [html|e].
  - destruct Hres as [Hone Hres]. repeat split; try assumption; lia.
  - destruct Hres as [-> Hres]. repeat split; try tauto; try lia.
Qed.

(** X8: when the three requests are rejected, the error thrown carries
    the message of the last rejection. *)
Theorem fetch_failed_message :
  forall (env : Env) (url : string) (w : World) (e1 e2 e3 : Error),
    axiosGet env (steps w) url = Thrown e1 ->
    axiosGet env (S (steps w)) url = Thrown e2 ->
    axiosGet env (S (S (steps w))) url = Thrown e3 ->
    fst (HttpClient.fetch env url w)
    = Thrown (ScraperError "FETCH_FAILED"
                           ("Failed to fetch after 3 attempts: " ++ message e3) url).
Proof.
  intros env url w e1 e2 e3 H1 H2 H3.
  unfold HttpClient.fetch, SCRAPER_CONFIG.RETRY_ATTEMPTS.
  cbn [HttpClient.attempts].
  unfold tryCatch, HttpClient.attemptOnce, bind, HttpClient.get, HttpClient.pause,
    ret, throw, SCRAPER_CONFIG.RETRY_ATTEMPTS.
  rewrite H1. cbn [Nat.ltb Nat.leb Nat.sub steps tick trace].
  rewrite H2. cbn [Nat.ltb Nat.leb Nat.sub steps tick trace].
  rewrite H3. cbn [Nat.ltb Nat.leb Nat.sub steps tick trace fst option_map templateString].
  reflexivity.
Qed.

Lemma fetch_failed_message_witness :
  fst (HttpClient.fetch quietHost MaharashtraScraper.SOURCE_URL emptyWorld)
  = Thrown (ScraperError "FETCH_FAILED"
                         ("Failed to fetch after 3 attempts: " ++ message networkDown)
                         MaharashtraScraper.SOURCE_URL).
Proof.
  apply (fetch_failed_message quietHost MaharashtraScraper.SOURCE_URL emptyWorld
                              networkDown networkDown networkDown);
    reflexivity.
Defined.

(** ** The digest *)

Lemma round_length (st : list Z) (kw : Z * Z) :
  List.length (Sha256.round st kw) = List.length st.
Proof.
  unfold Sha256.round.
  destruct st as [|a [|b [|c [|d [|e [|f [|g [|h [|i rest]]]]]]]]]; reflexivity.
Qed.

Lemma rounds_length (kws : list (Z * Z)) :
  forall st : list Z,
    List.length (fold_left Sha256.round kws st) = List.length st.
Proof.
  induction kws as [|kw rest IH]; intros st; cbn [fold_left]; [reflexivity|].
  rewrite IH. apply round_length.
Qed.

Lemma compress_length (st block : list Z) :
  List.length (Sha256.compress st block) = List.length st.
Proof.
  unfold Sha256.compress. rewrite length_map, length_combine, rounds_length.
  apply Nat.min_id.
Qed.

Lemma digest_length (msg : list Z) : List.length (Sha256.digest msg) = 8%nat.
Proof.
  unfold Sha256.digest.
  generalize (Sha256.blocksOf (List.length (Sha256.wordsOf (Sha256.pad msg)))
                              (Sha256.wordsOf (Sha256.pad msg))).
  intros blocks.
  assert (H : forall st, List.length (fold_left Sha256.compress blocks st)
                         = List.length st).
  { induction blocks as [|b rest IH]; intros st; cbn [fold_left]; [reflexivity|].
    rewrite IH. apply compress_length. }
  rewrite H. reflexivity.
Qed.

Lemma str_length (l : list ascii) : String.length (str l) = List.length l.
Proof.
  unfold str. induction l as [|c rest IH]; cbn; [reflexivity|].
  rewrite IH. reflexivity.
Qed.

Lemma hexWords_length (ws : list Z) :
  List.length (flat_map Sha256.hexWord ws) = (8 * List.length ws)%nat.
Proof.
  induction ws as [|x rest IH]; [reflexivity|].
  cbn [flat_map]. rewrite length_app, IH.
  unfold Sha256.hexWord. rewrite length_map, length_rev, length_seq.
  cbn [List.length]. lia.
Qed.

Lemma code_chr (z : Z) : 0 <= z < 256 -> code (chr z) = z.
Proof.
  intros Hz. unfold code, chr.
  rewrite nat_ascii_embedding by lia. apply Z2Nat.id. lia.
Qed.

Lemma hexDigit_is_hex (n : Z) :
  0 <= n < 16 ->
  let c := code (Sha256.hexDigit n) in
  (48 <= c <= 57) \/ (97 <= c <= 102).
Proof.
  intros Hn. cbn zeta. unfold Sha256.hexDigit.
  destruct (Z.ltb_spec n 10); rewrite code_chr by lia; lia.
Qed.

(** X9: the fingerprint of every record is a text of 64 characters, each
    a digit or a letter from a to f. *)
Theorem generateDataHash_is_64_hex_digits :
  forall (rt : Runtime) (p : MissingPerson),
    String.length (generateDataHash rt p) = 64%nat
    /\ Forall (fun c => (48 <= code c <= 57) \/ (97 <= code c <= 102))
              (chars (generateDataHash rt p)).
Proof.
  intros rt p. unfold generateDataHash, sha256hex, Sha256.hex. cbv zeta.
  split.
  - rewrite str_length, hexWords_length, digest_length. reflexivity.
  - unfold chars, str. rewrite list_ascii_of_string_of_list_ascii.
    apply Forall_forall. intros c Hc.
    apply in_flat_map in Hc. destruct Hc as [x [_ Hc]].
    unfold Sha256.hexWord in Hc. apply in_map_iff in Hc.
    destruct Hc as [i [<- _]].
    apply hexDigit_is_hex.
    change 15 with (Z.ones 4). rewrite Z.land_ones by lia.
    apply Z.mod_pos_bound. reflexivity.
Qed.

(** ** More on the upsert *)

(** A property of the batches that holds of no record, of one record, and
    of two batches one after the other, holds of every batch. *)
Lemma forEach_insertRecord_rel
      (env : Env) (state : string)
      (R : list MissingPerson -> DatabaseService.Counts * World
           -> DatabaseService.Counts * World -> Prop) :
  (forall x, R [] x x) ->
  (forall l1 l2 x y z, R l1 x y -> R l2 y z -> R (l1 ++ l2) x z) ->
  (forall r c w,
      exists c' w',
        DatabaseService.insertRecord env state r (c, w) = (Returned tt, (c', w'))
        /\ R [r] (c, w) (c', w')) ->
  forall records c w,
  exists c' w',
    forEach records (DatabaseService.insertRecord env state) (c, w)
    = (Returned tt, (c', w'))
    /\ R records (c, w) (c', w').
Proof.
  intros Hrefl Htrans Hstep records.
  induction records as [|r rest IH]; intros c w.
  - exists c, w. split; [reflexivity|apply Hrefl].
  - destruct (Hstep r c w) as [c1 [w1 [Hrun HR]]].
    destruct (IH c1 w1) as [c' [w' [Hrest HR']]].
    exists c', w'. cbn [forEach]. unfold bind. rewrite Hrun, Hrest.
    split; [reflexivity|].
    change (r :: rest) with ([r] ++ rest). eapply Htrans; eassumption.
Qed.

Lemma insertRecords_rel
      (env : Env) (state : string)
      (R : list MissingPerson -> DatabaseService.Counts * World
           -> DatabaseService.Counts * World -> Prop) :
  (forall x, R [] x x) ->
  (forall l1 l2 x y z, R l1 x y -> R l2 y z -> R (l1 ++ l2) x z) ->
  (forall r c w,
      exists c' w',
        DatabaseService.insertRecord env state r (c, w) = (Returned tt, (c', w'))
        /\ R [r] (c, w) (c', w')) ->
  forall records w,
  exists c' w',
    DatabaseService.insertRecords env records state w = (Returned c', w')
    /\ R records
         ({| DatabaseService.inserted := 0; DatabaseService.duplicates := 0 |}, w)
         (c', w').
Proof.
  intros Hrefl Htrans Hstep records w.
  destruct (forEach_insertRecord_rel env state R Hrefl Htrans Hstep records
              {| DatabaseService.inserted := 0; DatabaseService.duplicates := 0 |} w)
    as [c' [w' [Hrun HR]]].
  exists c', w'. unfold DatabaseService.insertRecords. rewrite Hrun.
  split; [reflexivity|exact HR].
Qed.

(** One turn of the loop either appends the record as a new document, or
    leaves every document as it was but for status and time of update. *)
Lemma insertRecord_store (env : Env) (state : string) (r : MissingPerson)
      (c : DatabaseService.Counts) (w : World) :
  exists c' w',
    DatabaseService.insertRecord env state r (c, w) = (Returned tt, (c', w'))
    /\ ((find (sameHash (dataHash r)) (db w) = None
         /\ DatabaseService.inserted c' = S (DatabaseService.inserted c)
         /\ exists doc, db w' = db w ++ [doc]
                        /\ fields doc = withDefaults r
                        /\ _id doc = freshId (db w))
        \/ (DatabaseService.inserted c' = DatabaseService.inserted c
            /\ map withoutStatus (db w') = map withoutStatus (db w)
            /\ map _id (db w') = map _id (db w))).
Proof.
  rewrite insertRecord_run.
  assert (Hids : forall docs docs', map withoutStatus docs' = map withoutStatus docs ->
                                    map _id docs' = map _id docs).
  { intros docs docs' H.
    assert (E : forall l, map _id l = map (fun t => fst (fst t)) (map withoutStatus l))
      by (intros l; rewrite map_map; reflexivity).
    rewrite (E docs), (E docs'), H. reflexivity. }
  destruct (storageFault env (steps w)).
  { eexists; eexists; split; [reflexivity|]. right. repeat split. }
  destruct (find _ (db w)) as [existing|] eqn:Efind.
  - destruct (DatabaseService.statusDiffers _ _).
    + destruct (storageFault env (S (steps w)));
        eexists; eexists; (split; [reflexivity|]); right.
      * repeat split.
      * cbn [db setDb].
        pose proof (updateFirst_withoutStatus (_id existing) (status r)
                      (clock env (S (steps w))) (db w)) as H.
        split; [reflexivity|]. split; [exact H|]. apply Hids. exact H.
    + eexists; eexists; split; [reflexivity|]. right. repeat split.
  - destruct (schemaAccepts r).
    + destruct (storageFault env (S (steps w))).
      * eexists; eexists; split; [reflexivity|]. right. repeat split.
      * destruct (geoKeysAccept r); eexists; eexists; (split; [reflexivity|]).
        -- left. split; [reflexivity|]. split; [reflexivity|].
           eexists. cbn [db setDb]. repeat split.
        -- right. repeat split.
    + eexists; eexists; split; [reflexivity|]. right. repeat split.
Qed.

(** X10: whatever the batch and the failures of the store, the upsert
    deletes nothing and rewrites nothing but status and time of update:
    the collection afterwards is the one before, each document with its
    identifier, its creation time and all its fields but the status,
    followed by as many new documents as were counted inserted, each made
    of a record of the batch. *)
Theorem insertRecords_only_appends :
  forall (env : Env) (records : list MissingPerson) (state : string) (w : World),
  exists c w' added,
    DatabaseService.insertRecords env records state w = (Returned c, w')
    /\ map withoutStatus (db w') = map withoutStatus (db w) ++ map withoutStatus added
    /\ List.length added = DatabaseService.inserted c
    /\ Forall (fun d => exists r, In r records /\ fields d = withDefaults r) added.
Proof.
  intros env records state w.
  destruct (insertRecords_rel env state
              (fun l x y =>
                 exists added,
                   map withoutStatus (db (snd y))
                   = map withoutStatus (db (snd x)) ++ map withoutStatus added
                   /\ (DatabaseService.inserted (fst y)
                       = DatabaseService.inserted (fst x) + List.length added)%nat
                   /\ Forall (fun d => exists r, In r l /\ fields d = withDefaults r)
                             added))
    with (records := records) (w := w) as [c [w' [Hrun [added [Hdb [Hcount Hfrom]]]]]].
  - intros x. exists []. cbn [map List.length]. rewrite app_nil_r.
    repeat split; [lia|constructor].
  - intros l1 l2 x y z [a1 [D1 [C1 F1]]] [a2 [D2 [C2 F2]]].
    exists (a1 ++ a2). rewrite D2, D1, map_app, length_app, <- app_assoc.
    repeat split; [lia|].
    apply Forall_app. split.
    + eapply Forall_impl; [|exact F1]. intros d [r [Hr Hf]].
      exists r. split; [apply in_or_app; left; exact Hr|exact Hf].
    + eapply Forall_impl; [|exact F2]. intros d [r [Hr Hf]].
      exists r. split; [apply in_or_app; right; exact Hr|exact Hf].
  - intros r c0 w0.
    destruct (insertRecord_store env state r c0 w0) as [c' [w1 [Hrun Hcase]]].
    exists c', w1. split; [exact Hrun|]. cbn [fst snd].
    destruct Hcase as [[_ [Hins [doc [Hdb [Hf _]]]]]|[Hins [Hdb _]]].
    + exists [doc]. rewrite Hdb, map_app. cbn [map List.length].
      repeat split; [lia|].
      constructor; [|constructor]. exists r. split; [left; reflexivity|exact Hf].
    + exists []. rewrite Hdb, app_nil_r. cbn [List.length].
      repeat split; [lia|constructor].
  - exists c, w', added. cbn [fst snd DatabaseService.inserted] in *.
    repeat split; try assumption. lia.
Qed.

Lemma NoDup_app_last {A : Type} (l : list A) (x : A) :
  NoDup l -> ~ In x l -> NoDup (l ++ [x]).
Proof.
  induction 1 as [|y rest Hy Hrest IH]; intros Hx; cbn [app].
  - constructor; [intros []|constructor].
  - constructor.
    + intros Hin. apply in_app_or in Hin. destruct Hin as [Hin|[->|[]]].
      * apply Hy. exact Hin.
      * apply Hx. left. reflexivity.
    + apply IH. intros Hin. apply Hx. right. exact Hin.
Qed.

Lemma sameHash_refl (d : Doc) : sameHash (dataHash (fields d)) d = true
                                \/ dataHash (fields d) = None.
Proof.
  unfold sameHash. destruct (dataHash (fields d)) as [h|]; [|right; reflexivity].
  left. cbn [option_eqb]. apply String.eqb_refl.
Qed.

Lemma option_eqb_hash_refl (h : option string) : option_eqb String.eqb h h = true.
Proof. destruct h as [s|]; cbn [option_eqb]; [apply String.eqb_refl|reflexivity]. Qed.

Lemma find_none_hash (h : option string) (docs : list Doc) :
  find (sameHash h) docs = None ->
  ~ In h (map (fun d => dataHash (fields d)) docs).
Proof.
  induction docs as [|d rest IH]; cbn [find map]; intros Hnone Hin; [exact Hin|].
  destruct (sameHash h d) eqn:E; [discriminate|].
  destruct Hin as [Hd|Hin]; [|exact (IH Hnone Hin)].
  unfold sameHash in E. rewrite Hd, option_eqb_hash_refl in E. discriminate.
Qed.

Lemma hashes_of_withoutStatus (docs : list Doc) :
  map (fun d => dataHash (fields d)) docs
  = map (fun t => dataHash (snd (fst t))) (map withoutStatus docs).
Proof. rewrite map_map. reflexivity. Qed.

(** X11: a collection in which no two documents have the same hash stays
    so through every batch, whatever the failures of the store. *)
Theorem insertRecords_keeps_hashes_unique :
  forall (env : Env) (records : list MissingPerson) (state : string) (w : World),
    NoDup (map (fun d => dataHash (fields d)) (db w)) ->
    exists c w',
      DatabaseService.insertRecords env records state w = (Returned c, w')
      /\ NoDup (map (fun d => dataHash (fields d)) (db w')).
Proof.
  intros env records state w Hunique.
  destruct (insertRecords_rel env state
              (fun _ x y =>
                 NoDup (map (fun d => dataHash (fields d)) (db (snd x))) ->
                 NoDup (map (fun d => dataHash (fields d)) (db (snd y)))))
    with (records := records) (w := w) as [c [w' [Hrun Hkeep]]].
  - intros x H. exact H.
  - intros l1 l2 x y z H1 H2 H. apply H2, H1, H.
  - intros r c0 w0.
    destruct (insertRecord_store env state r c0 w0) as [c' [w1 [Hrun Hcase]]].
    exists c', w1. split; [exact Hrun|]. cbn [fst snd]. intros H.
    destruct Hcase as [[Hnone [_ [doc [Hdb [Hf _]]]]]|[_ [Hdb _]]].
    + rewrite Hdb, map_app. cbn [map]. apply NoDup_app_last; [exact H|].
      rewrite Hf, dataHash_withDefaults. apply find_none_hash. exact Hnone.
    + rewrite hashes_of_withoutStatus, Hdb, <- hashes_of_withoutStatus. exact H.
  - exists c, w'. split; [exact Hrun|]. apply Hkeep. exact Hunique.
Qed.

Lemma insertRecords_keeps_hashes_unique_witness :
  NoDup (map (fun d => dataHash (fields d)) (db worldWithAshaRao))
  /\ exists c w',
      DatabaseService.insertRecords quietHost [ashaRaoOtherDetails; ashaRaoFound]
                                    "Maharashtra" worldWithAshaRao
      = (Returned c, w')
      /\ NoDup (map (fun d => dataHash (fields d)) (db w')).
Proof.
  assert (H : NoDup (map (fun d => dataHash (fields d)) (db worldWithAshaRao))).
  { repeat constructor. intros []. }
  split; [exact H|].
  exact (insertRecords_keeps_hashes_unique
           quietHost [ashaRaoOtherDetails; ashaRaoFound] "Maharashtra"
           worldWithAshaRao H).
Defined.

Lemma freshId_above (docs : list Doc) (d : Doc) :
  In d docs -> (_id d < freshId docs)%nat.
Proof.
  unfold freshId. induction docs as [|x rest IH]; cbn [map fold_right]; intros [].
  - subst x. lia.
  - specialize (IH H). lia.
Qed.

Lemma freshId_fresh (docs : list Doc) : ~ In (freshId docs) (map _id docs).
Proof.
  intros Hin. apply in_map_iff in Hin. destruct Hin as [d [Hid Hd]].
  pose proof (freshId_above docs d Hd). lia.
Qed.

(** X12: the identifiers of the stored documents stay distinct through
    every batch. *)
Theorem insertRecords_keeps_ids_unique :
  forall (env : Env) (records : list MissingPerson) (state : string) (w : World),
    NoDup (map _id (db w)) ->
    exists c w',
      DatabaseService.insertRecords env records state w = (Returned c, w')
      /\ NoDup (map _id (db w')).
Proof.
  intros env records state w Hunique.
  destruct (insertRecords_rel env state
              (fun _ x y => NoDup (map _id (db (snd x))) -> NoDup (map _id (db (snd y)))))
    with (records := records) (w := w) as [c [w' [Hrun Hkeep]]].
  - intros x H. exact H.
  - intros l1 l2 x y z H1 H2 H. apply H2, H1, H.
  - intros r c0 w0.
    destruct (insertRecord_store env state r c0 w0) as [c' [w1 [Hrun Hcase]]].
    exists c', w1. split; [exact Hrun|]. cbn [fst snd]. intros H.
    destruct Hcase as [[_ [_ [doc [Hdb [_ Hid]]]]]|[_ [_ Hids]]].
    + rewrite Hdb, map_app. cbn [map]. apply NoDup_app_last; [exact H|].
      rewrite Hid. apply freshId_fresh.
    + rewrite Hids. exact H.
  - exists c, w'. split; [exact Hrun|]. apply Hkeep. exact Hunique.
Qed.

Lemma insertRecords_keeps_ids_unique_witness :
  NoDup (map _id (db worldWithAshaRao))
  /\ exists c w',
      DatabaseService.insertRecords faultyHost [ashaRaoOtherDetails; ashaRaoFound]
                                    "Maharashtra" worldWithAshaRao
      = (Returned c, w')
      /\ NoDup (map _id (db w')).
Proof.
  assert (H : NoDup (map _id (db worldWithAshaRao))).
  { repeat constructor. intros []. }
  split; [exact H|].
  exact (insertRecords_keeps_ids_unique
           faultyHost [ashaRaoOtherDetails; ashaRaoFound] "Maharashtra"
           worldWithAshaRao H).
Defined.

(** X13: when the store rejects no call and every record of the batch
    passes the schema and the index on the coordinates, nothing is logged
    and every record is counted exactly once: inserted + duplicates is the
    size of the batch. *)
Theorem insertRecords_counts_every_record :
  forall (env : Env) (records : list MissingPerson) (state : string) (w : World),
    (forall n, storageFault env n = None) ->
    Forall (fun r => schemaAccepts r && geoKeysAccept r = true) records ->
    exists c w',
      DatabaseService.insertRecords env records state w = (Returned c, w')
      /\ (DatabaseService.inserted c + DatabaseService.duplicates c
          = List.length records)%nat
      /\ errorLog w' = errorLog w.
Proof.
  intros env records state w Hstore Hok.
  destruct (insertRecords_rel env state
              (fun l x y =>
                 Forall (fun r => schemaAccepts r && geoKeysAccept r = true) l ->
                 (DatabaseService.inserted (fst y) + DatabaseService.duplicates (fst y)
                  = DatabaseService.inserted (fst x) + DatabaseService.duplicates (fst x)
                    + List.length l)%nat
                 /\ errorLog (snd y) = errorLog (snd x)))
    with (records := records) (w := w) as [c [w' [Hrun Hcount]]].
  - intros x _. cbn [List.length]. split; [lia|reflexivity].
  - intros l1 l2 x y z H1 H2 H. apply Forall_app in H. destruct H as [F1 F2].
    destruct (H1 F1) as [A1 B1]. destruct (H2 F2) as [A2 B2].
    rewrite length_app. split; [lia|congruence].
  - intros r c0 w0. rewrite insertRecord_run. rewrite !Hstore.
    destruct (find _ (db w0)) as [existing|].
    + destruct (DatabaseService.statusDiffers _ _);
        eexists; eexists; (split; [reflexivity|]); intros _;
        cbn [fst snd DatabaseService.countDuplicate DatabaseService.inserted
             DatabaseService.duplicates List.length];
        (split; [lia|reflexivity]).
    + destruct (schemaAccepts r) eqn:Es; destruct (geoKeysAccept r) eqn:Eg;
        eexists; eexists; (split; [reflexivity|]); intros H;
        inversion H as [|? ? Hr _]; subst;
        try (rewrite Es, Eg in Hr; discriminate Hr).
      cbn [fst snd DatabaseService.countInserted DatabaseService.inserted
           DatabaseService.duplicates List.length].
      split; [lia|reflexivity].
  - exists c, w'. split; [exact Hrun|].
    destruct (Hcount Hok) as [A B]. cbn [fst snd DatabaseService.inserted
                                         DatabaseService.duplicates] in A, B.
    split; [lia|exact B].
Qed.

Lemma insertRecords_counts_every_record_witness :
  exists c w',
    DatabaseService.insertRecords quietHost [ashaRao; ashaRaoFound; ashaRaoOtherDetails]
                                  "Maharashtra" emptyWorld
    = (Returned c, w')
    /\ (DatabaseService.inserted c + DatabaseService.duplicates c
        = List.length [ashaRao; ashaRaoFound; ashaRaoOtherDetails])%nat
    /\ errorLog w' = errorLog emptyWorld.
Proof.
  apply (insertRecords_counts_every_record
           quietHost [ashaRao; ashaRaoFound; ashaRaoOtherDetails] "Maharashtra"
           emptyWorld).
  - intros n. reflexivity.
  - repeat constructor; vm_compute; reflexivity.
Defined.

Lemma find_replace (p : Doc -> bool) (before after : list Doc) (d' : Doc) :
  (forall x, In x before -> p x = false) ->
  p d' = true ->
  find p (before ++ d' :: after) = Some d'.
Proof.
  induction before as [|x rest IH]; cbn [app find]; intros Hb Hd.
  - rewrite Hd. reflexivity.
  - rewrite (Hb x (or_introl eq_refl)). apply IH; [|exact Hd].
    intros y Hy. apply Hb. right. exact Hy.
Qed.

Lemma statusDiffers_false (a b : option MissingPersonStatus) :
  DatabaseService.statusDiffers a b = false -> a = b.
Proof.
  unfold DatabaseService.statusDiffers.
  destruct a as [[|]|]; destruct b as [[|]|]; cbn; intros H;
    try reflexivity; discriminate.
Qed.

(** X14: after the upsert of a record that carries a status and passes
    the schema, the store rejecting neither call, the document found
    under the hash of the record has the status of the record, whether it
    was inserted, updated or left alone. *)
Theorem upsert_stores_the_status :
  forall (env : Env) (state : string) (r : MissingPerson) (s : MissingPersonStatus)
         (w : World),
    NoDup (map _id (db w)) ->
    status r = Some s ->
    schemaAccepts r = true ->
    geoKeysAccept r = true ->
    storageFault env (steps w) = None ->
    storageFault env (S (steps w)) = None ->
    exists c w' d,
      DatabaseService.insertRecords env [r] state w = (Returned c, w')
      /\ find (sameHash (dataHash r)) (db w') = Some d
      /\ status (fields d) = Some s
      /\ errorLog w' = errorLog w.
Proof.
  intros env state r s w Hids Hs Hschema Hgeo H0 H1.
  rewrite insertRecords_single, insertRecord_run, H0, H1, Hschema, Hgeo.
  destruct (schemaAccepts_dataHash r Hschema) as [h Hh].
  destruct (find (sameHash (dataHash r)) (db w)) as [existing|] eqn:Efind.
  - destruct (find_split _ _ _ Efind) as [before [after [Hdb [Hmatch Hbefore]]]].
    destruct (DatabaseService.statusDiffers _ _) eqn:Ediff.
    + eexists; eexists;
        exists (applyUpdate (status r) (clock env (S (steps w))) existing).
      split; [reflexivity|]. cbn [db setDb]. split.
      * rewrite Hdb, updateFirst_at by (rewrite <- Hdb; exact Hids).
        apply find_replace; [exact Hbefore|].
        unfold sameHash in *. rewrite Hs. exact Hmatch.
      * split; [rewrite Hs; reflexivity|reflexivity].
    + eexists; eexists; exists existing.
      split; [reflexivity|]. cbn [db tick].
      split; [exact Efind|]. split; [|reflexivity].
      apply statusDiffers_false in Ediff. rewrite <- Ediff. exact Hs.
  - eexists; eexists; eexists. split; [reflexivity|]. cbn [db setDb].
    split; [|split; [|reflexivity]].
    + apply find_app_last; [exact Efind|].
      unfold sameHash. cbn [fields]. rewrite dataHash_withDefaults.
      apply option_eqb_hash_refl.
    + cbn [fields]. unfold withDefaults. rewrite Hs. exact Hs.
Qed.

Lemma upsert_stores_the_status_witness :
  exists c w' d,
    DatabaseService.insertRecords quietHost [ashaRaoFound] "Maharashtra" worldWithAshaRao
    = (Returned c, w')
    /\ find (sameHash (dataHash ashaRaoFound)) (db w') = Some d
    /\ status (fields d) = Some found
    /\ errorLog w' = errorLog worldWithAshaRao.
Proof.
  apply (upsert_stores_the_status quietHost "Maharashtra" ashaRaoFound found
                                  worldWithAshaRao);
    try (vm_compute; reflexivity).
  repeat constructor. intros [].
Defined.

(** ** More on the aggregations *)

Ltac sum_cons :=
  repeat match goal with
         | |- context [list_sum (?x :: ?l)] =>
             change (list_sum (x :: l)) with (x + list_sum l)%nat
         end.

Lemma addToGroup_total {K : Type} (eqb : K -> K -> bool) (k : K) (d : Doc)
      (groups : list (K * list Doc)) :
  list_sum (map (fun g => List.length (snd g)) (addToGroup eqb k d groups))
  = S (list_sum (map (fun g => List.length (snd g)) groups)).
Proof.
  induction groups as [|[k' ds] rest IH]; cbn [addToGroup]; [reflexivity|].
  destruct (eqb k' k); cbn [map snd]; sum_cons.
  - rewrite length_app. cbn [List.length]. lia.
  - rewrite IH. lia.
Qed.

Lemma addToGroup_nonempty {K : Type} (eqb : K -> K -> bool) (k : K) (d : Doc)
      (groups : list (K * list Doc)) :
  Forall (fun g => snd g <> []) groups ->
  Forall (fun g => snd g <> []) (addToGroup eqb k d groups).
Proof.
  induction 1 as [|[k' ds] rest Hg Hrest IH]; cbn [addToGroup].
  - constructor; [discriminate|constructor].
  - destruct (eqb k' k); constructor; try assumption.
    cbn [snd]. destruct ds; discriminate.
Qed.

(** [$group] loses no document and puts out no empty group. *)
Lemma groupBy_total {K : Type} (eqb : K -> K -> bool) (key : Doc -> K)
      (docs : list Doc) :
  list_sum (map (fun g => List.length (snd g)) (groupBy eqb key docs))
  = List.length docs
  /\ Forall (fun g => snd g <> []) (groupBy eqb key docs).
Proof.
  unfold groupBy.
  assert (H : forall groups,
             Forall (fun g => snd g <> []) groups ->
             list_sum (map (fun g => List.length (snd g))
                           (fold_left (fun gs d => addToGroup eqb (key d) d gs)
                                      docs groups))
             = (list_sum (map (fun g => List.length (snd g)) groups)
                + List.length docs)%nat
             /\ Forall (fun g => snd g <> [])
                       (fold_left (fun gs d => addToGroup eqb (key d) d gs)
                                  docs groups)).
  { induction docs as [|d rest IH]; intros groups Hne; cbn [fold_left List.length].
    - split; [lia|exact Hne].
    - destruct (IH (addToGroup eqb (key d) d groups)) as [A B].
      + apply addToGroup_nonempty. exact Hne.
      + split; [rewrite A, addToGroup_total; lia|exact B]. }
  destruct (H [] (Forall_nil _)) as [A B]. split; [exact A|exact B].
Qed.

Lemma insertSorted_sum {A : Type} (before : A -> A -> bool) (f : A -> nat) (x : A)
      (l : list A) :
  list_sum (map f (insertSorted before x l)) = (f x + list_sum (map f l))%nat.
Proof.
  induction l as [|y rest IH]; cbn [insertSorted map]; sum_cons; [cbn; lia|].
  destruct (before x y); cbn [map]; sum_cons; [lia|]. rewrite IH. lia.
Qed.

Lemma sortBy_sum {A : Type} (before : A -> A -> bool) (f : A -> nat) (l : list A) :
  list_sum (map f (sortBy before l)) = list_sum (map f l).
Proof.
  induction l as [|x rest IH]; [reflexivity|].
  cbn [sortBy fold_right map]. fold (sortBy before rest). sum_cons.
  rewrite insertSorted_sum, IH. reflexivity.
Qed.

Lemma insertSorted_sorted {A : Type} (before : A -> A -> bool) (x : A) (l : list A) :
  (forall a b, before a b = false -> before b a = true) ->
  Sorted (fun a b => before a b = true) l ->
  Sorted (fun a b => before a b = true) (insertSorted before x l).
Proof.
  intros Htotal. induction 1 as [|y rest Hrest IH Hhd]; cbn [insertSorted].
  - constructor; constructor.
  - destruct (before x y) eqn:E.
    + constructor; [constructor; assumption|constructor; exact E].
    + constructor; [exact IH|].
      destruct rest as [|z rest']; cbn [insertSorted].
      * constructor. apply Htotal. exact E.
      * destruct (before x z); constructor.
        -- apply Htotal. exact E.
        -- inversion Hhd; assumption.
Qed.

(** [$sort] puts the list in order, when of two items one may always
    stand before the other. *)
Lemma sortBy_sorted {A : Type} (before : A -> A -> bool) (l : list A) :
  (forall a b, before a b = false -> before b a = true) ->
  Sorted (fun a b => before a b = true) (sortBy before l).
Proof.
  intros Htotal. induction l as [|x rest IH]; [constructor|].
  cbn [sortBy fold_right]. fold (sortBy before rest).
  apply insertSorted_sorted; assumption.
Qed.

Lemma firstn_sorted {A : Type} (R : A -> A -> Prop) (l : list A) :
  Sorted R l -> forall n, Sorted R (firstn n l).
Proof.
  induction 1 as [|x rest Hrest IH Hhd]; intros n.
  - rewrite firstn_nil. constructor.
  - destruct n as [|n]; cbn [firstn]; [constructor|].
    constructor; [apply IH|].
    destruct rest as [|y rest']; [rewrite firstn_nil; constructor|].
    destruct n; cbn [firstn]; constructor. inversion Hhd; assumption.
Qed.

(** X15: unless the store rejects the call, [getStatistics] answers and
    leaves the collection as it is; the total is the number of stored
    documents, and the counts by status, like the counts by state, add up
    to it; the states come by decreasing count. *)
Theorem getStatistics_totals :
  forall (env : Env) (w : World),
    storageFault env (steps w) = None ->
    exists stats,
      DatabaseService.getStatistics env w = (Returned stats, tick w)
      /\ DatabaseService.totalRecords stats = List.length (db w)
      /\ list_sum (map snd (DatabaseService.byStatus stats)) = List.length (db w)
      /\ list_sum (map snd (DatabaseService.byState stats)) = List.length (db w)
      /\ Sorted (fun x y => (snd y <= snd x)%nat) (DatabaseService.byState stats).
Proof.
  intros env w Hok.
  unfold DatabaseService.getStatistics, MissingPersonModel.storageCall.
  rewrite Hok. eexists. split; [reflexivity|].
  cbn [DatabaseService.totalRecords DatabaseService.byStatus DatabaseService.byState
       db tick].
  split; [reflexivity|].
  assert (Hcounts : forall (K : Type) (groups : list (K * list Doc)),
             map snd (DatabaseService.countGroups groups)
             = map (fun g => List.length (snd g)) groups).
  { intros K groups. unfold DatabaseService.countGroups. rewrite map_map. reflexivity. }
  split; [|split].
  - rewrite Hcounts. apply groupBy_total.
  - rewrite sortBy_sum, Hcounts. apply groupBy_total.
  - pose proof (sortBy_sorted
                  (fun x y : option string * nat => (snd y <=? snd x)%nat)
                  (DatabaseService.countGroups
                     (groupBy (option_eqb String.eqb)
                              (fun d => sourceState (fields d)) (db w)))) as Hsorted.
    eapply Sorted_ind with (P := fun l => Sorted (fun x y => (snd y <= snd x)%nat) l)
                           in Hsorted.
    + exact Hsorted.
    + constructor.
    + intros a l _ Hl Hhd. constructor; [exact Hl|].
      destruct Hhd; constructor. apply Nat.leb_le. assumption.
    + intros a b Hab. apply Nat.leb_gt in Hab. apply Nat.leb_le. lia.
Qed.

Lemma getStatistics_totals_witness :
  exists stats,
    DatabaseService.getStatistics quietHost afterFirstRun
    = (Returned stats, tick afterFirstRun)
    /\ DatabaseService.totalRecords stats = List.length (db afterFirstRun)
    /\ list_sum (map snd (DatabaseService.byStatus stats)) = List.length (db afterFirstRun)
    /\ list_sum (map snd (DatabaseService.byState stats)) = List.length (db afterFirstRun)
    /\ Sorted (fun x y => (snd y <= snd x)%nat) (DatabaseService.byState stats).
Proof.
  apply (getStatistics_totals quietHost afterFirstRun). reflexivity.
Defined.

Lemma risk_at_least_half (m : nat) :
  (1 <= m)%nat ->
  (50 <= inject_Z (Z.of_nat m) / inject_Z (Z.of_nat (m + 0 + 1)) * 100)%Q.
Proof.
  intros Hm.
  assert (Hpos : (0 < inject_Z (Z.of_nat (m + 0 + 1)))%Q) by (unfold Qlt; simpl; lia).
  setoid_replace 50%Q with ((1 # 2) * 100)%Q by reflexivity.
  apply Qmult_le_compat_r; [|unfold Qle; simpl; lia].
  apply Qle_shift_div_l; [exact Hpos|].
  unfold Qle, Qmult, inject_Z. simpl.
  destruct (Z.of_nat (m + 0 + 1)) eqn:E; lia.
Qed.

(** X16: the hotspots route answers at most 20 hotspots, by decreasing
    number of missing persons; each has at least one missing person, and
    its risk score, missing / (missing + 1) * 100 since no found record
    is counted, lies between 50 and 100. *)
Theorem hotspots_shape :
  forall (now : Z) (docs : list Doc),
    exists hs,
      Analytics.hotspots now docs = Some hs
      /\ (List.length hs <= 20)%nat
      /\ Sorted (fun x y => (Analytics.missingCount y <= Analytics.missingCount x)%nat) hs
      /\ Forall (fun h =>
                   (1 <= Analytics.missingCount h)%nat
                   /\ Analytics.hotspotRiskScore h
                      = (inject_Z (Z.of_nat (Analytics.missingCount h))
                         / inject_Z (Z.of_nat (Analytics.missingCount h + 0 + 1))
                         * 100)%Q
                   /\ (50 <= Analytics.hotspotRiskScore h)%Q
                   /\ (Analytics.hotspotRiskScore h < 100)%Q) hs.
Proof.
  intros now docs. unfold Analytics.hotspots.
  set (groups := groupBy (option_eqb String.eqb) (fun d => sourceState (fields d))
                         (Analytics.recentMissing now docs)).
  destruct (allOf_map_total Analytics.hotspotOf groups hotspotOf_total) as [r Hr].
  rewrite Hr. cbn [option_map]. eexists. split; [reflexivity|].
  split; [apply firstn_le_length|].
  split.
  - apply firstn_sorted.
    pose proof (sortBy_sorted
                  (fun x y => (Analytics.missingCount y <=? Analytics.missingCount x)%nat)
                  r) as Hsorted.
    eapply Sorted_ind
      with (P := fun l => Sorted (fun x y => (Analytics.missingCount y
                                              <= Analytics.missingCount x)%nat) l)
      in Hsorted.
    + exact Hsorted.
    + constructor.
    + intros a l _ Hl Hhd. constructor; [exact Hl|].
      destruct Hhd; constructor. apply Nat.leb_le. assumption.
    + intros a b Hab. apply Nat.leb_gt in Hab. apply Nat.leb_le. lia.
  - apply Forall_forall. intros h Hh.
    apply firstn_incl in Hh. apply sortBy_In in Hh.
    destruct (allOf_map_In _ _ _ _ Hr Hh) as [g [Hg Hgh]].
    assert (Hfound : countStatus found (snd g) = 0%nat).
    { apply countStatus_found_of_missing. intros d Hd.
      assert (Hin : In d (Analytics.recentMissing now docs))
        by (eapply groupBy_members; eassumption).
      unfold Analytics.recentMissing in Hin. apply filter_In in Hin.
      destruct Hin as [_ Hkeep]. apply andb_true_iff in Hkeep. tauto. }
    assert (Hne : (1 <= List.length (snd g))%nat).
    { destruct (groupBy_total (option_eqb String.eqb)
                              (fun d => sourceState (fields d))
                              (Analytics.recentMissing now docs)) as [_ Hall].
      rewrite Forall_forall in Hall. specialize (Hall g Hg).
      destruct (snd g); [contradiction|cbn; lia]. }
    unfold Analytics.hotspotOf in Hgh. rewrite Hfound in Hgh.
    unfold Analytics.riskScore in Hgh. rewrite rate_value in Hgh.
    injection Hgh as <-.
    cbn [Analytics.missingCount Analytics.hotspotRiskScore].
    split; [exact Hne|]. split; [reflexivity|].
    split; [apply risk_at_least_half; exact Hne|].
    apply rate_bounds. lia.
Qed.

Lemma countStatus_sum (docs : list Doc) :
  (countStatus missing docs + countStatus found docs <= List.length docs)%nat.
Proof.
  unfold countStatus. induction docs as [|d rest IH]; [cbn; lia|].
  cbn [filter].
  assert (H : hasStatus missing d && hasStatus found d = false)
    by (unfold hasStatus; destruct (status (fields d)) as [[|]|]; reflexivity).
  destruct (hasStatus missing d); destruct (hasStatus found d);
    cbn [List.length]; try discriminate H; lia.
Qed.

Lemma bucketOf_cases (d : Doc) :
  In (Analytics.bucketOf d)
     [Some 0; Some 10; Some 20; Some 30; Some 40; Some 50; Some 100; None].
Proof.
  unfold Analytics.bucketOf.
  destruct (age (fields d)) as [[| |a]|]; try (cbn; tauto).
  unfold Analytics.boundaries. cbn [Analytics.bucketFrom].
  repeat match goal with
         | |- context [if ?c then _ else _] => destruct c; [cbn; tauto|]
         end.
  cbn; tauto.
Qed.

Lemma bucket_entry_sum (b : option Z) (l : list Doc) (c : nat)
      (rest : list (option Z * nat * nat)) :
  list_sum (map (fun x => snd (fst x))
                (match l with
                 | [] => []
                 | _ => [(b, List.length l, c)]
                 end ++ rest))
  = (List.length l + list_sum (map (fun x => snd (fst x)) rest))%nat.
Proof. destruct l; reflexivity. Qed.

(** [$bucket] puts every document in one bucket. *)
Lemma buckets_total (docs : list Doc) :
  list_sum (map (fun x => snd (fst x)) (Analytics.buckets docs)) = List.length docs.
Proof.
  unfold Analytics.buckets, Analytics.boundaries.
  cbn [removelast map app flat_map].
  rewrite !bucket_entry_sum. cbn [map list_sum fold_right].
  induction docs as [|d rest IH]; [reflexivity|].
  cbn [filter List.length].
  pose proof (bucketOf_cases d) as Hcase. cbn [In] in Hcase.
  repeat (destruct Hcase as [<-|Hcase];
          [cbn [Analytics.option_Z_eqb option_eqb Z.eqb Pos.eqb List.length]; lia|]).
  contradiction.
Qed.

Lemma avgDouble_none (values : list (option number)) :
  avgDouble values = None <-> Forall (fun v => v = None) values.
Proof.
  unfold avgDouble.
  set (numbers := flat_map (fun v => match v with Some n => [n] | None => [] end) values).
  assert (H : numbers = [] <-> Forall (fun v => v = None) values).
  { unfold numbers. clear numbers.
    induction values as [|[n|] rest IH]; cbn [flat_map app].
    - split; [constructor|reflexivity].
    - split; [discriminate|]. intros H. inversion H; discriminate.
    - rewrite IH. split; [constructor; [reflexivity|assumption]|].
      intros H. inversion H; assumption. }
  destruct numbers as [|n rest]; split; intros E.
  - apply H. reflexivity.
  - reflexivity.
  - discriminate E.
  - apply H in E. discriminate E.
Qed.

(** X17: the statistics route hands a TypeError to [next] exactly when the
    collection is empty or no document has an age; otherwise it answers:
    the total is the number of documents, missing and found together do
    not exceed it, and the counts by gender, by state and by age range
    each add up to it. *)
Theorem statistics_answer :
  forall docs : list Doc,
    match Analytics.statistics docs with
    | Thrown e =>
        errorName e = "TypeError"
        /\ (docs = [] \/ Forall (fun d => age (fields d) = None) docs)
    | Returned r =>
        docs <> []
        /\ Exists (fun d => age (fields d) <> None) docs
        /\ Analytics.total (Analytics.totals r) = List.length docs
        /\ Analytics.missingTotal (Analytics.totals r) = countStatus missing docs
        /\ Analytics.foundTotal (Analytics.totals r) = countStatus found docs
        /\ (Analytics.missingTotal (Analytics.totals r)
            + Analytics.foundTotal (Analytics.totals r)
            <= Analytics.total (Analytics.totals r))%nat
        /\ list_sum (map (fun x => snd (fst x)) (Analytics.byGender r))
           = List.length docs
        /\ list_sum (map (fun x => snd (fst (fst x))) (Analytics.byState r))
           = List.length docs
        /\ list_sum (map (fun x => snd (fst x)) (Analytics.ageRanges r))
           = List.length docs
    end.
Proof.
  intros docs. unfold Analytics.statistics.
  destruct docs as [|d rest]; [split; [reflexivity|left; reflexivity]|].
  set (docs := d :: rest).
  destruct (avgDouble (map (fun x => age (fields x)) docs)) as [a|] eqn:Eavg.
  - cbn [Analytics.totals Analytics.total Analytics.missingTotal Analytics.foundTotal
         Analytics.byGender Analytics.byState Analytics.ageRanges].
    split; [discriminate|].
    split.
    { apply neg_Forall_Exists_neg.
      - intros x. destruct (age (fields x)); [right; discriminate|left; reflexivity].
      - intros Hall.
        assert (Hnone : avgDouble (map (fun x => age (fields x)) docs) = None).
        { apply avgDouble_none. apply Forall_map. exact Hall. }
        rewrite Hnone in Eavg. discriminate Eavg. }
    split; [reflexivity|]. split; [reflexivity|]. split; [reflexivity|].
    split; [apply countStatus_sum|].
    split; [|split; [|apply buckets_total]].
    + rewrite sortBy_sum, map_map. cbn [fst snd]. apply groupBy_total.
    + rewrite sortBy_sum, map_map. cbn [fst snd]. apply groupBy_total.
  - split; [reflexivity|]. right.
    apply avgDouble_none in Eavg. apply Forall_map in Eavg. exact Eavg.
Qed.

(** *** [$group] and [$sort], when the test of the keys is equality *)

Lemma filter_none {A : Type} (p : A -> bool) (l : list A) :
  (forall x, In x l -> p x = false) -> filter p l = [].
Proof.
  induction l as [|a rest IH]; intros H; [reflexivity|].
  cbn [filter]. rewrite (H a (or_introl eq_refl)).
  apply IH. intros x Hx. apply H. right. exact Hx.
Qed.

Section Grouping.

Context {K : Type}.
Variable eqb : K -> K -> bool.
Variable key : Doc -> K.
Hypothesis eqb_eq : forall a b, eqb a b = true <-> a = b.

Lemma existsb_key (k : K) (groups : list (K * list Doc)) :
  existsb (fun g => eqb (fst g) k) groups = true <-> In k (map fst groups).
Proof.
  rewrite existsb_exists, in_map_iff. split.
  - intros [g [Hg E]]. apply eqb_eq in E. exists g. split; assumption.
  - intros [g [E Hg]]. exists g. split; [exact Hg|apply eqb_eq; exact E].
Qed.

Lemma addToGroup_fst (k : K) (d : Doc) (groups : list (K * list Doc)) :
  map fst (addToGroup eqb k d groups)
  = if existsb (fun g => eqb (fst g) k) groups then map fst groups
    else map fst groups ++ [k].
Proof.
  induction groups as [|[k' ds] rest IH]; cbn [addToGroup existsb map fst app];
    [reflexivity|].
  destruct (eqb k' k); cbn [orb map fst]; [reflexivity|].
  rewrite IH. destruct (existsb _ rest); reflexivity.
Qed.

(** What a group holds after a document has been added. *)
Lemma addToGroup_docs (k : K) (d : Doc) (groups : list (K * list Doc))
      (g : K * list Doc) :
  NoDup (map fst groups) ->
  In g (addToGroup eqb k d groups) ->
  (fst g <> k /\ In g groups)
  \/ (fst g = k
      /\ ((exists ds, In (k, ds) groups /\ snd g = ds ++ [d])
          \/ (~ In k (map fst groups) /\ snd g = [d]))).
Proof.
  induction groups as [|[k' ds] rest IH]; cbn [addToGroup map fst]; intros Hnd Hg.
  - destruct Hg as [<-|[]]. right. split; [reflexivity|].
    right. split; [intros []|reflexivity].
  - inversion Hnd as [|? ? Hnotin Hrest]; subst.
    destruct (eqb k' k) eqn:E.
    + apply eqb_eq in E. subst k'. destruct Hg as [<-|Hg].
      * right. split; [reflexivity|]. left. exists ds.
        split; [left; reflexivity|reflexivity].
      * left. split; [|right; exact Hg].
        intros Hk. apply Hnotin. rewrite <- Hk. apply in_map. exact Hg.
    + assert (Hne : k' <> k).
      { intros Hk. apply eqb_eq in Hk. congruence. }
      destruct Hg as [<-|Hg].
      * left. split; [exact Hne|left; reflexivity].
      * destruct (IH Hrest Hg) as [[A B]|[A [[ds' [B C]]|[B C]]]].
        -- left. split; [exact A|right; exact B].
        -- right. split; [exact A|]. left. exists ds'. split; [right; exact B|exact C].
        -- right. split; [exact A|]. right. split; [|exact C].
           intros [Hk|Hk]; [exact (Hne Hk)|exact (B Hk)].
Qed.

Lemma filter_last (p : Doc -> bool) (l : list Doc) (d : Doc) :
  filter p (l ++ [d]) = filter p l ++ (if p d then [d] else []).
Proof. rewrite filter_app. reflexivity. Qed.

(** The groups while the documents are put in: the keys are distinct,
    each group holds the documents of its key in their order, and every
    document is in the group of its key. *)
Lemma groupBy_from (docs : list Doc) :
  forall (processed : list Doc) (groups : list (K * list Doc)),
    NoDup (map fst groups) ->
    (forall g, In g groups ->
               snd g = filter (fun x => eqb (fst g) (key x)) processed) ->
    (forall x, In x processed -> In (key x) (map fst groups)) ->
    let result := fold_left (fun gs d => addToGroup eqb (key d) d gs) docs groups in
    NoDup (map fst result)
    /\ (forall g, In g result ->
                  snd g = filter (fun x => eqb (fst g) (key x)) (processed ++ docs))
    /\ (forall x, In x (processed ++ docs) -> In (key x) (map fst result)).
Proof.
  induction docs as [|d rest IH]; intros processed groups I1 I2 I3; cbn [fold_left].
  - rewrite app_nil_r. repeat split; assumption.
  - replace (processed ++ d :: rest) with ((processed ++ [d]) ++ rest)
      by (rewrite <- app_assoc; reflexivity).
    apply IH.
    + rewrite addToGroup_fst.
      destruct (existsb _ groups) eqn:E; [exact I1|].
      apply NoDup_app_last; [exact I1|].
      intros Hin. apply existsb_key in Hin. congruence.
    + intros g Hg. rewrite filter_last.
      destruct (addToGroup_docs _ _ _ _ I1 Hg) as [[A B]|[A [[ds [B C]]|[B C]]]].
      * rewrite <- (I2 g B).
        destruct (eqb (fst g) (key d)) eqn:E;
          [apply eqb_eq in E; contradiction|symmetry; apply app_nil_r].
      * rewrite C, A. rewrite (proj2 (eqb_eq (key d) (key d)) eq_refl).
        f_equal. exact (I2 _ B).
      * rewrite C, A. rewrite (proj2 (eqb_eq (key d) (key d)) eq_refl).
        replace (filter (fun x => eqb (key d) (key x)) processed) with (@nil Doc);
          [reflexivity|].
        symmetry. apply filter_none.
        intros x Hx. destruct (eqb (key d) (key x)) eqn:E; [|reflexivity].
        apply eqb_eq in E. exfalso. apply B. rewrite E. apply I3. exact Hx.
    + intros x Hx. rewrite addToGroup_fst.
      apply in_app_or in Hx.
      destruct (existsb _ groups) eqn:E.
      * destruct Hx as [Hx|[<-|[]]]; [apply I3; exact Hx|].
        apply existsb_key. exact E.
      * apply in_or_app. destruct Hx as [Hx|[<-|[]]].
        -- left. apply I3. exact Hx.
        -- right. left. reflexivity.
Qed.

(** [$group]: one group for each key, holding the documents of that key. *)
Lemma groupBy_spec (docs : list Doc) :
  NoDup (map fst (groupBy eqb key docs))
  /\ (forall g, In g (groupBy eqb key docs) ->
                snd g = filter (fun x => eqb (fst g) (key x)) docs)
  /\ (forall x, In x docs -> In (key x) (map fst (groupBy eqb key docs))).
Proof.
  apply (groupBy_from docs [] []).
  - constructor.
  - intros g [].
  - intros x [].
Qed.

End Grouping.


Lemma civilFromDays_ranges (z : Z) :
  1 <= snd (fst (Calendar.civilFromDays z)) <= 12
  /\ 1 <= snd (Calendar.civilFromDays z) <= 31.
Proof.
  unfold Calendar.civilFromDays. cbv zeta. cbn [fst snd].
  set (doe := z + 719468 - (z + 719468) / 146097 * 146097).
  assert (Hdoe : 0 <= doe <= 146096) by (unfold doe; Z.div_mod_to_equations; lia).
  clearbody doe.
  set (yoe := (doe - doe / 1460 + doe / 36524 - doe / 146096) / 365).
  assert (Hyoe : 0 <= yoe <= 399) by (unfold yoe; Z.div_mod_to_equations; lia).
  set (doy := doe - (365 * yoe + yoe / 4 - yoe / 100)).
  assert (Hdoy : 0 <= doy <= 365)
    by (unfold doy, yoe; Z.div_mod_to_equations; lia).
  clearbody doy.
  set (mp := (5 * doy + 2) / 153).
  assert (Hmp : 0 <= mp <= 11) by (unfold mp; Z.div_mod_to_equations; lia).
  destruct (mp <? 10) eqn:E;
    (split; [lia|unfold mp in *; Z.div_mod_to_equations; lia]).
Qed.


Lemma Sorted_map {A B : Type} (R : A -> A -> Prop) (S : B -> B -> Prop) (g : A -> B)
      (l : list A) :
  (forall a b, R a b -> S (g a) (g b)) ->
  Sorted R l -> Sorted S (map g l).
Proof.
  intros Hg. induction 1 as [|x rest Hrest IH Hhd]; cbn [map]; constructor.
  - exact IH.
  - destruct Hhd; cbn [map]; constructor. apply Hg. assumption.
Qed.


Lemma insertSorted_perm {A : Type} (before : A -> A -> bool) (x : A) (l : list A) :
  Permutation (insertSorted before x l) (x :: l).
Proof.
  induction l as [|y rest IH]; cbn [insertSorted]; [apply Permutation_refl|].
  destruct (before x y); [apply Permutation_refl|].
  eapply Permutation_trans; [apply perm_skip; exact IH|apply perm_swap].
Qed.

(** [$sort] keeps what it sorts. *)
Lemma sortBy_perm {A : Type} (before : A -> A -> bool) (l : list A) :
  Permutation (sortBy before l) l.
Proof.
  induction l as [|x rest IH]; [apply Permutation_refl|].
  cbn [sortBy fold_right]. fold (sortBy before rest).
  eapply Permutation_trans; [apply insertSorted_perm|apply perm_skip; exact IH].
Qed.

Lemma yearMonth_eqb_eq (a b : Z * Z) : Analytics.yearMonth_eqb a b = true <-> a = b.
Proof.
  destruct a as [y m], b as [y' m']. unfold Analytics.yearMonth_eqb. cbn [fst snd].
  rewrite andb_true_iff, !Z.eqb_eq. split.
  - intros [-> ->]. reflexivity.
  - intros [= -> ->]. split; reflexivity.
Qed.

(** Sorted by year and month with distinct keys is strictly sorted. *)
Lemma sorted_by_month_strict (l : list (Z * Z * list Doc)) :
  Sorted (fun x y => (fst (fst x) <? fst (fst y))
                     || ((fst (fst x) =? fst (fst y)) && (snd (fst x) <=? snd (fst y)))
                     = true) l ->
  NoDup (map fst l) ->
  Sorted (fun x y => fst (fst x) < fst (fst y)
                     \/ (fst (fst x) = fst (fst y) /\ snd (fst x) < snd (fst y))) l.
Proof.
  induction 1 as [|x rest Hrest IH Hhd]; intros Hnd; [constructor|].
  inversion Hnd as [|? ? Hnotin Hnd']; subst.
  constructor; [apply IH; exact Hnd'|].
  destruct Hhd as [|y rest' Hxy]; constructor.
  apply orb_true_iff in Hxy. destruct Hxy as [Hlt|Heq].
  - left. apply Z.ltb_lt. exact Hlt.
  - apply andb_true_iff in Heq. destruct Heq as [H1 H2].
    apply Z.eqb_eq in H1. apply Z.leb_le in H2. right. split; [exact H1|].
    assert (Hne : fst x <> fst y).
    { intros E. apply Hnotin. left. symmetry. exact E. }
    destruct (fst x) as [yx mx], (fst y) as [yy my]. cbn [fst snd] in *.
    assert (mx <> my) by congruence. lia.
Qed.

Lemma allOf_map_some {A B : Type} (f : A -> option B) (g : A -> B) (l : list A) :
  (forall x, In x l -> f x = Some (g x)) ->
  Analytics.allOf (map f l) = Some (map g l).
Proof.
  induction l as [|a rest IH]; intros Hf; [reflexivity|].
  cbn [map Analytics.allOf]. rewrite (Hf a (or_introl eq_refl)).
  rewrite IH by (intros x Hx; apply Hf; right; exact Hx). reflexivity.
Qed.

Lemma allOf_map_none {A B : Type} (f : A -> option B) (l : list A) (a : A) :
  In a l -> f a = None -> Analytics.allOf (map f l) = None.
Proof.
  induction l as [|x rest IH]; intros Hin Hnone; [contradiction|].
  cbn [map Analytics.allOf]. destruct Hin as [->|Hin].
  - rewrite Hnone. reflexivity.
  - destruct (f x); [|reflexivity]. rewrite (IH Hin Hnone). reflexivity.
Qed.

(** X18: the trends route fails exactly when a record last seen within
    the last 365 days has a year outside 1..9999, which [$dateFromParts]
    refuses.  Otherwise it answers one entry for each month in which such
    a record was last seen: the entries come by year and month, strictly,
    no two of them for the same month, every such record has its entry, and an entry counts the records of
    its month, so that the totals add up to the number of those records;
    in each entry missing and found together do not exceed the total,
    which is at least 1, the month is one of the twelve and the date is
    the first day of the month. *)
Theorem trends_shape :
  forall (now : Z) (docs : list Doc),
    let recent := filter (Analytics.seenSince (now - 365 * Analytics.dayMs)) docs in
    let inMonth (t : Analytics.Trend) (d : Doc) :=
      Analytics.yearMonth_eqb (Analytics.year t, Analytics.month t)
                              (Analytics.yearMonth d) in
    match Analytics.trends now docs with
    | None =>
        Exists (fun d => ~ 1 <= fst (Analytics.yearMonth d) <= 9999) recent
    | Some ts =>
        Forall (fun d => 1 <= fst (Analytics.yearMonth d) <= 9999) recent
        /\ Sorted (fun a b =>
                     Analytics.year a < Analytics.year b
                     \/ (Analytics.year a = Analytics.year b
                         /\ Analytics.month a < Analytics.month b)) ts
        /\ NoDup (map (fun t => (Analytics.year t, Analytics.month t)) ts)
        /\ (forall d, In d recent ->
                      exists t, In t ts
                                /\ (Analytics.year t, Analytics.month t)
                                   = Analytics.yearMonth d)
        /\ Forall (fun t =>
                     Analytics.totalCount t = List.length (filter (inMonth t) recent)
                     /\ Analytics.trendMissingCount t
                        = countStatus missing (filter (inMonth t) recent)
                     /\ Analytics.trendFoundCount t
                        = countStatus found (filter (inMonth t) recent)
                     /\ (1 <= Analytics.totalCount t)%nat
                     /\ (Analytics.trendMissingCount t + Analytics.trendFoundCount t
                         <= Analytics.totalCount t)%nat
                     /\ 1 <= Analytics.month t <= 12
                     /\ Analytics.date t
                        = Calendar.daysFromCivil (Analytics.year t) (Analytics.month t) 1
                          * Calendar.msPerDay) ts
        /\ list_sum (map Analytics.totalCount ts) = List.length recent
    end.
Proof.
  intros now docs recent inMonth. unfold Analytics.trends. fold recent.
  set (groups := groupBy Analytics.yearMonth_eqb Analytics.yearMonth recent).
  set (before := fun x y : Z * Z * list Doc =>
                   (fst (fst x) <? fst (fst y))
                   || ((fst (fst x) =? fst (fst y)) && (snd (fst x) <=? snd (fst y)))).
  set (sorted := sortBy before groups).
  destruct (groupBy_spec Analytics.yearMonth_eqb Analytics.yearMonth yearMonth_eqb_eq
                         recent) as [Hkeys [Hdocs Hall]].
  fold groups in Hkeys, Hdocs, Hall.
  destruct (groupBy_total Analytics.yearMonth_eqb Analytics.yearMonth recent)
    as [Htotal Hnonempty].
  fold groups in Htotal, Hnonempty. rewrite Forall_forall in Hnonempty.
  assert (Hperm : Permutation sorted groups) by apply sortBy_perm.
  assert (Hin : forall g, In g sorted <-> In g groups) by (intros g; apply sortBy_In).
  set (build := fun group : Z * Z * list Doc =>
                  {| Analytics.year := fst (fst group);
                     Analytics.month := snd (fst group);
                     Analytics.date :=
                       Calendar.daysFromCivil (fst (fst group)) (snd (fst group)) 1
                       * Calendar.msPerDay;
                     Analytics.trendMissingCount := countStatus missing (snd group);
                     Analytics.trendFoundCount := countStatus found (snd group);
                     Analytics.totalCount := List.length (snd group);
                     Analytics.avgAge :=
                       roundNumber (avg (map (fun d => age (fields d)) (snd group))) 1;
                     Analytics.trendResolutionRate :=
                       round (inject_Z (Z.of_nat (countStatus found (snd group)))
                              / inject_Z (Z.of_nat (countStatus missing (snd group)
                                                    + countStatus found (snd group) + 1))
                              * 100) 2 |}).
  assert (Hbuild : forall g, 1 <= fst (fst g) <= 9999 ->
                             Analytics.trendOf g = Some (build g)).
  { intros g [Hlo Hhi]. unfold Analytics.trendOf, Analytics.dateFromParts,
      Analytics.resolutionRate.
    rewrite rate_value. apply Z.leb_le in Hlo, Hhi. rewrite Hlo, Hhi. reflexivity. }
  assert (Hfail : forall g, ~ 1 <= fst (fst g) <= 9999 -> Analytics.trendOf g = None).
  { intros g Hout. unfold Analytics.trendOf, Analytics.dateFromParts.
    destruct (Z.leb_spec 1 (fst (fst g))); destruct (Z.leb_spec (fst (fst g)) 9999);
      cbn [andb]; try reflexivity. exfalso. apply Hout. lia. }
  (* a document of a group has the key of the group and is recent *)
  assert (Hmember : forall g d, In g groups -> In d (snd g) ->
                                In d recent /\ fst g = Analytics.yearMonth d).
  { intros g d Hg Hd. rewrite (Hdocs g Hg) in Hd. apply filter_In in Hd.
    destruct Hd as [Hd E]. apply yearMonth_eqb_eq in E. split; assumption. }
  assert (Hfirst : forall g, In g groups -> exists d, In d (snd g)).
  { intros g Hg. specialize (Hnonempty g Hg).
    destruct (snd g) as [|d rest]; [contradiction|]. exists d. left. reflexivity. }
  destruct (Forall_Exists_dec (fun d => 1 <= fst (Analytics.yearMonth d) <= 9999)) with
    (l := recent) as [Hrange|Hout].
  { intros d. destruct (Z_le_dec 1 (fst (Analytics.yearMonth d)));
      destruct (Z_le_dec (fst (Analytics.yearMonth d)) 9999);
      [left; lia|right; lia|right; lia|right; lia]. }
  - rewrite Forall_forall in Hrange.
    rewrite (allOf_map_some _ build).
    2:{ intros g Hg. apply Hbuild. apply Hin in Hg.
        destruct (Hfirst g Hg) as [d Hd].
        destruct (Hmember g d Hg Hd) as [Hrec ->]. apply Hrange. exact Hrec. }
    split; [apply Forall_forall; exact Hrange|].
    split.
    { apply Sorted_map with
        (R := fun x y => fst (fst x) < fst (fst y)
                         \/ (fst (fst x) = fst (fst y) /\ snd (fst x) < snd (fst y))).
      - intros a b Hab. exact Hab.
      - apply sorted_by_month_strict.
        + apply sortBy_sorted. intros a b Hab. unfold before in *.
          apply orb_false_iff in Hab. destruct Hab as [Hlt Heq].
          apply Z.ltb_ge in Hlt. apply andb_false_iff in Heq.
          destruct (Z.ltb_spec (fst (fst b)) (fst (fst a))); [reflexivity|].
          cbn [orb]. apply andb_true_iff.
          destruct Heq as [Hne|Hle].
          * apply Z.eqb_neq in Hne. lia.
          * apply Z.leb_gt in Hle. split; [apply Z.eqb_eq|apply Z.leb_le]; lia.
        + eapply Permutation_NoDup; [|exact Hkeys].
          apply Permutation_map. apply Permutation_sym. exact Hperm. }
    split.
    { rewrite map_map.
      rewrite (map_ext (fun g => (Analytics.year (build g), Analytics.month (build g)))
                       fst)
        by (intros g; cbn [build Analytics.year Analytics.month];
            destruct (fst g); reflexivity).
      eapply Permutation_NoDup; [|exact Hkeys].
      apply Permutation_map. apply Permutation_sym. exact Hperm. }
    split.
    { intros d Hd. specialize (Hall d Hd). apply in_map_iff in Hall.
      destruct Hall as [g [Hkey Hg]]. exists (build g).
      split; [apply in_map; apply Hin; exact Hg|].
      cbn [build Analytics.year Analytics.month]. rewrite <- Hkey.
      destruct (fst g); reflexivity. }
    split.
    { apply Forall_forall. intros t Ht. apply in_map_iff in Ht.
      destruct Ht as [g [<- Hg]]. apply Hin in Hg.
      assert (Hsnd : snd g = filter (inMonth (build g)) recent).
      { rewrite (Hdocs g Hg). unfold inMonth.
        cbn [build Analytics.year Analytics.month].
        destruct (fst g); reflexivity. }
      cbn [build Analytics.totalCount Analytics.trendMissingCount
           Analytics.trendFoundCount Analytics.month Analytics.year Analytics.date].
      rewrite <- Hsnd.
      split; [reflexivity|]. split; [reflexivity|]. split; [reflexivity|].
      destruct (Hfirst g Hg) as [d Hd].
      split; [destruct (snd g); [contradiction|cbn; lia]|].
      split; [apply countStatus_sum|].
      split; [|reflexivity].
      destruct (Hmember g d Hg Hd) as [Hrec ->].
      unfold recent in Hrec. apply filter_In in Hrec. destruct Hrec as [_ Hseen].
      unfold Analytics.yearMonth, Analytics.seenAt.
      unfold Analytics.seenSince in Hseen.
      destruct (lastSeenDate (fields d)) as [[|ms]|]; try discriminate.
      pose proof (civilFromDays_ranges (ms / Calendar.msPerDay)) as [Hm _].
      destruct (Calendar.civilFromDays (ms / Calendar.msPerDay)) as [[y m] dd].
      exact Hm. }
    rewrite map_map. cbn [build Analytics.totalCount].
    unfold sorted. rewrite sortBy_sum. exact Htotal.
  - assert (Hbad : exists g, In g sorted /\ Analytics.trendOf g = None).
    { apply Exists_exists in Hout. destruct Hout as [d [Hd Hyear]].
      specialize (Hall d Hd). apply in_map_iff in Hall.
      destruct Hall as [g [Hkey Hg]]. exists g.
      split; [apply Hin; exact Hg|]. apply Hfail. rewrite Hkey. exact Hyear. }
    destruct Hbad as [g [Hg Hnone]].
    rewrite (allOf_map_none _ _ g Hg Hnone). exact Hout.
Qed.

(** ** More on the scrapers *)

Lemma Qle_bool_inject (a b : Z) : Qle_bool (inject_Z a) (inject_Z b) = (a <=? b).
Proof.
  unfold Qle_bool, inject_Z. cbn [Qnum Qden]. rewrite !Z.mul_1_r. reflexivity.
Qed.

Lemma num_lt_num (a b : Z) : num_lt (num a) (num b) = (a <? b).
Proof.
  unfold num_lt, num. rewrite Qle_bool_inject.
  rewrite Z.ltb_antisym. reflexivity.
Qed.

Lemma age_check (a : Z) :
  negb (num_lt (num a) (num 0)) && negb (num_gt (num a) (num 150))
  = (0 <=? a) && (a <=? 150).
Proof.
  unfold num_gt. rewrite !num_lt_num.
  rewrite <- !Z.leb_antisym. reflexivity.
Qed.

(** X19: a record the Maharashtra scraper makes of a row passes the
    validator; its name and location are not empty, its age is an integer
    from 0 to 150, its status and source are set, its gender is not
    female, and its hash is the fingerprint of the record. *)
Theorem maharashtra_row_is_valid :
  forall (env : Env) (row : Row) (r : MissingPerson),
    MaharashtraScraper.processRow env row = Some r ->
    Validation.valid (validateExtractedData (toJs r)) = true
    /\ (exists a, age r = Some (num a) /\ 0 <= a <= 150)
    /\ (exists s, status r = Some s)
    /\ gender r <> Some female
    /\ sourceState r = Some "Maharashtra"
    /\ dataHash r = Some (generateDataHash (runtime env) r).
Proof.
  intros env row r. unfold MaharashtraScraper.processRow. cbv zeta.
  destruct (negb (nonEmpty (normalizeText (cell row 0)))
            || negb (nonEmpty (normalizeText (cell row 4)))) eqn:Etext; [discriminate|].
  apply orb_false_iff in Etext. destruct Etext as [Hname Hloc].
  apply negb_false_iff in Hname, Hloc.
  destruct (parseInt (cell row 1) (Some 10)) as [a|]; [|discriminate].
  destruct ((a <? 0) || (150 <? a)) eqn:Eage; [discriminate|].
  apply orb_false_iff in Eage. destruct Eage as [Hlo Hhi].
  apply Z.ltb_ge in Hlo, Hhi.
  destruct (parseIndianDate (runtime env) (cell row 3)) as [date|]; [|discriminate].
  intros [= <-].
  split.
  - rewrite validateExtractedData_record.
    cbn [name age gender lastSeenDate lastKnownLocation].
    rewrite Hname, Hloc, age_check.
    destruct (Z.leb_spec 0 a); [|lia]. destruct (Z.leb_spec a 150); [|lia].
    reflexivity.
  - cbn [age status gender sourceState dataHash].
    split; [exists a; split; [reflexivity|lia]|].
    split; [eexists; reflexivity|].
    split; [intros [= H]; exact (genderOf_is_not_female _ H)|].
    split; reflexivity.
Qed.

(** X20: a record the Karnataka scraper makes of a row is always reported
    missing, and passes the validator exactly when the age read from the
    row lies between 0 and 150, which the scraper does not check. *)
Theorem karnataka_row :
  forall (env : Env) (row : Row) (r : MissingPerson),
    KarnatakaScraper.processRow env row = Some r ->
    status r = Some missing
    /\ sourceState r = Some "Karnataka"
    /\ dataHash r = Some (generateDataHash (runtime env) r)
    /\ exists a,
        parseInt (cell row 1) (Some 10) = Some a
        /\ age r = Some (num a)
        /\ Validation.valid (validateExtractedData (toJs r))
           = (0 <=? a) && (a <=? 150).
Proof.
  intros env row r. unfold KarnatakaScraper.processRow. cbv zeta.
  destruct (parseInt (cell row 1) (Some 10)) as [a|]; [|discriminate].
  destruct (negb (nonEmpty (normalizeText (cell row 0)))
            || negb (nonEmpty (normalizeText (cell row 4)))) eqn:Etext; [discriminate|].
  apply orb_false_iff in Etext. destruct Etext as [Hname Hloc].
  apply negb_false_iff in Hname, Hloc.
  destruct (parseIndianDate (runtime env) (cell row 3)) as [date|]; [|discriminate].
  intros [= <-]. cbn [status sourceState dataHash age].
  repeat (split; [reflexivity|]).
  exists a. repeat (split; [reflexivity|]).
  rewrite validateExtractedData_record.
  cbn [name age gender lastSeenDate lastKnownLocation].
  rewrite Hname, Hloc, age_check.
  destruct ((0 <=? a) && (a <=? 150)); reflexivity.
Qed.

Lemma maharashtra_row_is_valid_witness :
  Validation.valid
    (validateExtractedData
       (toJs match MaharashtraScraper.processRow quietHost sampleMaharashtraRow with
             | Some r => r
             | None => ashaRao
             end)) = true.
Proof.
  destruct (MaharashtraScraper.processRow quietHost sampleMaharashtraRow) as [r|] eqn:E.
  - apply (maharashtra_row_is_valid quietHost sampleMaharashtraRow r). exact E.
  - vm_compute in E. discriminate E.
Defined.

Lemma karnataka_row_witness :
  match KarnatakaScraper.processRow quietHost sampleKarnatakaRow with
  | Some r => status r = Some missing
  | None => False
  end.
Proof.
  destruct (KarnatakaScraper.processRow quietHost sampleKarnatakaRow) as [r|] eqn:E.
  - apply (karnataka_row quietHost sampleKarnatakaRow r). exact E.
  - vm_compute in E. discriminate E.
Defined.

Lemma randomAge_range (x : Q) :
  (0 <= x)%Q -> (x < 1)%Q -> 15 <= Qfloor (x * 50 + 15) <= 64.
Proof.
  intros Hlo Hhi. split.
  - rewrite <- (Qfloor_Z 15). apply Qfloor_resp_le.
    setoid_replace (inject_Z 15) with (0 * 50 + 15)%Q by reflexivity.
    apply Qplus_le_compat; [|apply Qle_refl].
    apply Qmult_le_compat_r; [exact Hlo|unfold Qle; simpl; lia].
  - assert (H : (inject_Z (Qfloor (x * 50 + 15)) < inject_Z 65)%Q).
    { eapply Qle_lt_trans; [apply Qfloor_le|].
      setoid_replace (inject_Z 65) with (1 * 50 + 15)%Q by reflexivity.
      apply Qplus_lt_le_compat; [|apply Qle_refl].
      apply Qmult_lt_compat_r; [reflexivity|exact Hhi]. }
    rewrite <- Zlt_Qlt in H. lia.
Qed.

Lemma substring0_nonEmpty (n : nat) (s : string) :
  (1 <= n)%nat -> nonEmpty s = true -> nonEmpty (substring0 n s) = true.
Proof.
  intros Hn. destruct s as [|c rest]; [discriminate|].
  intros _. destruct n as [|n]; [lia|]. reflexivity.
Qed.

Lemma nonEmpty_append (s t : string) :
  nonEmpty s = true -> nonEmpty (s ++ t) = true.
Proof.
  destruct s; [discriminate|reflexivity].
Qed.

Lemma substring0_length (n : nat) (s : string) :
  (String.length (substring0 n s) <= n)%nat.
Proof.
  unfold substring0. rewrite str_length. apply firstn_le_length.
Qed.

(** X21: when [Math.random] answers within [0, 1), a record the Delhi
    scraper makes of a row passes the validator; its age is an integer
    from 1 to 150, its name has at most 255 characters, and its hash is
    the fingerprint of the record. *)
Theorem delhi_row_is_valid :
  forall (env : Env) (row : Row) (w w' : World) (r : MissingPerson),
    (forall n, (0 <= random env n)%Q /\ (random env n < 1)%Q) ->
    DelhiZIPNETScraper.processRow env row w = (Returned (Some r), w') ->
    Validation.valid (validateExtractedData (toJs r)) = true
    /\ (exists a, age r = Some (num a) /\ 1 <= a <= 150)
    /\ (exists n, name r = Some n /\ (String.length n <= 255)%nat)
    /\ sourceURL r = Some DelhiZIPNETScraper.SOURCE_URL
    /\ dataHash r = Some (generateDataHash (runtime env) r).
Proof.
  intros env row w w' r Hrandom. unfold DelhiZIPNETScraper.processRow.
  destruct (List.length (cells row) <? 7)%nat; [intros [= ]|].
  cbv zeta.
  destruct (DelhiZIPNETScraper.readImageAlt _ _ _ _) as [[n a0] g].
  destruct (negb (nonEmpty n) || (n =? "Unknown")%string
            || negb (nonEmpty (normalizeText (cell row 6)))) eqn:Etext;
    [intros [= ]|].
  apply orb_false_iff in Etext. destruct Etext as [Etext Hloc].
  apply orb_false_iff in Etext. destruct Etext as [Hname _].
  apply negb_false_iff in Hname, Hloc.
  destruct (parseIndianDate (runtime env) (normalizeText (cell row 4))) as [date|];
    [|intros [= ]].
  unfold bind.
  assert (Hage : exists a w1,
             (if (a0 =? 0) || (a0 <? 0) || (150 <? a0)
              then DelhiZIPNETScraper.randomAge env else ret a0) w
             = (Returned a, w1) /\ 1 <= a <= 150).
  { destruct ((a0 =? 0) || (a0 <? 0) || (150 <? a0)) eqn:E.
    - eexists; eexists. split; [reflexivity|].
      destruct (Hrandom (steps w)) as [Hlo Hhi].
      pose proof (randomAge_range _ Hlo Hhi). lia.
    - exists a0, w. split; [reflexivity|].
      apply orb_false_iff in E. destruct E as [E Ehi].
      apply orb_false_iff in E. destruct E as [Ezero Elo].
      apply Z.eqb_neq in Ezero. apply Z.ltb_ge in Elo, Ehi. lia. }
  destruct Hage as [a [w1 [Hrun Ha]]]. rewrite Hrun. unfold ret.
  match goal with
  | |- (Returned (Some ?x), _) = _ -> _ => set (stored := x)
  end.
  intros Hreturned.
  assert (Hr : stored = r) by congruence.
  rewrite <- Hr. subst stored. clear Hr Hreturned.
  split.
  - rewrite validateExtractedData_record.
    cbn [name age gender lastSeenDate lastKnownLocation].
    rewrite (substring0_nonEmpty 255 n) by (try lia; exact Hname).
    rewrite age_check.
    destruct (Z.leb_spec 0 a); [|lia]. destruct (Z.leb_spec a 150); [|lia].
    rewrite nonEmpty_append by exact Hloc. reflexivity.
  - cbn [age name sourceURL dataHash].
    split; [exists a; split; [reflexivity|exact Ha]|].
    split; [eexists; split; [reflexivity|apply substring0_length]|].
    split; reflexivity.
Qed.

Lemma delhi_row_is_valid_witness :
  Validation.valid
    (validateExtractedData
       (toJs match fst (DelhiZIPNETScraper.processRow quietHost sampleDelhiRow emptyWorld) with
             | Returned (Some r) => r
             | _ => ashaRao
             end)) = true.
Proof.
  destruct (DelhiZIPNETScraper.processRow quietHost sampleDelhiRow emptyWorld)
    as [[[r|]|e] w'] eqn:E.
  - cbn [fst].
    apply (delhi_row_is_valid quietHost sampleDelhiRow emptyWorld w' r).
    + intros n. split; [apply Qle_refl|reflexivity].
    + exact E.
  - vm_compute in E. discriminate E.
  - vm_compute in E. discriminate E.
Defined.

(** ** Normalised text and the accounts of the pipeline *)

Lemma dropSpaces_clean (s : list ascii) : noLeadingSpace (dropSpaces s).
Proof.
  induction s as [|c rest IH]; [exact I|].
  cbn [dropSpaces]. destruct (isSpace c) eqn:E; [exact IH|exact E].
Qed.

Lemma dropSpaces_id (s : list ascii) : noLeadingSpace s -> dropSpaces s = s.
Proof.
  destruct s as [|c rest]; [reflexivity|].
  cbn [noLeadingSpace dropSpaces]. intros ->. reflexivity.
Qed.

Lemma dropSpaces_suffix (s : list ascii) : exists p, s = p ++ dropSpaces s.
Proof.
  induction s as [|c rest [p IH]]; [exists []; reflexivity|].
  cbn [dropSpaces]. destruct (isSpace c).
  - exists (c :: p). cbn [app]. rewrite <- IH. reflexivity.
  - exists []. reflexivity.
Qed.

Lemma trim_prefix (s : list ascii) : exists q, dropSpaces s = trim s ++ q.
Proof.
  unfold trim. destruct (dropSpaces_suffix (rev (dropSpaces s))) as [p Hp].
  exists (rev p). rewrite <- rev_app_distr, <- Hp, rev_involutive. reflexivity.
Qed.

Lemma trim_clean (s : list ascii) :
  noLeadingSpace (trim s) /\ noLeadingSpace (rev (trim s)).
Proof.
  split.
  - destruct (trim_prefix s) as [q Hq]. pose proof (dropSpaces_clean s) as H.
    rewrite Hq in H. destruct (trim s); [exact I|exact H].
  - unfold trim. rewrite rev_involutive. apply dropSpaces_clean.
Qed.

Lemma trim_id (s : list ascii) :
  noLeadingSpace s -> noLeadingSpace (rev s) -> trim s = s.
Proof.
  intros Hhead Hlast. unfold trim.
  rewrite (dropSpaces_id s Hhead), (dropSpaces_id (rev s) Hlast).
  apply rev_involutive.
Qed.

Lemma collapseSpaces_twice (s : list ascii) :
  forall inRun : bool,
    collapseSpaces inRun (collapseSpaces inRun s) = collapseSpaces inRun s.
Proof.
  induction s as [|c rest IH]; intros inRun; [reflexivity|].
  cbn [collapseSpaces]. destruct (isSpace c) eqn:E.
  - destruct inRun; [apply IH|].
    cbn [collapseSpaces]. change (isSpace " "%char) with true. cbv iota.
    rewrite IH. reflexivity.
  - cbn [collapseSpaces]. rewrite E, IH. reflexivity.
Qed.

Lemma collapseSpaces_head (s : list ascii) :
  noLeadingSpace s -> noLeadingSpace (collapseSpaces false s).
Proof.
  destruct s as [|c rest]; [intros _; exact I|].
  cbn [noLeadingSpace collapseSpaces]. intros E. rewrite E. exact E.
Qed.

Lemma collapseSpaces_last (s : list ascii) (c : ascii) :
  isSpace c = false ->
  forall inRun : bool,
    collapseSpaces inRun (s ++ [c]) = collapseSpaces inRun s ++ [c].
Proof.
  intros E. induction s as [|d rest IH]; intros inRun; cbn [app collapseSpaces].
  - rewrite E. reflexivity.
  - destruct (isSpace d); [destruct inRun|]; rewrite IH; reflexivity.
Qed.

Lemma collapseSpaces_tail (s : list ascii) :
  noLeadingSpace (rev s) -> noLeadingSpace (rev (collapseSpaces false s)).
Proof.
  destruct (rev s) as [|c r] eqn:E.
  - intros _. apply (f_equal (@rev ascii)) in E. rewrite rev_involutive in E.
    subst s. exact I.
  - cbn [noLeadingSpace]. intros Hc.
    apply (f_equal (@rev ascii)) in E. rewrite rev_involutive in E.
    cbn [rev] in E. subst s.
    rewrite (collapseSpaces_last _ _ Hc), rev_app_distr. exact Hc.
Qed.

Lemma collapseSpaces_single (s : list ascii) :
  noLeadingSpace (rev s) ->
  forall inRun : bool, singleSpaces (collapseSpaces inRun s).
Proof.
  induction s as [|c rest IH]; intros Hlast inRun; [exact I|].
  assert (Hrest : noLeadingSpace (rev rest)).
  { cbn [rev] in Hlast. destruct (rev rest); [exact I|exact Hlast]. }
  cbn [collapseSpaces]. destruct (isSpace c) eqn:E.
  - assert (Hnext : match collapseSpaces true rest with
                    | [] => False
                    | d :: _ => isSpace d = false
                    end).
    { clear IH Hrest. revert Hlast. cbn [rev].
      induction rest as [|d r IHr].
      - cbn [rev app noLeadingSpace]. congruence.
      - intros Hlast. cbn [collapseSpaces]. destruct (isSpace d) eqn:Ed.
        + apply IHr. cbn [rev] in Hlast.
          destruct (rev r) as [|x xs]; [cbn in Hlast; congruence|exact Hlast].
        + exact Ed. }
    destruct inRun; [apply IH; exact Hrest|].
    cbn [singleSpaces]. split; [|apply IH; exact Hrest].
    intros _. split; [reflexivity|exact Hnext].
  - cbn [singleSpaces]. split; [congruence|apply IH; exact Hrest].
Qed.

Lemma chars_str (l : list ascii) : chars (str l) = l.
Proof. apply list_ascii_of_string_of_list_ascii. Qed.

(** X22: normalising a text twice is normalising it once; a normalised
    text neither begins nor ends with white space, and its white space is
    single spaces between other characters. *)
Theorem normalizeText_idempotent :
  forall text : string,
    normalizeText (normalizeText text) = normalizeText text
    /\ noLeadingSpace (chars (normalizeText text))
    /\ noLeadingSpace (rev (chars (normalizeText text)))
    /\ singleSpaces (chars (normalizeText text)).
Proof.
  intros text. unfold normalizeText. rewrite !chars_str.
  destruct (trim_clean (chars text)) as [Hhead Hlast].
  pose proof (collapseSpaces_head _ Hhead) as Hhead'.
  pose proof (collapseSpaces_tail _ Hlast) as Hlast'.
  split; [|split; [exact Hhead'|split; [exact Hlast'|]]].
  - rewrite (trim_id _ Hhead' Hlast'), collapseSpaces_twice. reflexivity.
  - apply collapseSpaces_single. exact Hlast.
Qed.



(** ** The response cache *)

Lemma get_set_same (key : string) (entry : CacheMiddleware.CacheEntry)
      (cache : CacheMiddleware.Cache) :
  CacheMiddleware.get key (CacheMiddleware.set key entry cache) = Some entry.
Proof.
  induction cache as [|[k old] rest IH]; cbn [CacheMiddleware.set CacheMiddleware.get].
  - rewrite String.eqb_refl. reflexivity.
  - destruct (k =? key)%string eqn:E; cbn [CacheMiddleware.get]; rewrite E;
      [reflexivity|exact IH].
Qed.

Lemma get_set_other (key other : string) (entry : CacheMiddleware.CacheEntry)
      (cache : CacheMiddleware.Cache) :
  other <> key ->
  CacheMiddleware.get other (CacheMiddleware.set key entry cache)
  = CacheMiddleware.get other cache.
Proof.
  intros Hne.
  induction cache as [|[k old] rest IH]; cbn [CacheMiddleware.set CacheMiddleware.get].
  - destruct (String.eqb_spec key other) as [E|_]; [congruence|reflexivity].
  - destruct (String.eqb_spec k key) as [E|_]; cbn [CacheMiddleware.get].
    + subst k. destruct (String.eqb_spec key other) as [E|_]; [congruence|reflexivity].
    + rewrite IH. reflexivity.
Qed.

Lemma get_delete_same (key : string) (cache : CacheMiddleware.Cache) :
  CacheMiddleware.get key (CacheMiddleware.delete key cache) = None.
Proof.
  induction cache as [|[k old] rest IH]; [reflexivity|].
  cbn [CacheMiddleware.delete]. destruct (k =? key)%string eqn:E; [exact IH|].
  cbn [CacheMiddleware.get]. rewrite E. exact IH.
Qed.

Lemma get_delete_other (key other : string) (cache : CacheMiddleware.Cache) :
  other <> key ->
  CacheMiddleware.get other (CacheMiddleware.delete key cache)
  = CacheMiddleware.get other cache.
Proof.
  intros Hne. induction cache as [|[k old] rest IH]; [reflexivity|].
  cbn [CacheMiddleware.delete CacheMiddleware.get].
  destruct (String.eqb_spec k key) as [E|_].
  - subst k. destruct (String.eqb_spec key other) as [E|_]; [congruence|exact IH].
  - cbn [CacheMiddleware.get]. rewrite IH. reflexivity.
Qed.

(** What the replaced [res.json] leaves behind. *)
Lemma intercepted_answer (now : nat -> Z) (key : string) (d : Z)
      (next : M CacheMiddleware.Server (option CacheMiddleware.Reply))
      (s s1 : CacheMiddleware.Server) (r : CacheMiddleware.Reply) :
  next s = (Returned (Some r), s1) ->
  CacheMiddleware.intercepted now key d next s
  = (Returned (Some r),
     {| CacheMiddleware.cache :=
          CacheMiddleware.set
            key
            {| CacheMiddleware.data := CacheMiddleware.body r;
               CacheMiddleware.expiresAt :=
                 now (CacheMiddleware.clockReads s1) + d * 1000 |}
            (CacheMiddleware.cache s1);
        CacheMiddleware.clockReads := S (CacheMiddleware.clockReads s1) |}).
Proof.
  intros Hrun. unfold CacheMiddleware.intercepted, bind. rewrite Hrun.
  reflexivity.
Qed.

(** X24: a GET whose address has an entry that has not expired is
    answered from the cache with status 200: the rest of the chain does
    not run and the cache stays as it is. *)
Theorem cacheMiddleware_hit :
  forall (now : nat -> Z) (durationSeconds : Z) (req : CacheMiddleware.Request)
         (next : M CacheMiddleware.Server (option CacheMiddleware.Reply))
         (s : CacheMiddleware.Server) (entry : CacheMiddleware.CacheEntry),
    CacheMiddleware.method req = "GET" ->
    CacheMiddleware.get (CacheMiddleware.baseUrl req ++ CacheMiddleware.url req)
                        (CacheMiddleware.cache s) = Some entry ->
    now (CacheMiddleware.clockReads s) < CacheMiddleware.expiresAt entry ->
    CacheMiddleware.cacheMiddleware now durationSeconds req next s
    = (Returned (Some {| CacheMiddleware.statusCode := 200;
                         CacheMiddleware.body := CacheMiddleware.data entry |}),
       {| CacheMiddleware.cache := CacheMiddleware.cache s;
          CacheMiddleware.clockReads := S (CacheMiddleware.clockReads s) |}).
Proof.
  intros now d req next s entry Hmethod Hget Hfresh.
  unfold CacheMiddleware.cacheMiddleware. rewrite Hmethod.
  change ("GET" =? "GET")%string with true. cbn [negb].
  rewrite Hget. unfold bind, CacheMiddleware.dateNow.
  apply Z.ltb_lt in Hfresh. rewrite Hfresh. reflexivity.
Qed.

Lemma cacheMiddleware_hit_witness :
  fst (CacheMiddleware.cacheMiddleware
         secondsClock 1800 statisticsRequest answersNotFound
         {| CacheMiddleware.cache :=
              [("/api/analytics/statistics",
                {| CacheMiddleware.data := JNull;
                   CacheMiddleware.expiresAt := 1771200000001 |})];
            CacheMiddleware.clockReads := 0 |})
  = Returned (Some {| CacheMiddleware.statusCode := 200;
                      CacheMiddleware.body := JNull |}).
Proof.
  rewrite (cacheMiddleware_hit
             secondsClock 1800 statisticsRequest answersNotFound _
             {| CacheMiddleware.data := JNull;
                CacheMiddleware.expiresAt := 1771200000001 |}).
  - reflexivity.
  - reflexivity.
  - vm_compute. reflexivity.
  - vm_compute. reflexivity.
Defined.

(** X25: a GET whose address has no entry runs the rest of the chain;
    what that answers through [res.json] is passed on, and is stored
    under the address until [durationSeconds] after the time of the
    answer; the other entries stay as the chain left them. *)
Theorem cacheMiddleware_stores_answer :
  forall (now : nat -> Z) (durationSeconds : Z) (req : CacheMiddleware.Request)
         (next : M CacheMiddleware.Server (option CacheMiddleware.Reply))
         (s s1 : CacheMiddleware.Server) (r : CacheMiddleware.Reply),
    let key := (CacheMiddleware.baseUrl req ++ CacheMiddleware.url req)%string in
    CacheMiddleware.method req = "GET" ->
    CacheMiddleware.get key (CacheMiddleware.cache s) = None ->
    next s = (Returned (Some r), s1) ->
    exists s',
      CacheMiddleware.cacheMiddleware now durationSeconds req next s
      = (Returned (Some r), s')
      /\ CacheMiddleware.get key (CacheMiddleware.cache s')
         = Some {| CacheMiddleware.data := CacheMiddleware.body r;
                   CacheMiddleware.expiresAt :=
                     now (CacheMiddleware.clockReads s1) + durationSeconds * 1000 |}
      /\ (forall other,
             other <> key ->
             CacheMiddleware.get other (CacheMiddleware.cache s')
             = CacheMiddleware.get other (CacheMiddleware.cache s1))
      /\ CacheMiddleware.clockReads s' = S (CacheMiddleware.clockReads s1).
Proof.
  intros now d req next s s1 r key Hmethod Hget Hrun.
  unfold CacheMiddleware.cacheMiddleware. rewrite Hmethod.
  change ("GET" =? "GET")%string with true. cbn [negb].
  fold key. rewrite Hget.
  rewrite (intercepted_answer now key d next s s1 r Hrun).
  eexists. split; [reflexivity|]. cbn [CacheMiddleware.cache CacheMiddleware.clockReads].
  split; [apply get_set_same|].
  split; [|reflexivity].
  intros other Hne. apply get_set_other. exact Hne.
Qed.

Lemma cacheMiddleware_stores_answer_witness :
  exists s',
    CacheMiddleware.cacheMiddleware secondsClock 1800 statisticsRequest
                                    answersNotFound coldServer
    = (Returned (Some notFoundReply), s')
    /\ CacheMiddleware.get "/api/analytics/statistics" (CacheMiddleware.cache s')
       = Some {| CacheMiddleware.data := CacheMiddleware.body notFoundReply;
                 CacheMiddleware.expiresAt := 1771201800000 |}.
Proof.
  destruct (cacheMiddleware_stores_answer
              secondsClock 1800 statisticsRequest answersNotFound
              coldServer coldServer notFoundReply)
    as [s' [Hrun [Hget _]]]; try reflexivity.
  exists s'. split; [exact Hrun|exact Hget].
Defined.

(** X26: two requests for one address, one after the other.  When the
    first finds no entry and the chain answers it, and the clock at the
    second is still before the expiry, the second is answered with the
    data of the first and with status 200, whatever the status of the
    first answer was, and its own chain does not run. *)
Theorem cacheMiddleware_serves_again :
  forall (now : nat -> Z) (durationSeconds : Z) (req : CacheMiddleware.Request)
         (next next' : M CacheMiddleware.Server (option CacheMiddleware.Reply))
         (s s1 : CacheMiddleware.Server) (r : CacheMiddleware.Reply),
    let key := (CacheMiddleware.baseUrl req ++ CacheMiddleware.url req)%string in
    CacheMiddleware.method req = "GET" ->
    CacheMiddleware.get key (CacheMiddleware.cache s) = None ->
    next s = (Returned (Some r), s1) ->
    now (S (CacheMiddleware.clockReads s1))
    < now (CacheMiddleware.clockReads s1) + durationSeconds * 1000 ->
    (CacheMiddleware.cacheMiddleware now durationSeconds req next ;;
     CacheMiddleware.cacheMiddleware now durationSeconds req next') s
    = (Returned (Some {| CacheMiddleware.statusCode := 200;
                         CacheMiddleware.body := CacheMiddleware.body r |}),
       {| CacheMiddleware.cache :=
            CacheMiddleware.set
              key
              {| CacheMiddleware.data := CacheMiddleware.body r;
                 CacheMiddleware.expiresAt :=
                   now (CacheMiddleware.clockReads s1) + durationSeconds * 1000 |}
              (CacheMiddleware.cache s1);
          CacheMiddleware.clockReads := S (S (CacheMiddleware.clockReads s1)) |}).
Proof.
  intros now d req next next' s s1 r key Hmethod Hget Hrun Hfresh.
  unfold bind at 1. unfold CacheMiddleware.cacheMiddleware. rewrite Hmethod.
  change ("GET" =? "GET")%string with true. cbn [negb].
  fold key. rewrite Hget.
  rewrite (intercepted_answer now key d next s s1 r Hrun).
  cbn [CacheMiddleware.cache CacheMiddleware.clockReads].
  rewrite get_set_same.
  unfold bind, CacheMiddleware.dateNow.
  cbn [CacheMiddleware.cache CacheMiddleware.clockReads CacheMiddleware.expiresAt
       CacheMiddleware.data].
  apply Z.ltb_lt in Hfresh. rewrite Hfresh. reflexivity.
Qed.

Lemma cacheMiddleware_serves_again_witness :
  fst ((CacheMiddleware.cacheMiddleware secondsClock 1800 statisticsRequest
                                        answersNotFound ;;
        CacheMiddleware.cacheMiddleware secondsClock 1800 statisticsRequest
                                        silentHandler) coldServer)
  = Returned (Some {| CacheMiddleware.statusCode := 200;
                      CacheMiddleware.body := CacheMiddleware.body notFoundReply |}).
Proof.
  rewrite (cacheMiddleware_serves_again
             secondsClock 1800 statisticsRequest answersNotFound silentHandler
             coldServer coldServer notFoundReply).
  - reflexivity.
  - reflexivity.
  - reflexivity.
  - reflexivity.
  - vm_compute. reflexivity.
Defined.

(** X27: an entry that has expired is not served: with a clock that does
    not step back between its two readings, the entry is removed and the
    rest of the chain runs; when that does not answer through [res.json]
    and leaves the cache alone, the address has no entry afterwards. *)
Theorem cacheMiddleware_expired :
  forall (now : nat -> Z) (durationSeconds : Z) (req : CacheMiddleware.Request)
         (next : M CacheMiddleware.Server (option CacheMiddleware.Reply))
         (s s1 : CacheMiddleware.Server) (entry : CacheMiddleware.CacheEntry),
    let key := (CacheMiddleware.baseUrl req ++ CacheMiddleware.url req)%string in
    let s0 := {| CacheMiddleware.cache :=
                   CacheMiddleware.delete key (CacheMiddleware.cache s);
                 CacheMiddleware.clockReads := S (S (CacheMiddleware.clockReads s)) |} in
    CacheMiddleware.method req = "GET" ->
    CacheMiddleware.get key (CacheMiddleware.cache s) = Some entry ->
    CacheMiddleware.expiresAt entry <= now (CacheMiddleware.clockReads s) ->
    now (CacheMiddleware.clockReads s) <= now (S (CacheMiddleware.clockReads s)) ->
    next s0 = (Returned None, s1) ->
    CacheMiddleware.cache s1 = CacheMiddleware.cache s0 ->
    CacheMiddleware.cacheMiddleware now durationSeconds req next s = (Returned None, s1)
    /\ CacheMiddleware.get key (CacheMiddleware.cache s1) = None.
Proof.
  intros now d req next s s1 entry key s0 Hmethod Hget Hold Hclock Hrun Hcache.
  split.
  - unfold CacheMiddleware.cacheMiddleware. rewrite Hmethod.
    change ("GET" =? "GET")%string with true. cbn [negb].
    fold key. rewrite Hget.
    unfold bind at 1. unfold CacheMiddleware.dateNow at 1.
    destruct (Z.ltb_spec (now (CacheMiddleware.clockReads s))
                         (CacheMiddleware.expiresAt entry)) as [Hlt|_]; [lia|].
    unfold bind at 1. unfold CacheMiddleware.dateNow at 1.
    cbn [CacheMiddleware.cache CacheMiddleware.clockReads].
    destruct (Z.leb_spec (CacheMiddleware.expiresAt entry)
                         (now (S (CacheMiddleware.clockReads s)))) as [_|Hgt]; [|lia].
    unfold bind at 1. unfold CacheMiddleware.onCache at 1.
    cbn [CacheMiddleware.cache CacheMiddleware.clockReads].
    unfold CacheMiddleware.intercepted, bind. fold s0. rewrite Hrun. reflexivity.
  - rewrite Hcache. unfold s0. cbn [CacheMiddleware.cache]. apply get_delete_same.
Qed.

Lemma cacheMiddleware_expired_witness :
  CacheMiddleware.cacheMiddleware secondsClock 1800 statisticsRequest
                                  silentHandler staleServer
  = (Returned None,
     {| CacheMiddleware.cache := []; CacheMiddleware.clockReads := 2 |}).
Proof.
  apply (cacheMiddleware_expired
           secondsClock 1800 statisticsRequest silentHandler staleServer
           {| CacheMiddleware.cache := []; CacheMiddleware.clockReads := 2 |}
           {| CacheMiddleware.data := JNull;
              CacheMiddleware.expiresAt := 1771200000000 |}).
  - reflexivity.
  - reflexivity.
  - vm_compute. discriminate.
  - vm_compute. discriminate.
  - reflexivity.
  - reflexivity.
Defined.

(** ** What is rejected is never stored *)













(** ** The upsert, record by record *)

Lemma noDup_ids_step (env : Env) (state : string) (r : MissingPerson)
      (c c' : DatabaseService.Counts) (w w' : World) :
  DatabaseService.insertRecord env state r (c, w) = (Returned tt, (c', w')) ->
  NoDup (map _id (db w)) -> NoDup (map _id (db w')).
Proof.
  intros Hrun H.
  destruct (insertRecord_store env state r c w) as [c1 [w1 [Hrun1 Hcase]]].
  rewrite Hrun in Hrun1. injection Hrun1 as <- <-.
  destruct Hcase as [[_ [_ [doc [Hdb [_ Hid]]]]]|[_ [_ Hids]]].
  - rewrite Hdb, map_app. cbn [map]. apply NoDup_app_last; [exact H|].
    rewrite Hid. apply freshId_fresh.
  - rewrite Hids. exact H.
Qed.

(** The loop over a batch in two parts. *)
Lemma forEach_insertRecord_app (env : Env) (state : string)
      (l1 l2 : list MissingPerson) :
  forall (c : DatabaseService.Counts) (w : World),
  exists c0 w0,
    forEach l1 (DatabaseService.insertRecord env state) (c, w) = (Returned tt, (c0, w0))
    /\ forEach (l1 ++ l2) (DatabaseService.insertRecord env state) (c, w)
       = forEach l2 (DatabaseService.insertRecord env state) (c0, w0)
    /\ (NoDup (map _id (db w)) -> NoDup (map _id (db w0))).
Proof.
  induction l1 as [|r rest IH]; intros c w.
  - exists c, w. repeat split. tauto.
  - destruct (insertRecord_counts env state r c w) as [c1 [w1 [Hrun _]]].
    destruct (IH c1 w1) as [c0 [w0 [Hrest [Happ Hids]]]].
    exists c0, w0. cbn [forEach app]. unfold bind. rewrite Hrun.
    split; [exact Hrest|]. split; [exact Happ|].
    intros H. apply Hids. eapply noDup_ids_step; eassumption.
Qed.

(** One turn of the loop does what [upserted] says. *)
Lemma insertRecord_upserted (env : Env) (state : string) (record : MissingPerson)
      (c c' : DatabaseService.Counts) (w w' : World) :
  NoDup (map _id (db w)) ->
  DatabaseService.insertRecord env state record (c, w) = (Returned tt, (c', w')) ->
  upserted env record c w c' w'.
Proof.
  intros Hids. rewrite insertRecord_run. unfold upserted.
  destruct (storageFault env (steps w)) as [e|].
  { intros [= <- <-]. repeat split. logged. }
  destruct (find (sameHash (dataHash record)) (db w)) as [existing|] eqn:Efind.
  - destruct (DatabaseService.statusDiffers _ _).
    + destruct (storageFault env (S (steps w))) as [e|]; cbn [noFault];
        intros [= <- <-]; (split; [reflexivity|]).
      * split; [logged|reflexivity].
      * split; [logged|].
        destruct (find_split _ _ _ Efind) as [before [after [Hdb _]]].
        exists before, after,
          (applyUpdate (status record) (clock env (S (steps w))) existing).
        split; [exact Hdb|].
        split.
        { cbn [db setDb]. rewrite Hdb. apply updateFirst_at.
          rewrite <- Hdb. exact Hids. }
        split; [apply withoutStatus_applyUpdate|].
        split; [|reflexivity].
        destruct (status record); reflexivity.
    + intros [= <- <-]. repeat split. logged.
  - destruct (schemaAccepts record); cbn [andb].
    + destruct (storageFault env (S (steps w))) as [e|]; cbn [noFault].
      * rewrite andb_false_r. intros [= <- <-]. repeat split. logged.
      * rewrite andb_true_r.
        destruct (geoKeysAccept record); intros [= <- <-].
        -- repeat split; [logged|].
           eexists. cbn [db setDb]. repeat split; reflexivity.
        -- repeat split. logged.
    + intros [= <- <-]. repeat split. logged.
Qed.

(** One turn of the loop counts its record once, and twice when the
    update of the status fails. *)
Lemma insertRecord_account (env : Env) (state : string) (r : MissingPerson)
      (c : DatabaseService.Counts) (w : World) :
  exists c' w',
    DatabaseService.insertRecord env state r (c, w) = (Returned tt, (c', w'))
    /\ (DatabaseService.inserted c' + DatabaseService.duplicates c'
        + List.length (errorLog w')
        = DatabaseService.inserted c + DatabaseService.duplicates c
          + List.length (errorLog w) + 1
          + (if updateFails env r w then 1 else 0))%nat.
Proof.
  rewrite insertRecord_run. unfold updateFails.
  destruct (storageFault env (steps w)) as [e|]; cbn [noFault andb].
  { eexists; eexists; split; [reflexivity|].
    cbn [errorLog logErrorEntry tick]. rewrite length_app. cbn [List.length]. lia. }
  destruct (find (sameHash (dataHash r)) (db w)) as [existing|].
  - destruct (DatabaseService.statusDiffers _ _); cbn [andb].
    + destruct (storageFault env (S (steps w))); cbn [noFault negb];
        eexists; eexists; (split; [reflexivity|]);
        cbn [errorLog logErrorEntry tick setDb DatabaseService.countDuplicate
             DatabaseService.inserted DatabaseService.duplicates];
        rewrite ?length_app; cbn [List.length]; lia.
    + eexists; eexists; split; [reflexivity|].
      cbn [errorLog tick DatabaseService.countDuplicate
           DatabaseService.inserted DatabaseService.duplicates]. lia.
  - destruct (schemaAccepts r).
    + destruct (storageFault env (S (steps w))).
      * eexists; eexists; split; [reflexivity|].
        cbn [errorLog logErrorEntry tick]. rewrite length_app. cbn [List.length]. lia.
      * destruct (geoKeysAccept r); eexists; eexists; (split; [reflexivity|]);
          cbn [errorLog logErrorEntry tick setDb DatabaseService.countInserted
               DatabaseService.inserted DatabaseService.duplicates];
          rewrite ?length_app; cbn [List.length]; lia.
    + eexists; eexists; split; [reflexivity|].
      cbn [errorLog logErrorEntry tick]. rewrite length_app. cbn [List.length]. lia.
Qed.

Lemma forEach_insertRecord_account (env : Env) (state : string)
      (records : list MissingPerson) :
  forall (c : DatabaseService.Counts) (w : World),
  exists c' w',
    forEach records (DatabaseService.insertRecord env state) (c, w)
    = (Returned tt, (c', w'))
    /\ (DatabaseService.inserted c' + DatabaseService.duplicates c'
        + List.length (errorLog w')
        = DatabaseService.inserted c + DatabaseService.duplicates c
          + List.length (errorLog w) + List.length records
          + failedUpdates env state records (c, w))%nat.
Proof.
  induction records as [|r rest IH]; intros c w.
  - exists c, w. split; [reflexivity|]. cbn [List.length failedUpdates]. lia.
  - destruct (insertRecord_account env state r c w) as [c1 [w1 [Hrun Hstep]]].
    destruct (IH c1 w1) as [c' [w' [Hrest Hsum]]].
    exists c', w'. cbn [forEach failedUpdates]. unfold bind. rewrite Hrun.
    split; [exact Hrest|]. cbn [snd List.length]. lia.
Qed.

Lemma failedUpdates_none (env : Env) (state : string) (records : list MissingPerson) :
  (forall k, storageFault env k = None) ->
  forall s, failedUpdates env state records s = 0%nat.
Proof.
  intros Hok. induction records as [|r rest IH]; intros s; [reflexivity|].
  cbn [failedUpdates]. rewrite IH. unfold updateFails. rewrite !Hok.
  cbn [noFault negb andb].
  destruct (find _ _); [rewrite andb_false_r|]; reflexivity.
Qed.

(** C1 (as amended): for every batch the call returns, and each record of
    the batch has its turn in the world the records before it have left,
    with what [upserted] says: looked up by its hash; inserted whole and
    counted as inserted when none is stored and the schema and the store
    accept it; counted as duplicate when one is stored, only the status
    and the time of update of the stored record changing when the status
    differs, and nothing being written when it is the same; a failure is
    logged and the loop goes on.  With n records,
    inserted + duplicates + failures = n + the number of failed status
    updates, since a record whose update fails has been counted as
    duplicate before: so inserted + duplicates <= n,
    inserted + failures <= n, n <= inserted + duplicates + failures, with
    equality when no status update fails, as when the store rejects no
    call. *)
Theorem insertRecords_upsert_and_counts :
  forall (env : Env) (state : string) (records : list MissingPerson) (w : World),
    NoDup (map _id (db w)) ->
    let start := ({| DatabaseService.inserted := 0; DatabaseService.duplicates := 0 |}, w) in
    exists c w',
      DatabaseService.insertRecords env records state w = (Returned c, w')
      /\ (forall before record after,
             records = before ++ record :: after ->
             exists c0 w0 c1 w1,
               forEach before (DatabaseService.insertRecord env state) start
               = (Returned tt, (c0, w0))
               /\ DatabaseService.insertRecord env state record (c0, w0)
                  = (Returned tt, (c1, w1))
               /\ forEach after (DatabaseService.insertRecord env state) (c1, w1)
                  = (Returned tt, (c, w'))
               /\ upserted env record c0 w0 c1 w1)
      /\ (DatabaseService.inserted c + DatabaseService.duplicates c
          + failuresLogged w w'
          = List.length records + failedUpdates env state records start)%nat
      /\ (DatabaseService.inserted c + DatabaseService.duplicates c
          <= List.length records)%nat
      /\ (DatabaseService.inserted c + failuresLogged w w' <= List.length records)%nat
      /\ (List.length records
          <= DatabaseService.inserted c + DatabaseService.duplicates c
             + failuresLogged w w')%nat
      /\ (failedUpdates env state records start = 0%nat ->
          (DatabaseService.inserted c + DatabaseService.duplicates c
           + failuresLogged w w' = List.length records)%nat)
      /\ ((forall k, storageFault env k = None) ->
          failedUpdates env state records start = 0%nat).
Proof.
  intros env state records w Hids start.
  destruct (forEach_insertRecord_counts env state records
              {| DatabaseService.inserted := 0; DatabaseService.duplicates := 0 |} w)
    as [c [w' [i [d [f [Hrun [Hi [Hd [Hf [B1 [B2 B3]]]]]]]]]]].
  destruct (forEach_insertRecord_account env state records
              {| DatabaseService.inserted := 0; DatabaseService.duplicates := 0 |} w)
    as [c2 [w2 [Hrun2 Hsum]]].
  rewrite Hrun in Hrun2. injection Hrun2 as <- <-.
  cbn [DatabaseService.inserted DatabaseService.duplicates] in Hi, Hd, Hsum.
  exists c, w'. unfold DatabaseService.insertRecords. rewrite Hrun.
  split; [reflexivity|].
  assert (Hlog : failuresLogged w w' = f) by (unfold failuresLogged; lia).
  fold start in Hsum. rewrite Hlog.
  split.
  { intros before record after Hsplit.
    destruct (forEach_insertRecord_app env state before (record :: after)
                {| DatabaseService.inserted := 0; DatabaseService.duplicates := 0 |} w)
      as [c0 [w0 [Hbefore [Happ Hids0]]]].
    destruct (insertRecord_counts env state record c0 w0) as [c1 [w1 [Hturn _]]].
    exists c0, w0, c1, w1.
    split; [exact Hbefore|]. split; [exact Hturn|].
    split.
    - rewrite <- Hsplit, Hrun in Happ. cbn [forEach] in Happ. unfold bind in Happ.
      rewrite Hturn in Happ. symmetry. exact Happ.
    - apply (insertRecord_upserted env state); [apply Hids0; exact Hids|exact Hturn]. }
  split; [lia|]. split; [lia|]. split; [lia|]. split; [lia|].
  split; [lia|].
  intros Hok. apply failedUpdates_none. exact Hok.
Qed.

Lemma insertRecords_upsert_and_counts_witness :
  exists c w',
    DatabaseService.insertRecords faultyHost [ashaRaoFound; ashaRao] "Maharashtra"
                                  worldWithAshaRao
    = (Returned c, w')
    /\ (DatabaseService.inserted c + DatabaseService.duplicates c
        + failuresLogged worldWithAshaRao w'
        = List.length [ashaRaoFound; ashaRao]
          + failedUpdates faultyHost "Maharashtra" [ashaRaoFound; ashaRao]
                          ({| DatabaseService.inserted := 0;
                              DatabaseService.duplicates := 0 |}, worldWithAshaRao))%nat.
Proof.
  assert (Hids : NoDup (map _id (db worldWithAshaRao))).
  { repeat constructor. intros []. }
  destruct (insertRecords_upsert_and_counts
              faultyHost "Maharashtra" [ashaRaoFound; ashaRao] worldWithAshaRao Hids)
    as [c [w' [Hrun [_ [Hsum _]]]]].
  exists c, w'. split; [exact Hrun|exact Hsum].
Defined.

(** ** Re-ingestion *)






Lemma find_some_in {A : Type} (p : A -> bool) (l : list A) (x : A) :
  find p l = Some x -> In x l /\ p x = true.
Proof. apply find_some. Qed.












